(** * Tech-stack analyzer: the detection and aggregation core

    A shallow embedding of [app/api/analyze/route.tsx]: the server-header
    alias table, the script work-list, the secondary script fetcher, the
    detector set, the aggregator [detectTechStack], the edge/origin
    de-duplication pass and the [POST] handler.  The repository also keeps
    earlier snapshots of the route; the embedding follows the current one.

    Conventions of the embedding.
    - Strings are sequences of 8-bit code units (ISO-8859-1).  On that range
      [String.prototype.toLowerCase] lowers A-Z and the Latin-1 capitals.
    - The libraries the route imports are not part of the repository.  The
      subset of them the route uses is modelled here: regular expressions
      ([Rx]), the cheerio query interface over an already parsed document
      ([Dom]), and axios requests as events of a small free monad ([Http]).
      The HTML parser, the WHATWG URL parser and the JSON/String built-ins
      are left as an interface ([Runtime]).
    - [Promise.all] and the [p-limit] gate only schedule the fetches; the
      values they deliver are position-indexed, so the embedding sequences
      the awaited computations in array order. *)

From Stdlib Require Import List String Ascii Bool Arith Lia ZArith.
From Stdlib Require Import Sorting.Sorted Sorting.Permutation.
Import ListNotations.
Local Open Scope string_scope.
Local Open Scope list_scope.
Local Open Scope nat_scope.

Set Implicit Arguments.
Set Warnings "-register-all".

(* ================================================================== *)
(** ** JavaScript strings *)
(* ================================================================== *)

Module Js.

Definition code (c : ascii) : nat := nat_of_ascii c.

Definition between (lo hi n : nat) : bool := (lo <=? n) && (n <=? hi).

(** ASCII part of case conversion: A-Z to a-z. *)
Definition lower_ascii (c : ascii) : ascii :=
  if between 65 90 (code c) then ascii_of_nat (code c + 32) else c.

Definition upper_ascii (c : ascii) : ascii :=
  if between 97 122 (code c) then ascii_of_nat (code c - 32) else c.

(** [toLowerCase] on one code unit of the Latin-1 range: A-Z, and
    U+00C0..U+00DE except the multiplication sign U+00D7. *)
Definition lower_char (c : ascii) : ascii :=
  let n := code c in
  if between 65 90 n then ascii_of_nat (n + 32)
  else if between 192 222 n && negb (n =? 215) then ascii_of_nat (n + 32)
  else c.

Fixpoint toLowerCase (s : string) : string :=
  match s with
  | EmptyString => EmptyString
  | String c s' => String (lower_char c) (toLowerCase s')
  end.

(** [s.startsWith(p)]. *)
Definition startsWith (p s : string) : bool := String.prefix p s.

(** [s.includes(needle)]. *)
Fixpoint includes (needle s : string) : bool :=
  String.prefix needle s ||
  match s with
  | EmptyString => false
  | String _ s' => includes needle s'
  end.

(** White space and line terminators removed by [trim] (8-bit range). *)
Definition is_space (c : ascii) : bool :=
  let n := code c in between 9 13 n || (n =? 32) || (n =? 160).

Fixpoint trimStart (s : string) : string :=
  match s with
  | String c s' => if is_space c then trimStart s' else s
  | EmptyString => EmptyString
  end.

Fixpoint rev_string (acc s : string) : string :=
  match s with
  | EmptyString => acc
  | String c s' => rev_string (String c acc) s'
  end.

Definition trim (s : string) : string :=
  rev_string "" (trimStart (rev_string "" (trimStart s))).

(** Truthiness of a string: non-empty. *)
Definition truthy (s : string) : bool := negb (String.eqb s "").

(** Truthiness of a possibly undefined string. *)
Definition truthy_opt (o : option string) : bool :=
  match o with Some s => truthy s | None => false end.

(** [o || ''] for a possibly undefined string. *)
Definition or_empty (o : option string) : string :=
  match o with Some s => s | None => "" end.

(** [cond ? 1 : 0]. *)
Definition b2n (b : bool) : nat := if b then 1 else 0.

(** [Array.prototype.join]. *)
Fixpoint join (sep : string) (l : list string) : string :=
  match l with
  | [] => ""
  | [x] => x
  | x :: l' => String.append x (String.append sep (join sep l'))
  end.

(** Objects used as string-keyed maps: the entries in insertion order
    ([Object.entries]); keys are unique in a well-formed object. *)
Definition Obj (V : Type) := list (string * V).

Fixpoint get {V} (k : string) (o : Obj V) : option V :=
  match o with
  | [] => None
  | (k', v) :: o' => if String.eqb k k' then Some v else get k o'
  end.

(** [o[k] = v]: overwrite in place, or append a new key. *)
Fixpoint set {V} (k : string) (v : V) (o : Obj V) : Obj V :=
  match o with
  | [] => [(k, v)]
  | (k', v') :: o' => if String.eqb k k' then (k, v) :: o' else (k', v') :: set k v o'
  end.

Definition keys {V} (o : Obj V) : list string := map fst o.

(** A [Set<string>]: insertion-ordered, [add] ignores a present member. *)
Definition StrSet := list string.

Definition has (x : string) (s : StrSet) : bool := existsb (String.eqb x) s.

Definition add (x : string) (s : StrSet) : StrSet :=
  if has x s then s else s ++ [x].

(** Decimal rendering of a number in a template literal. *)
Fixpoint digits (fuel n : nat) (acc : string) : string :=
  match fuel with
  | 0 => acc
  | S fuel' =>
      let acc' := String (ascii_of_nat (48 + n mod 10)) acc in
      if n <? 10 then acc' else digits fuel' (n / 10) acc'
  end.

Definition string_of_nat (n : nat) : string := digits (S n) n "".

End Js.

(* ================================================================== *)
(** ** Regular expressions (the subset of RegExp the route uses) *)
(* ================================================================== *)

Module Rx.

Inductive cset :=
| CChar (c : ascii)
| CRange (lo hi : ascii)
| CDigit                        (* \d *)
| CWord                         (* \w *)
| CSpace.                       (* \s *)

Inductive re :=
| Eps
| Chr (c : ascii)
| Dot                           (* any but a line terminator *)
| Cls (negated : bool) (items : list cset)
| Seq (a b : re)
| Alt (a b : re)
| Star (a : re)
| WordB.                        (* \b *)

(** A regular expression literal: pattern and the [i] flag.  No literal
    of the route carries [g] or [y], so [test] is stateless. *)
Record RegExp := mk { pattern : re; ignoreCase : bool }.

Definition is_word (c : ascii) : bool :=
  let n := Js.code c in
  Js.between 48 57 n || Js.between 65 90 n || Js.between 97 122 n || (n =? 95).

Definition is_digit (c : ascii) : bool := Js.between 48 57 (Js.code c).

Definition is_line_terminator (c : ascii) : bool :=
  let n := Js.code c in (n =? 10) || (n =? 13).

(** Character comparison; under [i] both sides are canonicalised.  For
    the 8-bit range and ASCII patterns canonical forms agree exactly when
    the ASCII-lowered characters agree. *)
Definition chr_eq (ci : bool) (c x : ascii) : bool :=
  if ci then Ascii.eqb (Js.lower_ascii c) (Js.lower_ascii x) else Ascii.eqb c x.

Definition in_range (lo hi x : ascii) : bool :=
  Js.between (Js.code lo) (Js.code hi) (Js.code x).

Definition cset_has (ci : bool) (i : cset) (x : ascii) : bool :=
  match i with
  | CChar c => chr_eq ci c x
  | CRange lo hi =>
      in_range lo hi x ||
      (ci && (in_range lo hi (Js.lower_ascii x) || in_range lo hi (Js.upper_ascii x)))
  | CDigit => is_digit x
  | CWord => is_word x
  | CSpace => Js.is_space x
  end.

Definition opt_word (o : option ascii) : bool :=
  match o with Some c => is_word c | None => false end.

Definition head (s : string) : option ascii :=
  match s with String c _ => Some c | EmptyString => None end.

(** Backtracking matcher in continuation-passing style.  [prev] is the
    character before the current position (for [\b]); [k] receives the
    position reached.  An iteration of [Star] must consume input. *)
Fixpoint m (ci : bool) (r : re) (prev : option ascii) (s : string)
           (k : option ascii -> string -> bool) {struct r} : bool :=
  match r with
  | Eps => k prev s
  | Chr c =>
      match s with
      | String x s' => if chr_eq ci c x then k (Some x) s' else false
      | EmptyString => false
      end
  | Dot =>
      match s with
      | String x s' => if is_line_terminator x then false else k (Some x) s'
      | EmptyString => false
      end
  | Cls neg items =>
      match s with
      | String x s' =>
          if Bool.eqb neg (existsb (fun i => cset_has ci i x) items) then false
          else k (Some x) s'
      | EmptyString => false
      end
  | Seq a b => m ci a prev s (fun p t => m ci b p t k)
  | Alt a b => if m ci a prev s k then true else m ci b prev s k
  | Star a =>
      (fix loop (n : nat) (prev : option ascii) (s : string) {struct n} : bool :=
         if k prev s then true
         else
           match n with
           | 0 => false
           | S n' =>
               m ci a prev s
                 (fun p t => if String.length t <? String.length s
                             then loop n' p t else false)
           end) (String.length s) prev s
  | WordB =>
      if Bool.eqb (opt_word prev) (opt_word (head s)) then false else k prev s
  end.

(** Unanchored search from every start position. *)
Fixpoint search (ci : bool) (r : re) (prev : option ascii) (s : string) : bool :=
  if m ci r prev s (fun _ _ => true) then true
  else
    match s with
    | String x s' => search ci r (Some x) s'
    | EmptyString => false
    end.

(** [rx.test(s)]. *)
Definition test (rx : RegExp) (s : string) : bool :=
  search (ignoreCase rx) (pattern rx) None s.

(** *** Building patterns *)

Fixpoint lit (s : string) : re :=
  match s with
  | EmptyString => Eps
  | String c EmptyString => Chr c
  | String c s' => Seq (Chr c) (lit s')
  end.

Fixpoint seq (l : list re) : re :=
  match l with
  | [] => Eps
  | [r] => r
  | r :: l' => Seq r (seq l')
  end.

Fixpoint alt (l : list re) : re :=
  match l with
  | [] => Cls false []
  | [r] => r
  | r :: l' => Alt r (alt l')
  end.

Definition plus (r : re) : re := Seq r (Star r).
Definition opt (r : re) : re := Alt r Eps.
Definition alts (l : list string) : re := alt (map lit l).

Definition dquote : ascii := "034"%char.
Definition squote : ascii := "039"%char.
Definition quote : re := Cls false [CChar dquote; CChar squote].
Definition digit : re := Cls false [CDigit].
Definition word : re := Cls false [CWord].
Definition space : re := Cls false [CSpace].

(** [/.../] and [/.../i]. *)
Definition cs (r : re) : RegExp := mk r false.
Definition ci (r : re) : RegExp := mk r true.

End Rx.

(* ================================================================== *)
(** ** The markup index (the subset of cheerio the route uses) *)
(* ================================================================== *)

Module Dom.

(** An element as the detectors see it: tag name, attributes and the
    serialised content [$(el).html()].  Text and comments reach the
    detectors only through that content.  Names are in lower case, as the
    parser leaves them; selectors compare attribute values as written. *)
Record element := mkEl {
  tag : string;
  attrs : Js.Obj string;
  inner : string
}.

Inductive node := Node (e : element) (children : list node).

(** The loaded document [$]: its serialisation [$.html()] and its
    element tree. *)
Record Cheerio := mkDoc {
  html : string;
  roots : list node
}.

(** Attribute tests of a selector: [[a]], [[a="v"]], [[a*="v"]],
    [[a^="v"]], [[a~="v"]]. *)
Inductive attr_test :=
| Has
| Equals (v : string)
| Contains (v : string)
| Prefix (v : string)
| Word (v : string).

(** A compound selector: optional tag, optional [#id], [.class]es and
    attribute tests. *)
Record compound := mkSel {
  sel_tag : option string;
  sel_id : option string;
  sel_classes : list string;
  sel_attrs : list (string * attr_test)
}.

(** A complex selector: the subject and the compounds its ancestors must
    match (descendant combinator), nearest requirement first. *)
Record complex := mkCx {
  subject : compound;
  inside : list compound
}.

(** A selector list [a, b, c]. *)
Definition selector := list complex.

(** Split on white space ([class] and [rel] tokens). *)
Fixpoint tokens_aux (cur : string) (s : string) : list string :=
  match s with
  | EmptyString => if String.eqb cur "" then [] else [Js.rev_string "" cur]
  | String c s' =>
      if Js.is_space c
      then (if String.eqb cur "" then tokens_aux "" s'
            else Js.rev_string "" cur :: tokens_aux "" s')
      else tokens_aux (String c cur) s'
  end.

Definition tokens (s : string) : list string := tokens_aux "" s.

Definition attr (name : string) (e : element) : option string :=
  Js.get name (attrs e).

Definition attr_ok (e : element) (t : string * attr_test) : bool :=
  match attr (fst t) e with
  | None => false
  | Some v =>
      match snd t with
      | Has => true
      | Equals w => String.eqb v w
      | Contains w => negb (String.eqb w "") && Js.includes w v
      | Prefix w => negb (String.eqb w "") && Js.startsWith w v
      | Word w => existsb (String.eqb w) (tokens v)
      end
  end.

Definition matches (c : compound) (e : element) : bool :=
  match sel_tag c with Some t => String.eqb t (tag e) | None => true end &&
  match sel_id c with
  | Some i => match attr "id" e with Some v => String.eqb v i | None => false end
  | None => true
  end &&
  forallb (fun cl => existsb (String.eqb cl) (tokens (Js.or_empty (attr "class" e))))
          (sel_classes c) &&
  forallb (attr_ok e) (sel_attrs c).

(** Ancestors are listed nearest first. *)
Fixpoint inside_ok (req : list compound) (ancestors : list element) : bool :=
  match req with
  | [] => true
  | c :: req' =>
      (fix find (l : list element) : bool :=
         match l with
         | [] => false
         | a :: l' => (matches c a && inside_ok req' l') || find l'
         end) ancestors
  end.

Definition matches_cx (x : complex) (e : element) (ancestors : list element) : bool :=
  matches (subject x) e && inside_ok (inside x) ancestors.

(** All elements in document order, each with its ancestors. *)
Fixpoint flatten (ancestors : list element) (n : node) : list (element * list element) :=
  match n with
  | Node e children => (e, ancestors) :: flat_map (flatten (e :: ancestors)) children
  end.

Definition all_elements (d : Cheerio) : list (element * list element) :=
  flat_map (flatten []) (roots d).

(** [$(selector).toArray()]: the matching elements, once each, in
    document order. *)
Definition query (d : Cheerio) (sel : selector) : list element :=
  map fst
    (filter (fun ea => existsb (fun x => matches_cx x (fst ea) (snd ea)) sel)
            (all_elements d)).

(** [$(selector).length]. *)
Definition count (d : Cheerio) (sel : selector) : nat := List.length (query d sel).

(** [$(selector).length > 0]. *)
Definition any (d : Cheerio) (sel : selector) : bool := 0 <? count d sel.

(** [$(selector).attr(name)]: of the first match. *)
Definition first_attr (d : Cheerio) (sel : selector) (name : string) : option string :=
  match query d sel with
  | e :: _ => attr name e
  | [] => None
  end.

(** [$(selector).html()]: of the first match. *)
Definition first_html (d : Cheerio) (sel : selector) : option string :=
  match query d sel with
  | e :: _ => Some (inner e)
  | [] => None
  end.

(** [$('script').filter((i, el) => p($(el).html() || '')).length > 0]. *)
Definition inline_script (d : Cheerio) (p : string -> bool) : bool :=
  0 <? List.length
         (filter (fun e => p (inner e))
                 (query d [mkCx (mkSel (Some "script") None [] []) []])).

(** *** Writing selectors *)

Definition el (t : string) (ts : list (string * attr_test)) : complex :=
  mkCx (mkSel (Some t) None [] ts) [].
Definition anyel (ts : list (string * attr_test)) : complex :=
  mkCx (mkSel None None [] ts) [].
Definition el_id (t i : string) : complex :=
  mkCx (mkSel (Some t) (Some i) [] []) [].
Definition cls (c : string) : complex :=
  mkCx (mkSel None None [c] []) [].
Definition within (outer : string) (x : complex) : complex :=
  mkCx (subject x) (inside x ++ [mkSel (Some outer) None [] []]).

Definition has (a : string) : string * attr_test := (a, Has).
Definition eq (a v : string) : string * attr_test := (a, Equals v).
Definition sub (a v : string) : string * attr_test := (a, Contains v).
Definition pre (a v : string) : string * attr_test := (a, Prefix v).
Definition wrd (a v : string) : string * attr_test := (a, Word v).

(** [script[src*="v"]] and [link[href*="v"]]. *)
Definition script_src (v : string) : complex := el "script" [sub "src" v].
Definition link_href (v : string) : complex := el "link" [sub "href" v].

End Dom.

(* ================================================================== *)
(** ** Requests, failures and awaiting (the subset of axios used) *)
(* ================================================================== *)

Module Http.

(** Values of parsed JSON; also the [data] of a response, where [JStr]
    is a body axios left as text. *)
Inductive Json :=
| JNull
| JBool (b : bool)
| JNum (n : Z)
| JStr (s : string)
| JArr (items : list Json)
| JObj (fields : list (string * Json)).

(** A response header value: a string, or an array for repeated headers. *)
Inductive header_value :=
| HOne (v : string)
| HMany (vs : list string).

Record response := mkResp {
  status : nat;
  headers : Js.Obj header_value;
  data : Json
}.

Inductive failure := NetworkError | TimedOut | Oversize | TooManyRedirects.

(** What the transport delivers for one request. *)
Inductive transport :=
| Failed (why : failure)
| Responded (r : response).

(** The three request configurations of the route: the primary document
    ([validateStatus: () => true]), the discovery probe (the same, with
    [Accept: application/json] and [maxRedirects: 2]) and a script body
    (the defaults of the shared client). *)
Inductive config := DocumentGet | ProbeGet | ScriptGet.

(** Asynchronous code: it returns, throws, or awaits a request. *)
Inductive Prog (A : Type) :=
| Ret (a : A)
| Throw
| Get (c : config) (url : string) (k : transport -> Prog A).

Arguments Ret {A} a.
Arguments Throw {A}.
Arguments Get {A} c url k.

Fixpoint bind {A B} (p : Prog A) (f : A -> Prog B) : Prog B :=
  match p with
  | Ret a => f a
  | Throw => Throw
  | Get c u k => Get c u (fun t => bind (k t) f)
  end.

(** [try { p } catch { h }]. *)
Fixpoint try_catch {A} (p : Prog A) (h : Prog A) : Prog A :=
  match p with
  | Ret a => Ret a
  | Throw => h
  | Get c u k => Get c u (fun t => try_catch (k t) h)
  end.

(** Sequential awaiting of a list of computations. *)
Fixpoint mapM {A B} (f : A -> Prog B) (l : list A) : Prog (list B) :=
  match l with
  | [] => Ret []
  | x :: l' => bind (f x) (fun y => bind (mapM f l') (fun ys => Ret (y :: ys)))
  end.

(** Lift a pure computation that may throw. *)
Definition lift {A} (o : option A) : Prog A :=
  match o with Some a => Ret a | None => Throw end.

(** The default [validateStatus] of axios. *)
Definition default_validate (s : nat) : bool := (200 <=? s) && (s <? 300).

Definition validateStatus (c : config) (s : nat) : bool :=
  match c with
  | DocumentGet | ProbeGet => true
  | ScriptGet => default_validate s
  end.

(** [await http.get(url, config)]: rejects on a transport failure and on
    a status the configuration does not accept. *)
Definition get (c : config) (url : string) : Prog response :=
  Get c url (fun t =>
    match t with
    | Responded r => if validateStatus c (status r) then Ret r else Throw
    | Failed _ => Throw
    end).

(** *** Running against a network *)

(** The frozen network: what each request is answered with. *)
Definition Net := config -> string -> transport.

Inductive outcome (A : Type) :=
| Returned (a : A)
| Thrown.
Arguments Returned {A} a.
Arguments Thrown {A}.

(** The value a computation settles to. *)
Fixpoint eval {A} (net : Net) (p : Prog A) : outcome A :=
  match p with
  | Ret a => Returned a
  | Throw => Thrown
  | Get c u k => eval net (k (net c u))
  end.

(** The requests it issues, in order. *)
Fixpoint trace {A} (net : Net) (p : Prog A) : list (config * string) :=
  match p with
  | Ret _ | Throw => []
  | Get c u k => (c, u) :: trace net (k (net c u))
  end.

(** The network-call counter. *)
Definition calls {A} (net : Net) (p : Prog A) : nat := List.length (trace net p).

End Http.

Declare Scope prog_scope.
Delimit Scope prog_scope with prog.
Notation "x <- p ;; q" := (Http.bind p (fun x => q))
  (at level 61, p at next level, right associativity) : prog_scope.
Local Open Scope prog_scope.

(* ================================================================== *)
(** ** The runtime interface *)
(* ================================================================== *)

(** A parsed URL: the two properties the route reads. *)
Record URL := mkURL { href : string; host : string }.

(** Library and built-in functions the route calls and the repository does
    not define. *)
Class Runtime := {
  (** [cheerio.load(html)] *)
  cheerio_load : string -> Dom.Cheerio;
  (** [new URL(s)]; [None] when it throws *)
  URL_new : string -> option URL;
  (** [new URL(s, base)]; [None] when it throws *)
  URL_resolve : string -> string -> option URL;
  (** [JSON.stringify(v)] *)
  JSON_stringify : Http.Json -> string;
  (** [String(v)] for a value that is not a string *)
  String_of : Http.Json -> string
}.

(* ================================================================== *)
(** ** The result record *)
(* ================================================================== *)

(** The keys of [interface TechStack]. *)
Module Key.

Inductive Field :=
| cms | javascriptFrameworks | cssFrameworks | server | webServer
| analytics | buildTools | compression | isWordPress | cdn | hosting
| payments | marketing | monitoring.

Definition field_name (f : Key.Field) : string :=
  match f with
  | cms => "cms"
  | javascriptFrameworks => "javascriptFrameworks"
  | cssFrameworks => "cssFrameworks"
  | server => "server"
  | webServer => "webServer"
  | analytics => "analytics"
  | buildTools => "buildTools"
  | compression => "compression"
  | isWordPress => "isWordPress"
  | cdn => "cdn"
  | hosting => "hosting"
  | payments => "payments"
  | marketing => "marketing"
  | monitoring => "monitoring"
  end.

End Key.

Inductive Value :=
| VStr (s : string)
| VList (l : list string)
| VBool (b : bool)
| VUndefined.

(** The record under construction: a JavaScript object, its keys in the
    order they were first assigned. *)
Definition TechStack := Js.Obj Value.

Definition tget (f : Key.Field) (t : TechStack) : option Value := Js.get (Key.field_name f) t.
Definition tset (f : Key.Field) (v : Value) (t : TechStack) : TechStack :=
  Js.set (Key.field_name f) v t.

(** A field the JSON response does not carry: never assigned, or assigned
    [undefined]. *)
Definition absent (f : Key.Field) (t : TechStack) : Prop :=
  tget f t = None \/ tget f t = Some VUndefined.

(** The fields of the JSON response, in order. *)
Definition to_json (t : TechStack) : TechStack :=
  filter (fun kv => match snd kv with VUndefined => false | _ => true end) t.

(** [if (xs.length) tech.f = xs]. *)
Definition set_if_nonempty (f : Key.Field) (xs : list string) (t : TechStack) : TechStack :=
  match xs with [] => t | _ => tset f (VList xs) t end.

(** [if (cond) xs.push(label)]. *)
Definition push_if (cond : bool) (label : string) (xs : list string) : list string :=
  if cond then xs ++ [label] else xs.

(** [const { url } = await req.json()] reads [NextRequest]. *)
Record NextRequest := mkReq {
  (** the body parsed as JSON; [None] when [req.json()] rejects *)
  body_json : option Http.Json
}.

Inductive ResponseBody :=
| ErrorBody (error : string)
| TechBody (tech : TechStack).

(** [NextResponse.json(body, { status })]. *)
Record NextResponse := mkNext {
  next_body : ResponseBody;
  next_status : nat
}.

(* ================================================================== *)
(** ** The analyzer *)
(* ================================================================== *)

Section Analyzer.

Context {RT : Runtime}.

Import Rx Dom.

Definition MAX_SCRIPT_REQUESTS : nat := 12.

Definition serverHeaderAliases : list (RegExp * string) :=
  [ (ci (alt [lit "gws"; lit "ESF"; lit "google frontend"; lit "google front end";
              seq [lit "server:"; Star space; lit "ESF"]]), "Google Frontend");
    (ci (lit "apache"), "Apache HTTP Server");
    (ci (lit "nginx"), "NGINX");
    (ci (lit "cloudflare"), "Cloudflare");
    (ci (lit "cloudfront"), "Amazon CloudFront");
    (ci (alts ["iis"; "microsoft-iis"]), "Microsoft IIS");
    (ci (lit "vercel"), "Vercel");
    (ci (alts ["awselb"; "elastic load balancer"]), "AWS Elastic Load Balancer");
    (ci (lit "gunicorn"), "Gunicorn");
    (ci (lit "caddy"), "Caddy");
    (ci (lit "lighttpd"), "lighttpd");
    (ci (lit "fastly"), "Fastly (edge)");
    (ci (lit "akamai"), "Akamai (edge)") ].

(** The [for ... of] loop of [mapServerHeader]. *)
Fixpoint first_alias (table : list (RegExp * string)) (raw : string) : string :=
  match table with
  | [] => raw
  | (rx, label) :: table' => if test rx raw then label else first_alias table' raw
  end.

Definition mapServerHeader (raw : option string) : option string :=
  match raw with
  | None => None
  | Some r => if Js.truthy r then Some (first_alias serverHeaderAliases r) else None
  end.

(** *** The script work-list *)

Record candidate := mkCand {
  url : string;
  priority : nat;
  sameOrigin : bool;
  isModule : bool
}.

(** The callback of [nodes.map] in [pickTopScripts]; [None] is [null]. *)
Definition to_candidate (baseUrl baseHost : string) (e : element) : option candidate :=
  let isLink := String.eqb (tag e) "link" in
  let srcAttr := if isLink then "href" else "src" in
  let raw := Js.trim (Js.or_empty (attr srcAttr e)) in
  if negb (Js.truthy raw) then None
  else
    match URL_resolve raw baseUrl with
    | None => None
    | Some r =>
        match URL_new (href r) with
        | None => None
        | Some u =>
            let sameOrigin := String.eqb (host u) baseHost in
            let isModule := String.eqb (Js.toLowerCase (Js.or_empty (attr "type" e))) "module" in
            Some (mkCand (href r)
                         ((if isModule then 0 else 1) + (if sameOrigin then 0 else 1))
                         sameOrigin isModule)
        end
    end.

(** [.filter(x => !!x)]. *)
Fixpoint non_null {A} (l : list (option A)) : list A :=
  match l with
  | [] => []
  | Some x :: l' => x :: non_null l'
  | None :: l' => non_null l'
  end.

(** [Array.prototype.sort] with the comparator [a.priority - b.priority];
    the sort is stable. *)
Fixpoint insert_by_priority (c : candidate) (l : list candidate) : list candidate :=
  match l with
  | [] => [c]
  | d :: l' =>
      if priority c <=? priority d then c :: d :: l'
      else d :: insert_by_priority c l'
  end.

Definition sort_by_priority (l : list candidate) : list candidate :=
  fold_right insert_by_priority [] l.

(** [slice(0, n)]. *)
Definition slice0 {A} (n : nat) (l : list A) : list A := firstn n l.

Definition script_nodes (d : Cheerio) : list element :=
  query d [ el "script" [has "src"];
            el "link" [eq "rel" "preload"; eq "as" "script"; has "href"] ].

Definition candidates (d : Cheerio) (baseUrl baseHost : string) : list candidate :=
  non_null (map (to_candidate baseUrl baseHost) (script_nodes d)).

(** [None] when [new URL(baseUrl)] throws. *)
Definition pickTopScripts (d : Cheerio) (baseUrl : string) : option (list string) :=
  match URL_new baseUrl with
  | None => None
  | Some b =>
      Some (map url (slice0 MAX_SCRIPT_REQUESTS
                            (sort_by_priority (candidates d baseUrl (host b)))))
  end.

(** *** The secondary fetcher *)

(** [typeof data === 'string' ? data : JSON.stringify(data)]. *)
Definition body_text (data : Http.Json) : string :=
  match data with
  | Http.JStr s => s
  | j => JSON_stringify j
  end.

(** [None] is [null]. *)
Definition fetchText (u : string) : Http.Prog (option string) :=
  Http.try_catch
    (r <- Http.get Http.ScriptGet u ;;
     Http.Ret (Some (body_text (Http.data r))))
    (Http.Ret None).

(** The task [limit] runs for one script: [text ? matcher(text) : false]. *)
Definition scan_script (matcher : string -> bool) (u : string) : Http.Prog bool :=
  text <- fetchText u ;;
  Http.Ret (match text with
            | Some t => if Js.truthy t then matcher t else false
            | None => false
            end).

Definition containsInScripts (d : Cheerio) (baseUrl : string)
           (matcher : string -> bool) : Http.Prog bool :=
  scriptUrls <- Http.lift (pickTopScripts d baseUrl) ;;
  results <- Http.mapM (scan_script matcher) scriptUrls ;;
  Http.Ret (existsb (fun b => b) results).

(** *** CMS detection *)

(** [for (const rx of signals) if (rx.test(html)) score++], and
    [patterns.filter((rx) => rx.test(html)).length]. *)
Definition score (signals : list RegExp) (html : string) : nat :=
  List.length (filter (fun rx => test rx html) signals).

Definition not_gt : re := Cls true [CChar ">"%char].
Definition not_quote : re := Cls true [CChar dquote; CChar squote].

Definition wordpress_signals : list RegExp :=
  [ ci (lit "/wp-content/");
    ci (lit "/wp-includes/");
    ci (lit "/wp-admin/");
    ci (seq [lit "wp-embed"; opt (lit ".min"); lit ".js"]);
    ci (seq [lit "wp-emoji-release"; opt (lit ".min"); lit ".js"]);
    ci (lit "wp-blog-header.php");
    ci (seq [lit "<meta"; plus not_gt; lit "name="; quote; lit "generator"; quote;
             plus not_gt; lit "content="; quote; Star not_quote; lit "wordpress"]);
    ci (seq [lit "rel="; quote; lit "https://api.w.org/"; quote]) ].

Definition isWordPress (d : Cheerio) : bool :=
  2 <=? score wordpress_signals (html d).

Definition is_object (j : Http.Json) : bool :=
  match j with Http.JObj _ | Http.JArr _ => true | _ => false end.

(** [data.name] of a parsed value; [None] is [undefined]. *)
Definition prop (name : string) (j : Http.Json) : option Http.Json :=
  match j with
  | Http.JObj fields => Js.get name fields
  | _ => None
  end.

(** [Object.keys(v).length > 0] for an object or an array. *)
Definition has_keys (j : Http.Json) : bool :=
  match j with
  | Http.JObj fields => 0 <? List.length fields
  | Http.JArr items => 0 <? List.length items
  | _ => false
  end.

(** [String(v || '')] for a header value: an array joins with a comma. *)
Definition header_string (o : option Http.header_value) : string :=
  match o with
  | None => ""
  | Some (Http.HOne v) => v
  | Some (Http.HMany vs) => Js.join "," vs
  end.

Definition isWordPressViaAPI (baseUrl : string) : Http.Prog bool :=
  Http.try_catch
    (u <- Http.lift (URL_resolve "/wp-json" baseUrl) ;;
     res <- Http.get Http.ProbeGet (href u) ;;
     if (Http.status res <? 200) || (300 <=? Http.status res) then Http.Ret false
     else
       let ct := Js.toLowerCase (header_string (Js.get "content-type" (Http.headers res))) in
       if negb (Js.includes "application/json" ct) then Http.Ret false
       else
         let data := Http.data res in
         if negb (is_object data) then Http.Ret false
         else
           let hasNamespaces :=
             match prop "namespaces" data with Some (Http.JArr _) => true | _ => false end in
           let hasRoutes :=
             match prop "routes" data with
             | Some routes => is_object routes && has_keys routes
             | None => false
             end in
           let hasWpHeader :=
             existsb (fun h => Js.startsWith "x-wp-" (Js.toLowerCase h))
                     (Js.keys (Http.headers res)) in
           Http.Ret ((hasNamespaces && hasRoutes) || hasWpHeader))
    (Http.Ret false).

Definition drupal_patterns : list RegExp :=
  [ ci (lit "drupal.js");
    ci (seq [lit "sites/"; alts ["default"; "all"]; lit "/"]);
    ci (alts ["drupal_settings"; "drupalSettings"]) ].

Definition isDrupal (d : Cheerio) : bool :=
  let html := Js.toLowerCase (html d) in
  2 <=? score drupal_patterns html.

Definition joomla_patterns : list RegExp :=
  [ ci (lit "joomla"); ci (lit "/components/com_"); ci (lit "/media/system/js/") ].

Definition isJoomla (d : Cheerio) : bool :=
  let html := Js.toLowerCase (html d) in
  2 <=? score joomla_patterns html.

Definition shopify_signals : list RegExp :=
  [ ci (lit "cdn.shopify.com"); ci (lit "shopifycloud"); ci (lit "data-shopify");
    ci (lit "window.Shopify"); ci (lit "shopify.assets") ].

Definition isShopify (d : Cheerio) : bool :=
  2 <=? score shopify_signals (html d).

Definition squarespace_patterns : list RegExp :=
  [ ci (lit "static.squarespace.com"); ci (lit "squarespace.analytics") ].

Definition isSquarespace (d : Cheerio) : bool :=
  let html := Js.toLowerCase (html d) in
  1 <=? score squarespace_patterns html.

Definition wix_patterns : list RegExp :=
  [ ci (lit "static.wixstatic.com"); ci (alts ["wix-code"; "wixsite"]); ci (lit "wix.apps") ].

Definition isWix (d : Cheerio) : bool :=
  let html := Js.toLowerCase (html d) in
  2 <=? score wix_patterns html.

(** *** Analytics, marketing, monitoring, payments *)

(** The text s between two quote characters of the same kind: the group
    with a back-reference that the Google Analytics patterns use. *)
Definition quoted (s : string) : re :=
  alt [ seq [Chr dquote; lit s; Chr dquote]; seq [Chr squote; lit s; Chr squote] ].

Definition containsGoogleAnalytics (d : Cheerio) (baseUrl : string) : Http.Prog bool :=
  let hasGAScript :=
    any d [ script_src "google-analytics.com/analytics.js";
            script_src "google-analytics.com/ga.js";
            script_src "googletagmanager.com/gtag/js" ] in
  let inline :=
    inline_script d (fun c =>
      let ua := test (cs (seq [lit "ga("; quoted "create"])) c &&
                test (cs (seq [lit "ga("; quoted "send"])) c in
      let gtag := test (cs (lit "gtag(")) c && test (cs (lit "config")) c &&
                  test (cs (alts ["UA-"; "G-"])) c in
      ua || gtag) in
  inScripts <- containsInScripts d baseUrl (test (cs (alts ["gtag("; "ga("]))) ;;
  Http.Ret (hasGAScript || inline || inScripts).

Definition containsGoogleTagManager (d : Cheerio) (baseUrl : string) : Http.Prog bool :=
  let has_ :=
    any d [script_src "googletagmanager.com/gtm.js"] ||
    any d [within "noscript" (el "iframe" [sub "src" "googletagmanager.com/ns.html"])] in
  let inline :=
    inline_script d (fun c => test (cs (lit "dataLayer")) c && test (cs (lit "GTM-")) c) in
  inScripts <- containsInScripts d baseUrl (test (cs (alts ["gtm.start"; "GTM-"]))) ;;
  Http.Ret (has_ || inline || inScripts).

(** The sub-checks of the detectors that count corroborating signals. *)
Definition matomo_tag (d : Cheerio) : bool :=
  any d [script_src "matomo"; script_src "piwik"].
Definition matomo_inline (d : Cheerio) : bool :=
  inline_script d (test (ci (alts ["_paq.push"; "Matomo"]))).
Definition matomo_matcher : string -> bool := test (ci (alts ["_paq.push"; "Matomo"])).

Definition containsMatomo (d : Cheerio) (baseUrl : string) : Http.Prog bool :=
  let s := matomo_tag d in
  let inline := matomo_inline d in
  inScripts <- containsInScripts d baseUrl matomo_matcher ;;
  Http.Ret (2 <=? Js.b2n s + Js.b2n inline + Js.b2n inScripts).

Definition plausible_tag (d : Cheerio) : bool := any d [script_src "plausible.io"].
Definition plausible_inline (d : Cheerio) : bool :=
  inline_script d (test (ci (alts ["plausible"; "data-domain"]))).
Definition plausible_matcher : string -> bool := test (ci (lit "plausible")).

Definition containsPlausible (d : Cheerio) (baseUrl : string) : Http.Prog bool :=
  let s := plausible_tag d in
  let inline := plausible_inline d in
  inScripts <- containsInScripts d baseUrl plausible_matcher ;;
  Http.Ret (2 <=? Js.b2n s + Js.b2n inline + Js.b2n inScripts).

Definition mixpanel_tag (d : Cheerio) : bool := any d [script_src "mixpanel"].
Definition mixpanel_inline (d : Cheerio) : bool :=
  inline_script d (test (ci (seq [lit "mixpanel"; alts [".init"; "."]]))).
Definition mixpanel_matcher : string -> bool := test (ci (lit "mixpanel")).

Definition containsMixpanel (d : Cheerio) (baseUrl : string) : Http.Prog bool :=
  let s := mixpanel_tag d in
  let inline := mixpanel_inline d in
  inScripts <- containsInScripts d baseUrl mixpanel_matcher ;;
  Http.Ret (2 <=? Js.b2n s + Js.b2n inline + Js.b2n inScripts).

Definition amplitude_tag (d : Cheerio) : bool := any d [script_src "amplitude.com"].
Definition amplitude_inline (d : Cheerio) : bool :=
  inline_script d (test (cs (lit "amplitude.getInstance().init"))).
Definition amplitude_matcher : string -> bool :=
  test (cs (lit "amplitude.getInstance().init")).

Definition containsAmplitude (d : Cheerio) (baseUrl : string) : Http.Prog bool :=
  let s := amplitude_tag d in
  let inline := amplitude_inline d in
  inScripts <- containsInScripts d baseUrl amplitude_matcher ;;
  Http.Ret (2 <=? Js.b2n s + Js.b2n inline + Js.b2n inScripts).

Definition containsSegment (d : Cheerio) (baseUrl : string) : Http.Prog bool :=
  let s := any d [script_src "segment.com"; script_src "cdn.segment.com"] in
  inScripts <- containsInScripts d baseUrl (test (ci (alts ["analytics.load"; "SegmentSnip"]))) ;;
  Http.Ret (s || inScripts).

Definition containsHotjar (d : Cheerio) : bool :=
  any d [script_src "static.hotjar.com"; script_src "script.hotjar.com"] ||
  inline_script d (test (ci (alts ["hjid"; "Hotjar"]))).

Definition containsHubspot (d : Cheerio) : bool :=
  any d [script_src "js.hs-scripts.com"; script_src "js.hs-analytics.net"].

Definition containsMailchimp (d : Cheerio) : bool :=
  any d [script_src "chimpstatic.com"; script_src "mcjs"; script_src "list-manage.com"].

Definition containsIntercom (d : Cheerio) : bool :=
  any d [script_src "widget.intercom.io"] ||
  inline_script d (test (ci (lit "intercomSettings"))).

Definition containsDrift (d : Cheerio) : bool := any d [script_src "js.driftt.com"].

Definition containsSentry (d : Cheerio) : bool :=
  any d [script_src "sentry.io"; script_src "@sentry"] ||
  inline_script d (test (ci (alts ["Sentry.init"; "@sentry/browser"]))).

Definition containsDatadog (d : Cheerio) : bool :=
  any d [script_src "datadoghq"; script_src "ddrum"].

Definition containsNewRelic (d : Cheerio) : bool :=
  any d [script_src "nr-data.net"; script_src "newrelic"].

Definition containsStripe (d : Cheerio) : bool := any d [script_src "js.stripe.com"].
Definition containsBraintree (d : Cheerio) : bool :=
  any d [script_src "braintree"; script_src "paypalobjects.com/api/checkout"].
Definition containsPaypal (d : Cheerio) : bool :=
  any d [script_src "paypal.com/sdk/js"; script_src "paypalobjects.com"].
(** *** JavaScript frameworks *)

Definition jquery_tag (d : Cheerio) : bool := any d [script_src "jquery"].
Definition jquery_inline (d : Cheerio) : bool :=
  inline_script d (test (cs (alts ["jQuery"; "$("]))).
Definition jquery_matcher : string -> bool := test (cs (alts ["jQuery"; "$("])).

Definition containsjQuery (d : Cheerio) (baseUrl : string) : Http.Prog bool :=
  let hasTag := jquery_tag d in
  let inline := jquery_inline d in
  inScripts <- containsInScripts d baseUrl jquery_matcher ;;
  Http.Ret (2 <=? Js.b2n hasTag + Js.b2n inline + Js.b2n inScripts).

Definition backbone_tag (d : Cheerio) : bool := any d [script_src "backbone"].
Definition backbone_inline (d : Cheerio) : bool :=
  inline_script d (test (cs (alts ["Backbone.Model"; "Backbone."]))).
Definition backbone_matcher : string -> bool := test (cs (lit "Backbone.")).

Definition containsBackbone (d : Cheerio) (baseUrl : string) : Http.Prog bool :=
  let hasTag := backbone_tag d in
  let inline := backbone_inline d in
  inScripts <- containsInScripts d baseUrl backbone_matcher ;;
  Http.Ret (2 <=? Js.b2n hasTag + Js.b2n inline + Js.b2n inScripts).

Definition dojo_tag (d : Cheerio) : bool := any d [script_src "dojo"].
Definition dojo_inline (d : Cheerio) : bool :=
  inline_script d (test (cs (alts ["dojo.require"; "dojo."]))).
Definition dojo_matcher : string -> bool := test (ci (lit "dojo.")).

Definition containsDojo (d : Cheerio) (baseUrl : string) : Http.Prog bool :=
  let hasTag := dojo_tag d in
  let inline := dojo_inline d in
  inScripts <- containsInScripts d baseUrl dojo_matcher ;;
  Http.Ret (2 <=? Js.b2n hasTag + Js.b2n inline + Js.b2n inScripts).

Definition meteor_tag (d : Cheerio) : bool :=
  any d [script_src "meteor"; script_src "packages/meteor"].
Definition meteor_inline (d : Cheerio) : bool :=
  inline_script d (test (cs (alts ["Meteor.startup"; "Meteor."]))).
Definition meteor_attr (d : Cheerio) : bool := any d [anyel [pre "id" "meteor"]].
Definition meteor_matcher : string -> bool := test (cs (lit "Meteor.")).

Definition containsMeteor (d : Cheerio) (baseUrl : string) : Http.Prog bool :=
  let hasTag := meteor_tag d in
  let inline := meteor_inline d in
  let hasAttr := meteor_attr d in
  inScripts <- containsInScripts d baseUrl meteor_matcher ;;
  Http.Ret (2 <=? Js.b2n hasTag + Js.b2n inline + Js.b2n hasAttr + Js.b2n inScripts).

(** *** CSS frameworks *)

Definition containsBootstrap (d : Cheerio) : bool :=
  let hasStylesheet :=
    any d [ el "link" [wrd "rel" "stylesheet"; sub "href" "bootstrap"];
            link_href "cdnjs.cloudflare.com/ajax/libs/bootstrap";
            link_href "cdn.jsdelivr.net/npm/bootstrap";
            link_href "maxcdn.bootstrapcdn.com/bootstrap";
            link_href "unpkg.com/bootstrap" ] in
  let hasScript :=
    any d [ script_src "bootstrap.bundle";
            script_src "bootstrap.min.js";
            script_src "cdnjs.cloudflare.com/ajax/libs/bootstrap";
            script_src "cdn.jsdelivr.net/npm/bootstrap";
            script_src "maxcdn.bootstrapcdn.com/bootstrap";
            script_src "unpkg.com/bootstrap" ] in
  let hasBsVars :=
    existsb (fun e => test (cs (lit "--bs-")) (inner e)) (query d [el "style" []]) ||
    existsb (fun e => test (cs (lit "--bs-")) (Js.or_empty (attr "style" e)))
            (query d [anyel [has "style"]]) in
  let dataBsCount :=
    count d [ anyel [has "data-bs-toggle"]; anyel [has "data-bs-target"];
              anyel [has "data-bs-dismiss"]; anyel [has "data-bs-spy"];
              anyel [has "data-bs-slide"] ] in
  if hasStylesheet || hasScript || hasBsVars then true
  else if (2 <=? dataBsCount) && (hasStylesheet || hasScript || hasBsVars) then true
  else false.

Definition containsBulma (d : Cheerio) : bool :=
  let hasLink :=
    any d [ link_href "bulma.min.css"; link_href "bulma.css";
            link_href "cdn.jsdelivr.net/npm/bulma" ] in
  let gridBits :=
    count d [ cls "columns"; cls "column"; cls "hero"; cls "notification";
              cls "level"; cls "tile"; cls "message"; cls "navbar" ] in
  let modifierBits :=
    count d [ anyel [sub "class" " is-"]; anyel [pre "class" "is-"];
              anyel [sub "class" " has-"]; anyel [pre "class" "has-"] ] in
  hasLink || ((3 <=? gridBits) && (4 <=? modifierBits)).

Definition containsFoundation (d : Cheerio) : bool :=
  let hasLink :=
    any d [ link_href "foundation.min.css"; link_href "foundation.css";
            link_href "foundation-sites" ] in
  let hasJs := any d [script_src "foundation.min.js"; script_src "foundation.js"] in
  let hasDataAttrs :=
    any d [ anyel [has "data-accordion"]; anyel [has "data-dropdown"];
            anyel [has "data-reveal"]; anyel [has "data-tabs"];
            anyel [has "data-off-canvas"]; anyel [has "data-sticky"];
            anyel [has "data-magellan"] ] in
  let modernGrid :=
    3 <=? count d [ cls "grid-x"; cls "cell"; cls "grid-container"; cls "callout";
                    cls "reveal" ] in
  hasLink || hasDataAttrs || (hasJs && modernGrid).

Definition containsMaterializeCSS (d : Cheerio) (baseUrl : string) : Http.Prog bool :=
  let hasTag := any d [link_href "materialize"; script_src "materialize"] in
  let inline := inline_script d (test (cs (alts ["M.AutoInit"; "M.toast"]))) in
  inScripts <- containsInScripts d baseUrl (test (cs (alts ["materialize"; "M.AutoInit"]))) ;;
  Http.Ret (hasTag || (inline && inScripts)).

Definition containsSemanticUI (d : Cheerio) (baseUrl : string) : Http.Prog bool :=
  let hasLink := any d [link_href "semantic"; link_href "semantic-ui"] in
  let hasScript := any d [script_src "semantic"] in
  let inline := inline_script d (test (cs (alts ["$.fn.dropdown"; "$.fn.modal"]))) in
  inScripts <- containsInScripts d baseUrl (test (ci (lit "semantic"))) ;;
  Http.Ret (hasLink || hasScript || (inline && inScripts)).

Definition tailwind_rx : RegExp :=
  cs (seq
    [ WordB;
      alt
        [ seq [ lit "bg-";
                alts ["red"; "blue"; "green"; "yellow"; "indigo"; "purple"; "pink";
                      "gray"; "white"; "black"; "transparent"; "current"];
                lit "-";
                alts ["50"; "100"; "200"; "300"; "400"; "500"; "600"; "700"; "800";
                      "900"] ];
          seq [ lit "text-";
                alts ["xs"; "sm"; "base"; "lg"; "xl"; "2xl"; "3xl"; "4xl"; "5xl"; "6xl";
                      "left"; "center"; "right"; "justify"] ];
          seq [ lit "rounded"; opt (seq [lit "-"; plus word]) ];
          seq [ lit "shadow"; opt (seq [lit "-"; plus word]) ];
          seq [ lit "p-"; plus digit ];
          seq [ lit "m-"; plus digit ];
          seq [ lit "w-"; digit; lit "/"; digit ];
          seq [ lit "h-"; plus digit ];
          lit "inline-flex";
          lit "flex";
          seq [ lit "flex-"; alts ["row"; "col"] ];
          seq [ lit "items-"; alts ["start"; "end"; "center"; "baseline"; "stretch"] ];
          seq [ lit "justify-";
                alts ["start"; "end"; "center"; "between"; "around"; "evenly"] ];
          seq [ lit "gap-"; plus digit ];
          seq [ lit "space-"; alts ["x"; "y"]; lit "-"; plus digit ] ];
      WordB ]).

Definition containsTailwindClasses (d : Cheerio) : bool :=
  let matchesClasses :=
    existsb (fun e => test tailwind_rx (Js.or_empty (attr "class" e)))
            (query d [anyel [has "class"]]) in
  let tailwindCss := any d [link_href "tailwind.css"; link_href "tailwind.min.css"] in
  if matchesClasses && tailwindCss then true
  else matchesClasses && (5 <? count d [anyel [sub "class" "flex "]]).

(** *** Next, React and the other single-signal detectors *)

Definition containsNextJs (d : Cheerio) (baseUrl : string) : Http.Prog bool :=
  let hasTags := any d [script_src "/_next/static/"] || any d [el_id "script" "__NEXT_DATA__"] in
  inScripts <- containsInScripts d baseUrl (test (cs (alts ["/_next/static/"; "__NEXT_DATA__"]))) ;;
  let announcer :=
    any d [anyel [eq "aria-live" "assertive"; pre "id" "__next"]] ||
    any d [anyel [has "data-nextjs-router"]] in
  Http.Ret (hasTags || inScripts || announcer).

Definition containsReact (d : Cheerio) (baseUrl : string) : Http.Prog bool :=
  let attrs := any d [anyel [has "data-reactroot"]; anyel [has "data-reactid"]] in
  let hasTags := any d [script_src "react"; script_src "react-dom"] in
  let inline :=
    inline_script d (test (cs (alts ["React.createElement"; "react.production.min.js"]))) in
  inScripts <- containsInScripts d baseUrl
                 (test (cs (alts ["React.createElement"; "@license React"; "reactjs.org"]))) ;;
  let blankRoot :=
    any d [el_id "div" "root"] &&
    String.eqb (Js.trim (Js.or_empty (first_html d [el_id "div" "root"]))) "" in
  Http.Ret (existsb (fun b => b) [attrs; hasTags; inline; inScripts; blankRoot]).

Definition containsVue (d : Cheerio) (baseUrl : string) : Http.Prog bool :=
  let hasTags := any d [script_src "vue"; script_src "vue-router"] in
  let inline := inline_script d (test (cs (alts ["new Vue("; "Vue.component"]))) in
  let hasDataV := any d [anyel [has "data-v-"]] in
  inScripts <- containsInScripts d baseUrl
                 (test (cs (alts ["Vue.component"; "Vue.config"; "vuejs.org"]))) ;;
  Http.Ret (hasTags || inline || hasDataV || inScripts).

Definition containsNuxtJs (d : Cheerio) (baseUrl : string) : Http.Prog bool :=
  let hasTags := any d [script_src "/_nuxt/"] || any d [el_id "script" "nuxt-config"] in
  inScripts <- containsInScripts d baseUrl (test (cs (lit "/_nuxt/"))) ;;
  Http.Ret (hasTags || inScripts).

Definition containsAngular (d : Cheerio) (baseUrl : string) : Http.Prog bool :=
  let hasTags :=
    any d [script_src "main.js"; script_src "polyfills.js"] || any d [anyel [has "ng-app"]] in
  inScripts <- containsInScripts d baseUrl
                 (test (cs (alts ["platformBrowserDynamic"; "@angular"]))) ;;
  Http.Ret (hasTags || inScripts).

Definition containsPolymer (d : Cheerio) (baseUrl : string) : Http.Prog bool :=
  let hasTag := any d [script_src "polymer"] || any d [anyel [has "is"]] in
  let inline :=
    inline_script d (test (cs (seq [lit "Polymer"; Star Dot; lit "customElements"]))) in
  inScripts <- containsInScripts d baseUrl
                 (test (cs (alts ["Polymer"; "polymer-project.org"; "webcomponentsjs"]))) ;;
  Http.Ret (hasTag || inline || inScripts).

Definition containsGatsby (d : Cheerio) (baseUrl : string) : Http.Prog bool :=
  let hasTags :=
    any d [script_src "/gatsby"; script_src "webpack-runtime"] ||
    any d [el "link" [eq "rel" "gatsby"]] in
  let inline := inline_script d (test (ci (lit "gatsby"))) in
  inScripts <- containsInScripts d baseUrl (test (ci (lit "gatsby"))) ;;
  Http.Ret (hasTags || inline || inScripts).

Definition containsSvelte (d : Cheerio) (baseUrl : string) : Http.Prog bool :=
  let hasTags := any d [script_src "svelte"] || any d [el "svelte-head" []] in
  let inline := inline_script d (test (cs (lit "SvelteComponent"))) in
  inScripts <- containsInScripts d baseUrl (test (cs (lit "SvelteComponent"))) ;;
  Http.Ret (hasTags || inline || inScripts).

Definition containsEmber (d : Cheerio) (baseUrl : string) : Http.Prog bool :=
  let hasTags := any d [script_src "ember"] || any d [anyel [pre "id" "ember"]] in
  let inline := inline_script d (test (cs (lit "Ember.Application.create"))) in
  inScripts <- containsInScripts d baseUrl (test (cs (lit "Ember.Application.create"))) ;;
  Http.Ret (hasTags || inline || inScripts).

Definition containsMaterialUI (d : Cheerio) (baseUrl : string) : Http.Prog bool :=
  let hasTag :=
    any d [script_src "material-ui"; script_src "mui"] || any d [anyel [sub "class" "Mui"]] in
  inScripts <- containsInScripts d baseUrl (test (cs (alts ["@mui"; "MuiSvgIcon"; "muiName"]))) ;;
  Http.Ret (hasTag || inScripts).

Definition containsAstro (d : Cheerio) (baseUrl : string) : Http.Prog bool :=
  let hasIslands := any d [el "astro-island" []; anyel [has "data-astro-cid"]] in
  inScripts <- containsInScripts d baseUrl
                 (test (ci (alts ["astro/client"; "astro-island"; "astro.client"]))) ;;
  Http.Ret (hasIslands || inScripts).

Definition containsRemix (d : Cheerio) (baseUrl : string) : Http.Prog bool :=
  let hasTag :=
    any d [ el "script" [has "data-remix-run"];
            el "script" [eq "type" "module"; sub "src" "/build/"] ] in
  inScripts <- containsInScripts d baseUrl (test (ci (alts ["__remixManifest"; "remix:"]))) ;;
  Http.Ret (hasTag || inScripts).

Definition containsAlpine (d : Cheerio) : bool :=
  let hasAttrs :=
    any d [ anyel [has "x-data"]; anyel [has "x-init"]; anyel [has "x-show"];
            anyel [has "x-on:"]; anyel [has "x-bind:"] ] in
  let hasScript := any d [script_src "alpinejs"] in
  hasAttrs || hasScript.

Definition containsHTMX (d : Cheerio) : bool :=
  let hasAttrs :=
    any d [ anyel [has "hx-get"]; anyel [has "hx-post"]; anyel [has "hx-target"];
            anyel [has "hx-swap"] ] in
  let hasScript := any d [script_src "htmx.org"] in
  hasAttrs || hasScript.
(** *** CDN and hosting inference *)

(** The normalising loop of [inferCDN] and [inferHosting]:
    [h[k.toLowerCase()] = String(v || '')]. *)
Definition lower_keys (headers : Js.Obj string) : Js.Obj string :=
  fold_left (fun h kv => Js.set (Js.toLowerCase (fst kv)) (snd kv) h) headers [].

(** [o?.toLowerCase().includes(needle)]. *)
Definition opt_includes (needle : string) (o : option string) : bool :=
  match o with
  | Some s => Js.includes needle (Js.toLowerCase s)
  | None => false
  end.

Definition add_if (cond : bool) (label : string) (s : Js.StrSet) : Js.StrSet :=
  if cond then Js.add label s else s.

Definition inferCDN (headers : Js.Obj string) : list string :=
  let h := lower_keys headers in
  let hd k := Js.get k h in
  let srv := Js.or_empty (hd "server") in
  let out := [] in
  let out := add_if (Js.truthy_opt (hd "cf-ray") || Js.truthy_opt (hd "cf-cache-status") ||
                     test (ci (lit "cloudflare")) srv) "Cloudflare" out in
  let out := add_if (Js.truthy_opt (hd "x-amz-cf-pop") ||
                     opt_includes "cloudfront" (hd "via")) "Amazon CloudFront" out in
  let out := add_if (opt_includes "fastly" (hd "x-served-by") ||
                     test (ci (lit "fastly")) srv) "Fastly" out in
  let out := add_if (test (ci (lit "akamai")) srv ||
                     Js.truthy_opt (hd "x-akamai-transformed") ||
                     Js.truthy_opt (hd "x-akamai-staging")) "Akamai" out in
  let out := add_if (opt_includes "vercel" (hd "server") ||
                     Js.truthy_opt (hd "x-vercel-id")) "Vercel Edge" out in
  let out := add_if (opt_includes "cache" (hd "x-cache") &&
                     Js.truthy_opt (hd "x-azure-ref")) "Azure CDN/Front Door" out in
  out.

Definition inferHosting (headers : Js.Obj string) : option string :=
  let h := lower_keys headers in
  let hd k := Js.get k h in
  let srv := Js.or_empty (hd "server") in
  if Js.truthy_opt (hd "x-vercel-id") || test (ci (lit "vercel")) srv then Some "Vercel"
  else if Js.truthy_opt (hd "x-nf-request-id") || test (ci (lit "netlify")) srv
  then Some "Netlify"
  else if Js.truthy_opt (hd "x-github-request-id") || test (ci (lit "github.com")) srv
  then Some "GitHub Pages"
  else if Js.truthy_opt (hd "fly-request-id") || test (ci (lit "fly.io")) srv
  then Some "Fly.io"
  else if Js.truthy_opt (hd "x-render-origin-server") || test (ci (lit "render")) srv
  then Some "Render"
  else if opt_includes "azure" (hd "server") then Some "Azure"
  else if opt_includes "google" (hd "server") then Some "Google Cloud"
  else None.

(** *** Edge against origin *)

(** [tech.cdn ?? []]. *)
Definition cdn_list (tech : TechStack) : list string :=
  match tget Key.cdn tech with
  | Some (VList l) => l
  | _ => []
  end.

Definition ensureCdn (name : string) (tech : TechStack) : TechStack :=
  let list := cdn_list tech in
  let list :=
    if existsb (fun c => String.eqb (Js.toLowerCase c) (Js.toLowerCase name)) list
    then list else list ++ [name] in
  tset Key.cdn (VList list) tech.

Definition clear_server (tech : TechStack) : TechStack := tset Key.server VUndefined tech.

Definition dedupeEdgeVsOrigin (tech : TechStack) : TechStack :=
  match tget Key.server tech with
  | Some (VStr srv) =>
      if negb (Js.truthy srv) then tech
      else
        let s := Js.toLowerCase srv in
        if Js.includes "cloudflare" s then clear_server (ensureCdn "Cloudflare" tech)
        else if Js.includes "fastly" s then clear_server (ensureCdn "Fastly" tech)
        else if Js.includes "akamai" s then clear_server (ensureCdn "Akamai" tech)
        else if Js.includes "cloudfront" s
        then clear_server (ensureCdn "Amazon CloudFront" tech)
        else if Js.includes "google frontend" s || Js.includes "gws" s || Js.includes "esf" s
        then clear_server (ensureCdn "Google Frontend" tech)
        else if Js.includes "vercel" s
        then clear_server
               (if negb (existsb (test (ci (lit "vercel"))) (cdn_list tech))
                then ensureCdn "Vercel Edge" tech else tech)
        else tech
  | _ => tech
  end.

(** *** The primary analyzer, section by section *)

(** [// --- CMS ---] *)
Definition detect_cms (d : Cheerio) (baseUrl : string) (tech : TechStack)
  : Http.Prog TechStack :=
  if isShopify d then Http.Ret (tset Key.cms (VStr "Shopify") tech)
  else if isSquarespace d then Http.Ret (tset Key.cms (VStr "Squarespace") tech)
  else if isWix d then Http.Ret (tset Key.cms (VStr "Wix") tech)
  else
    wp <- (if isWordPress d then Http.Ret true else isWordPressViaAPI baseUrl) ;;
    if wp
    then Http.Ret (tset Key.isWordPress (VBool true) (tset Key.cms (VStr "WordPress") tech))
    else if isDrupal d then Http.Ret (tset Key.cms (VStr "Drupal") tech)
    else if isJoomla d then Http.Ret (tset Key.cms (VStr "Joomla") tech)
    else
      let generatorContent := first_attr d [el "meta" [eq "name" "generator"]] "content" in
      match generatorContent with
      | Some g => Http.Ret (if Js.truthy g then tset Key.cms (VStr g) tech else tech)
      | None => Http.Ret tech
      end.

Definition jsDetections (d : Cheerio) (baseUrl : string)
  : list (string * Http.Prog bool) :=
  [ ("React", containsReact d baseUrl);
    ("Vue.js", containsVue d baseUrl);
    ("Angular", containsAngular d baseUrl);
    ("Next.js", containsNextJs d baseUrl);
    ("Gatsby", containsGatsby d baseUrl);
    ("Svelte", containsSvelte d baseUrl);
    ("Ember.js", containsEmber d baseUrl);
    ("Nuxt.js", containsNuxtJs d baseUrl);
    ("Polymer", containsPolymer d baseUrl);
    ("jQuery", containsjQuery d baseUrl);
    ("Backbone.js", containsBackbone d baseUrl);
    ("Dojo", containsDojo d baseUrl);
    ("Meteor", containsMeteor d baseUrl);
    ("Astro", containsAstro d baseUrl);
    ("Remix", containsRemix d baseUrl);
    ("Alpine.js", Http.Ret (containsAlpine d));
    ("HTMX", Http.Ret (containsHTMX d)) ].

(** [jsResults.forEach((hit, i) => hit && jsSet.add(jsDetections[i][0]))]. *)
Definition collect_hits (names : list string) (hits : list bool) : Js.StrSet :=
  fold_left (fun (s : Js.StrSet) (nh : string * bool) =>
               if snd nh then Js.add (fst nh) s else s)
            (combine names hits) [].

(** [// --- JS frameworks ---]; the set is kept for the header pass. *)
Definition detect_js (d : Cheerio) (baseUrl : string) (tech : TechStack)
  : Http.Prog (TechStack * Js.StrSet) :=
  let detections := jsDetections d baseUrl in
  jsResults <- Http.mapM (fun np => snd np) detections ;;
  let jsSet := collect_hits (map fst detections) jsResults in
  Http.Ret (set_if_nonempty Key.javascriptFrameworks jsSet tech, jsSet).

(** [!tech.isWordPress]. *)
Definition wordpress_flag (tech : TechStack) : bool :=
  match tget Key.isWordPress tech with
  | Some (VBool b) => b
  | _ => false
  end.

(** [// --- CSS frameworks ---] *)
Definition detect_css (d : Cheerio) (baseUrl : string) (tech : TechStack)
  : Http.Prog TechStack :=
  if negb (wordpress_flag tech) then
    let css := [] in
    let css := push_if (containsBootstrap d) "Bootstrap" css in
    let css := push_if (containsTailwindClasses d) "Tailwind CSS" css in
    let css := push_if (containsBulma d) "Bulma" css in
    let css := push_if (containsFoundation d) "Foundation" css in
    mui <- containsMaterialUI d baseUrl ;;
    let css := push_if mui "Material UI" css in
    sem <- containsSemanticUI d baseUrl ;;
    let css := push_if sem "Semantic UI" css in
    mat <- containsMaterializeCSS d baseUrl ;;
    let css := push_if mat "Materialize CSS" css in
    Http.Ret (set_if_nonempty Key.cssFrameworks css tech)
  else Http.Ret tech.

(** [// --- Analytics / marketing / monitoring / payments ---] *)
Definition detect_analytics (d : Cheerio) (baseUrl : string) (tech : TechStack)
  : Http.Prog TechStack :=
  let analytics := [] in
  ga <- containsGoogleAnalytics d baseUrl ;;
  let analytics := push_if ga "Google Analytics / gtag.js" analytics in
  gtm <- containsGoogleTagManager d baseUrl ;;
  let analytics := push_if gtm "Google Tag Manager" analytics in
  matomo <- containsMatomo d baseUrl ;;
  let analytics := push_if matomo "Matomo" analytics in
  plausible <- containsPlausible d baseUrl ;;
  let analytics := push_if plausible "Plausible" analytics in
  mixpanel <- containsMixpanel d baseUrl ;;
  let analytics := push_if mixpanel "Mixpanel" analytics in
  amplitude <- containsAmplitude d baseUrl ;;
  let analytics := push_if amplitude "Amplitude" analytics in
  segment <- containsSegment d baseUrl ;;
  let analytics := push_if segment "Segment" analytics in
  Http.Ret (set_if_nonempty Key.analytics analytics tech).

Definition detect_marketing (d : Cheerio) (tech : TechStack) : TechStack :=
  let marketing := [] in
  let marketing := push_if (containsHubspot d) "HubSpot" marketing in
  let marketing := push_if (containsMailchimp d) "Mailchimp" marketing in
  let marketing := push_if (containsIntercom d) "Intercom" marketing in
  let marketing := push_if (containsDrift d) "Drift" marketing in
  let marketing := push_if (containsHotjar d) "Hotjar" marketing in
  set_if_nonempty Key.marketing marketing tech.

Definition detect_monitoring (d : Cheerio) (tech : TechStack) : TechStack :=
  let monitoring := [] in
  let monitoring := push_if (containsSentry d) "Sentry" monitoring in
  let monitoring := push_if (containsDatadog d) "Datadog RUM" monitoring in
  let monitoring := push_if (containsNewRelic d) "New Relic" monitoring in
  set_if_nonempty Key.monitoring monitoring tech.

Definition detect_payments (d : Cheerio) (tech : TechStack) : TechStack :=
  let payments := [] in
  let payments := push_if (containsStripe d) "Stripe" payments in
  let payments := push_if (containsBraintree d) "Braintree" payments in
  let payments := push_if (containsPaypal d) "PayPal" payments in
  set_if_nonempty Key.payments payments tech.

(** [// --- Build tools ---] *)
Definition detect_build (html : string) (d : Cheerio) (baseUrl : string) (tech : TechStack)
  : Http.Prog TechStack :=
  let build := [] in
  let lowerHtml := Js.toLowerCase html in
  let build := add_if (Js.includes "webpack" lowerHtml) "Webpack" build in
  let build := add_if (Js.includes "gulp" lowerHtml) "Gulp" build in
  let build := add_if (Js.includes "grunt" lowerHtml) "Grunt" build in
  vite <- containsInScripts d baseUrl (test (cs (alts ["vite"; "import.meta"]))) ;;
  let build := add_if vite "Vite" build in
  parcel <- containsInScripts d baseUrl (test (cs (lit "parcelRequire"))) ;;
  let build := add_if parcel "Parcel" build in
  rollup <- containsInScripts d baseUrl (test (ci (alts ["__ROLLUP__"; "rollup"]))) ;;
  let build := add_if rollup "Rollup" build in
  Http.Ret (set_if_nonempty Key.buildTools build tech).

(** [// --- Compression ---] *)
Definition detect_compression (headers : Js.Obj string) (tech : TechStack) : TechStack :=
  let enc := Js.toLowerCase (Js.or_empty (Js.get "content-encoding" headers)) in
  let compression := [] in
  let compression := push_if (Js.includes "br" enc) "Brotli" compression in
  let compression := push_if (Js.includes "gzip" enc) "Gzip" compression in
  let compression := push_if (Js.includes "deflate" enc) "Deflate" compression in
  set_if_nonempty Key.compression compression tech.

(** [// --- Server / web platform ---]: the [Server] header. *)
Definition detect_server (headers : Js.Obj string) (tech : TechStack) : TechStack :=
  match Js.get "server" headers with
  | Some raw =>
      if Js.truthy raw
      then match mapServerHeader (Some raw) with
           | Some label => tset Key.server (VStr (if Js.truthy label then label else raw)) tech
           | None => tset Key.server (VStr raw) tech
           end
      else tech
  | None => tech
  end.

(** [// --- Server / web platform ---]: the [X-Powered-By] header, and the
    second assignment of the framework list. *)
Definition detect_platform (headers : Js.Obj string) (jsSet : Js.StrSet) (tech : TechStack)
  : TechStack :=
  let '(tech, jsSet) :=
    match Js.get "x-powered-by" headers with
    | Some raw =>
        if Js.truthy raw then
          let xp := Js.toLowerCase raw in
          let jsSet := add_if (Js.includes "next.js" xp) "Next.js" jsSet in
          let jsSet := add_if (Js.includes "nuxt.js" xp) "Nuxt.js" jsSet in
          let tech := if negb (test (cs (alts ["next.js"; "nuxt.js"])) xp)
                      then tset Key.webServer (VStr raw) tech else tech in
          (tech, jsSet)
        else (tech, jsSet)
    | None => (tech, jsSet)
    end in
  set_if_nonempty Key.javascriptFrameworks jsSet tech.

(** [// --- CDN / Hosting inference from headers ---] *)
Definition detect_edge (headers : Js.Obj string) (tech : TechStack) : TechStack :=
  let tech := set_if_nonempty Key.cdn (inferCDN headers) tech in
  match inferHosting headers with
  | Some hosting => if Js.truthy hosting then tset Key.hosting (VStr hosting) tech else tech
  | None => tech
  end.

Definition detectTechStack (html : string) (headers : Js.Obj string) (baseUrl : string)
  : Http.Prog TechStack :=
  let d := cheerio_load html in
  let tech : TechStack := [] in
  tech <- detect_cms d baseUrl tech ;;
  tj <- detect_js d baseUrl tech ;;
  let '(tech, jsSet) := tj in
  tech <- detect_css d baseUrl tech ;;
  tech <- detect_analytics d baseUrl tech ;;
  let tech := detect_marketing d tech in
  let tech := detect_monitoring d tech in
  let tech := detect_payments d tech in
  tech <- detect_build html d baseUrl tech ;;
  let tech := detect_compression headers tech in
  let tech := detect_server headers tech in
  let tech := detect_platform headers jsSet tech in
  let tech := detect_edge headers tech in
  Http.Ret (dedupeEdgeVsOrigin tech).

(** *** The route *)

(** Truthiness of a parsed value. *)
Definition json_truthy (j : Http.Json) : bool :=
  match j with
  | Http.JNull => false
  | Http.JBool b => b
  | Http.JNum n => negb (Z.eqb n 0)
  | Http.JStr s => Js.truthy s
  | Http.JArr _ | Http.JObj _ => true
  end.

(** [const { url } = body]: destructuring [null] throws; of the values JSON
    can produce only an object can carry the property. *)
Definition destructure_url (body : Http.Json) : option (option Http.Json) :=
  match body with
  | Http.JNull => None
  | j => Some (prop "url" j)
  end.

(** [Array.isArray(v) ? v.join(', ') : String(v ?? '')]. *)
Definition header_text (v : Http.header_value) : string :=
  match v with
  | Http.HOne s => s
  | Http.HMany vs => Js.join ", " vs
  end.

(** [Object.fromEntries(Object.entries(response.headers).map(...))]. *)
Definition lowercase_headers (hs : Js.Obj Http.header_value) : Js.Obj string :=
  fold_left (fun o kv => Js.set (Js.toLowerCase (fst kv)) (header_text (snd kv)) o) hs [].

(** [String(response.data || '')]. *)
Definition document_text (data : Http.Json) : string :=
  if json_truthy data
  then match data with Http.JStr s => s | j => String_of j end
  else "".

Definition error_response (msg : string) (st : nat) : NextResponse :=
  mkNext (ErrorBody msg) st.

Definition POST (req : NextRequest) : Http.Prog NextResponse :=
  Http.try_catch
    (body <- Http.lift (body_json req) ;;
     url <- Http.lift (destructure_url body) ;;
     match url with
     | Some (Http.JStr u) =>
         if negb (Js.truthy u) then Http.Ret (error_response "URL is required" 400)
         else
           fetched <- Http.try_catch
                        (r <- Http.get Http.DocumentGet u ;; Http.Ret (Some r))
                        (Http.Ret None) ;;
           match fetched with
           | None => Http.Ret (error_response "Error fetching the URL" 502)
           | Some response =>
               if Http.status response =? 403
               then Http.Ret (error_response "Access to the URL is forbidden (403)." 403)
               else if 400 <=? Http.status response
               then Http.Ret (error_response
                                (String.append "Target responded with "
                                               (Js.string_of_nat (Http.status response)))
                                400)
               else
                 let headers := lowercase_headers (Http.headers response) in
                 tech <- detectTechStack (document_text (Http.data response)) headers u ;;
                 Http.Ret (mkNext (TechBody (to_json tech)) 200)
           end
     | _ => Http.Ret (error_response "URL is required" 400)
     end)
    (Http.Ret (error_response "Invalid request body" 400)).

End Analyzer.

(* ================================================================== *)
(** ** Sample inputs *)
(* ================================================================== *)

Module Sample.

Import Dom Http.

(** Markup is written with apostrophes and read with double quotes, the
    way cheerio serialises attributes. *)
Fixpoint markup (s : string) : string :=
  match s with
  | EmptyString => EmptyString
  | String c s' => String (if Ascii.eqb c Rx.squote then Rx.dquote else c) (markup s')
  end.

(** The text up to the first slash. *)
Fixpoint until_slash (s : string) : string :=
  match s with
  | EmptyString => EmptyString
  | String c s' => if Ascii.eqb c "/"%char then EmptyString else String c (until_slash s')
  end.

Definition after (p s : string) : string :=
  String.substring (String.length p) (String.length s - String.length p) s.

(** The URL parser on the references the samples use: absolute http(s)
    URLs that carry a path, and root-relative references against them. *)
Definition sample_URL_new (s : string) : option URL :=
  if Js.startsWith "https://" s then Some (mkURL s (until_slash (after "https://" s)))
  else if Js.startsWith "http://" s then Some (mkURL s (until_slash (after "http://" s)))
  else None.

Definition sample_URL_resolve (raw base : string) : option URL :=
  match sample_URL_new raw with
  | Some u => Some u
  | None =>
      match sample_URL_new base with
      | Some b =>
          if Js.startsWith "/" raw
          then Some (mkURL (String.append "https://" (String.append (host b) raw)) (host b))
          else None
      | None => None
      end
  end.

Definition leaf (t : string) (a : Js.Obj string) (content : string) : node :=
  Node (mkEl t a content) [].

(** What the parser builds from an empty body. *)
Definition empty_document : Cheerio :=
  mkDoc "<html><head></head><body></body></html>"
        [ Node (mkEl "html" [] "<head></head><body></body>")
               [ leaf "head" [] ""; leaf "body" [] "" ] ].

(** A WordPress page that loads jQuery, as WordPress themes do. *)
Definition wordpress_jquery_html : string :=
  markup ("<html><head><script src='/wp-includes/js/jquery/jquery.min.js'></script>" ++
          "<script>jQuery(function(){});</script></head>" ++
          "<body><img src='/wp-content/uploads/logo.png'></body></html>")%string.

Definition wordpress_jquery : Cheerio :=
  mkDoc wordpress_jquery_html
        [ Node (mkEl "html" [] "")
               [ Node (mkEl "head" [] "")
                      [ leaf "script" [("src", "/wp-includes/js/jquery/jquery.min.js")] "";
                        leaf "script" [] "jQuery(function(){});" ];
                 Node (mkEl "body" [] "")
                      [ leaf "img" [("src", "/wp-content/uploads/logo.png")] "" ] ] ].

(** A WordPress page that embeds a Shopify storefront and ships Bootstrap. *)
Definition wordpress_shopify_html : string :=
  markup ("<html><head>" ++
          "<link rel='stylesheet' href='/wp-content/themes/shop/bootstrap.min.css'>" ++
          "<script src='/wp-includes/js/wp-embed.min.js'></script>" ++
          "<script src='https://cdn.shopify.com/s/files/theme.js'></script></head>" ++
          "<body data-shopify='1'></body></html>")%string.

Definition wordpress_shopify : Cheerio :=
  mkDoc wordpress_shopify_html
        [ Node (mkEl "html" [] "")
               [ Node (mkEl "head" [] "")
                      [ leaf "link" [("rel", "stylesheet");
                                     ("href", "/wp-content/themes/shop/bootstrap.min.css")] "";
                        leaf "script" [("src", "/wp-includes/js/wp-embed.min.js")] "";
                        leaf "script" [("src", "https://cdn.shopify.com/s/files/theme.js")] "" ];
                 leaf "body" [("data-shopify", "1")] "" ] ].

(** A page whose only trace of a CMS is its generator tag. *)
Definition generator_only_html : string :=
  markup "<html><head><meta name='generator' content='WordPress'></head><body></body></html>".

Definition generator_only : Cheerio :=
  mkDoc generator_only_html
        [ Node (mkEl "html" [] "")
               [ Node (mkEl "head" [] "")
                      [ leaf "meta" [("name", "generator"); ("content", "WordPress")] "" ];
                 leaf "body" [] "" ] ].

(** A page that references the same script twice, after a third-party one. *)
Definition repeated_script_html : string :=
  markup ("<html><head><script src='https://cdn.example.net/lib.js'></script>" ++
          "<script src='/static/app.js'></script></head>" ++
          "<body><script src='/static/app.js'></script></body></html>")%string.

Definition repeated_script : Cheerio :=
  mkDoc repeated_script_html
        [ Node (mkEl "html" [] "")
               [ Node (mkEl "head" [] "")
                      [ leaf "script" [("src", "https://cdn.example.net/lib.js")] "";
                        leaf "script" [("src", "/static/app.js")] "" ];
                 Node (mkEl "body" [] "")
                      [ leaf "script" [("src", "/static/app.js")] "" ] ] ].

(** A WordPress page, not a shop, whose theme ships Bootstrap. *)
Definition wordpress_bootstrap_html : string :=
  markup ("<html><head>" ++
          "<link rel='stylesheet' href='/wp-content/themes/basic/bootstrap.min.css'>" ++
          "<script src='/wp-includes/js/wp-embed.min.js'></script></head>" ++
          "<body></body></html>")%string.

Definition wordpress_bootstrap : Cheerio :=
  mkDoc wordpress_bootstrap_html
        [ Node (mkEl "html" [] "")
               [ Node (mkEl "head" [] "")
                      [ leaf "link" [("rel", "stylesheet");
                                     ("href", "/wp-content/themes/basic/bootstrap.min.css")] "";
                        leaf "script" [("src", "/wp-includes/js/wp-embed.min.js")] "" ];
                 leaf "body" [] "" ] ].

(** A page with fourteen script references and one blank one: classic and
    module scripts, of the site and of a CDN, and a preload link. *)
Definition many_scripts_html : string :=
  markup ("<html><head><script src='https://cdn.example.net/a.js'></script>" ++
          "<script src='/js/b.js'></script>" ++
          "<script type='module' src='https://cdn.example.net/c.mjs'></script>" ++
          "<script type='module' src='/js/d.mjs'></script>" ++
          "<script src='/js/e.js'></script>" ++
          "<script type='MODULE' src='/js/f.mjs'></script>" ++
          "<link rel='preload' as='script' href='/js/p.js'></head>" ++
          "<body><script src='/js/g1.js'></script><script src='/js/g2.js'></script>" ++
          "<script src='/js/g3.js'></script><script src='/js/g4.js'></script>" ++
          "<script src='/js/g5.js'></script><script src='/js/g6.js'></script>" ++
          "<script src='https://cdn.example.net/z.js'></script>" ++
          "<script src='  '></script></body></html>")%string.

Definition many_scripts : Cheerio :=
  mkDoc many_scripts_html
        [ Node (mkEl "html" [] "")
               [ Node (mkEl "head" [] "")
                      [ leaf "script" [("src", "https://cdn.example.net/a.js")] "";
                        leaf "script" [("src", "/js/b.js")] "";
                        leaf "script" [("type", "module");
                                       ("src", "https://cdn.example.net/c.mjs")] "";
                        leaf "script" [("type", "module"); ("src", "/js/d.mjs")] "";
                        leaf "script" [("src", "/js/e.js")] "";
                        leaf "script" [("type", "MODULE"); ("src", "/js/f.mjs")] "";
                        leaf "link" [("rel", "preload"); ("as", "script");
                                     ("href", "/js/p.js")] "" ];
                 Node (mkEl "body" [] "")
                      [ leaf "script" [("src", "/js/g1.js")] "";
                        leaf "script" [("src", "/js/g2.js")] "";
                        leaf "script" [("src", "/js/g3.js")] "";
                        leaf "script" [("src", "/js/g4.js")] "";
                        leaf "script" [("src", "/js/g5.js")] "";
                        leaf "script" [("src", "/js/g6.js")] "";
                        leaf "script" [("src", "https://cdn.example.net/z.js")] "";
                        leaf "script" [("src", "  ")] "" ] ] ].

(** A page whose only script reference is the address of the site. *)
Definition self_reference_html : string :=
  markup "<html><head><script src='/'></script></head><body></body></html>".

Definition self_reference : Cheerio :=
  mkDoc self_reference_html
        [ Node (mkEl "html" [] "")
               [ Node (mkEl "head" [] "") [ leaf "script" [("src", "/")] "" ];
                 leaf "body" [] "" ] ].

(** The parser on the sample pages; any other text is taken as empty. *)
Definition sample_load (html : string) : Cheerio :=
  if String.eqb html wordpress_jquery_html then wordpress_jquery
  else if String.eqb html wordpress_shopify_html then wordpress_shopify
  else if String.eqb html generator_only_html then generator_only
  else if String.eqb html repeated_script_html then repeated_script
  else if String.eqb html wordpress_bootstrap_html then wordpress_bootstrap
  else if String.eqb html many_scripts_html then many_scripts
  else if String.eqb html self_reference_html then self_reference
  else empty_document.

#[local] Instance runtime : Runtime := {
  cheerio_load := sample_load;
  URL_new := sample_URL_new;
  URL_resolve := sample_URL_resolve;
  JSON_stringify := fun _ => "{}";
  String_of := fun _ => "[object Object]"
}.

Definition site : string := "https://example.com/".

(** A network on which every request fails. *)
Definition offline : Net := fun _ _ => Failed NetworkError.

(** A network on which only the REST discovery document of the site answers. *)
Definition rest_api : response :=
  mkResp 200 [("content-type", HOne "application/json; charset=UTF-8")]
         (JObj [ ("namespaces", JArr [JStr "wp/v2"]);
                 ("routes", JObj [("/", JObj [])]) ]).

Definition only_rest_api : Net :=
  fun c u =>
    match c with
    | ProbeGet => if String.eqb u "https://example.com/wp-json"
                  then Responded rest_api else Failed NetworkError
    | _ => Failed NetworkError
    end.

(** A network that answers the document request with a given status. *)
Definition answers (st : nat) : Net :=
  fun c _ =>
    match c with
    | DocumentGet => Responded (mkResp st [] (JStr ""))
    | _ => Failed NetworkError
    end.

(** A network on which every request times out. *)
Definition stalled : Net := fun _ _ => Failed TimedOut.

(** The records the analyzer returns on the sample pages. *)
Definition wordpress_jquery_record : TechStack :=
  [ ("cms", VStr "WordPress"); ("isWordPress", VBool true);
    ("javascriptFrameworks", VList ["jQuery"]) ].

Definition wordpress_shopify_record : TechStack :=
  [ ("cms", VStr "Shopify"); ("cssFrameworks", VList ["Bootstrap"]) ].

Definition cloudflare_record : TechStack :=
  [ ("server", VUndefined); ("cdn", VList ["Cloudflare"]) ].

(** A well-formed request for the sample site. *)
Definition forbidden_request : NextRequest :=
  mkReq (Some (JObj [("url", JStr site)])).

(** The work-list of the page with the repeated script. *)
Definition repeated_worklist : list string :=
  [ "https://example.com/static/app.js"; "https://example.com/static/app.js";
    "https://cdn.example.net/lib.js" ].

(** A network on which every script times out and nothing else answers. *)
Definition scripts_stall : Net :=
  fun c _ =>
    match c with
    | ScriptGet => Failed TimedOut
    | _ => Failed NetworkError
    end.

(** The record of the WordPress page that ships Bootstrap. *)
Definition wordpress_bootstrap_record : TechStack :=
  [ ("cms", VStr "WordPress"); ("isWordPress", VBool true) ].

(** The work-list of the page with fourteen references: the two module
    scripts of the site, then the references that are module or of the
    site, in the order of the page; the two classic scripts of the CDN are
    left out. *)
Definition many_worklist : list string :=
  [ "https://example.com/js/d.mjs"; "https://example.com/js/f.mjs";
    "https://example.com/js/b.js"; "https://cdn.example.net/c.mjs";
    "https://example.com/js/e.js"; "https://example.com/js/p.js";
    "https://example.com/js/g1.js"; "https://example.com/js/g2.js";
    "https://example.com/js/g3.js"; "https://example.com/js/g4.js";
    "https://example.com/js/g5.js"; "https://example.com/js/g6.js" ].

(** A bundle with React in it. *)
Definition react_text : string := "React.createElement(App, null);".

(** Two networks that serve the page with the repeated script alike where
    the analysis looks, and differently elsewhere: both answer the
    discovery probe with the REST document and deliver the application
    script with the same text; the script of the CDN fails on the first and
    is answered with 404 on the second. *)
Definition delivers : Net :=
  fun c u =>
    match c with
    | ProbeGet => if String.eqb u "https://example.com/wp-json"
                  then Responded rest_api else Failed NetworkError
    | ScriptGet => if String.eqb u "https://example.com/static/app.js"
                   then Responded (mkResp 200 [] (JStr react_text))
                   else Failed NetworkError
    | DocumentGet => Failed NetworkError
    end.

Definition delivers_too : Net :=
  fun c u =>
    match c with
    | ProbeGet => if String.eqb u "https://example.com/wp-json"
                  then Responded rest_api else Failed TimedOut
    | ScriptGet => if String.eqb u "https://example.com/static/app.js"
                   then Responded (mkResp 203 [("content-type", HOne "text/javascript")]
                                          (JStr react_text))
                   else Responded (mkResp 404 [] (JStr "Not Found"))
    | DocumentGet => Responded (mkResp 200 [] (JStr ""))
    end.

Definition react_on_wordpress : TechStack :=
  [ ("cms", VStr "WordPress"); ("isWordPress", VBool true);
    ("javascriptFrameworks", VList ["React"]) ].

(** The matcher of the React scan, and one that nothing here satisfies. *)
Definition react_matcher : string -> bool :=
  Rx.test (Rx.cs (Rx.alts ["React.createElement"; "@license React"; "reactjs.org"])).

Definition svelte_matcher : string -> bool := Rx.test (Rx.cs (Rx.lit "SvelteComponent")).

End Sample.

(* ================================================================== *)
(** ** Statements in the words of the specification *)
(* ================================================================== *)

Section Specification.

Context {RT : Runtime}.

(** The text of a script on a given network: the body when the request
    succeeds with a 2xx status, nothing on any failure. *)
Definition script_body (net : Http.Net) (u : string) : option string :=
  match net Http.ScriptGet u with
  | Http.Responded r =>
      if Http.default_validate (Http.status r) then Some (body_text (Http.data r)) else None
  | Http.Failed _ => None
  end.

(** A script counts for a matcher when its text was fetched, is not empty
    and matches; a script that could not be fetched counts as keyword
    absent. *)
Definition script_matches (net : Http.Net) (matcher : string -> bool) (u : string) : bool :=
  match script_body net u with
  | Some t => Js.truthy t && matcher t
  | None => false
  end.

(** The CMS detectors in priority order, each with its verdict; [api] is
    the verdict of the discovery probe. *)
Definition cms_chain (d : Dom.Cheerio) (api : bool) : list (string * bool) :=
  [ ("Shopify", isShopify d);
    ("Squarespace", isSquarespace d);
    ("Wix", isWix d);
    ("WordPress", isWordPress d || api);
    ("Drupal", isDrupal d);
    ("Joomla", isJoomla d) ].

(** The content of the generator tag, when it is not empty. *)
Definition generator (d : Dom.Cheerio) : option string :=
  match Dom.first_attr d [Dom.el "meta" [Dom.eq "name" "generator"]] "content" with
  | Some g => if Js.truthy g then Some g else None
  | None => None
  end.

(** The number of sub-checks that hold. *)
Definition count_true (l : list bool) : nat := List.length (filter (fun b => b) l).

(** The sub-checks of a detector that awaits the script scan: the local
    ones and the scan. *)
Definition with_scan (d : Dom.Cheerio) (baseUrl : string) (local : list bool)
           (matcher : string -> bool) : Http.Prog (list bool) :=
  inScripts <- containsInScripts d baseUrl matcher ;;
  Http.Ret (local ++ [inScripts]).

(** The detectors whose policy is at least two corroborating signals: the
    name, the sub-checks and the verdict of each.  *)
Definition corroborated (d : Dom.Cheerio) (baseUrl : string)
  : list (string * Http.Prog (list bool) * Http.Prog bool) :=
  [ ("Matomo", with_scan d baseUrl [matomo_tag d; matomo_inline d] matomo_matcher,
     containsMatomo d baseUrl);
    ("Plausible", with_scan d baseUrl [plausible_tag d; plausible_inline d] plausible_matcher,
     containsPlausible d baseUrl);
    ("Mixpanel", with_scan d baseUrl [mixpanel_tag d; mixpanel_inline d] mixpanel_matcher,
     containsMixpanel d baseUrl);
    ("Amplitude", with_scan d baseUrl [amplitude_tag d; amplitude_inline d] amplitude_matcher,
     containsAmplitude d baseUrl);
    ("jQuery", with_scan d baseUrl [jquery_tag d; jquery_inline d] jquery_matcher,
     containsjQuery d baseUrl);
    ("Backbone.js", with_scan d baseUrl [backbone_tag d; backbone_inline d] backbone_matcher,
     containsBackbone d baseUrl);
    ("Dojo", with_scan d baseUrl [dojo_tag d; dojo_inline d] dojo_matcher,
     containsDojo d baseUrl);
    ("Meteor", with_scan d baseUrl [meteor_tag d; meteor_inline d; meteor_attr d] meteor_matcher,
     containsMeteor d baseUrl);
    ("WordPress markup",
     Http.Ret (map (fun rx => Rx.test rx (Dom.html d)) wordpress_signals),
     Http.Ret (isWordPress d));
    ("Shopify",
     Http.Ret (map (fun rx => Rx.test rx (Dom.html d)) shopify_signals),
     Http.Ret (isShopify d));
    ("Drupal",
     Http.Ret (map (fun rx => Rx.test rx (Js.toLowerCase (Dom.html d))) drupal_patterns),
     Http.Ret (isDrupal d));
    ("Joomla",
     Http.Ret (map (fun rx => Rx.test rx (Js.toLowerCase (Dom.html d))) joomla_patterns),
     Http.Ret (isJoomla d));
    ("Wix",
     Http.Ret (map (fun rx => Rx.test rx (Js.toLowerCase (Dom.html d))) wix_patterns),
     Http.Ret (isWix d)) ].

(** The alias an origin server would get: the header names Apache or NGINX
    and is not taken for a Google front end first. *)
Definition origin_alias (raw : string) : option string :=
  match serverHeaderAliases with
  | (google, _) :: (apache, a) :: (nginx, n) :: _ =>
      if Rx.test google raw then None
      else if Rx.test apache raw then Some a
      else if Rx.test nginx raw then Some n
      else None
  | _ => None
  end.

(** Header names are unique and in lower case, as the route hands them to
    the analyzer. *)
Definition lowercased (headers : Js.Obj string) : Prop :=
  NoDup (Js.keys headers) /\ Forall (fun k => Js.toLowerCase k = k) (Js.keys headers).

(** The work-list on a page, or nothing when the base URL does not parse. *)
Definition worklist (d : Dom.Cheerio) (baseUrl : string) : list string :=
  match pickTopScripts d baseUrl with
  | Some urls => urls
  | None => []
  end.

(** Two networks deliver the same script evidence for a page. *)
Definition same_scripts (net1 net2 : Http.Net) (d : Dom.Cheerio) (baseUrl : string) : Prop :=
  forall u, In u (worklist d baseUrl) -> script_body net1 u = script_body net2 u.

(** Two networks answer the discovery probe alike. *)
Definition same_probe (net1 net2 : Http.Net) (baseUrl : string) : Prop :=
  forall u, URL_resolve "/wp-json" baseUrl = Some u ->
            net1 Http.ProbeGet (href u) = net2 Http.ProbeGet (href u).

(** The request carries no usable URL: the property is missing or is not a
    string. *)
Definition lacks_url (body : Http.Json) : Prop :=
  forall u, prop "url" body <> Some (Http.JStr u).

(** What the CMS section stores, given the verdict of the discovery probe. *)
Definition cms_section (d : Dom.Cheerio) (api : bool) (tech : TechStack) : TechStack :=
  if isShopify d then tset Key.cms (VStr "Shopify") tech
  else if isSquarespace d then tset Key.cms (VStr "Squarespace") tech
  else if isWix d then tset Key.cms (VStr "Wix") tech
  else if isWordPress d || api
  then tset Key.isWordPress (VBool true) (tset Key.cms (VStr "WordPress") tech)
  else if isDrupal d then tset Key.cms (VStr "Drupal") tech
  else if isJoomla d then tset Key.cms (VStr "Joomla") tech
  else match generator d with
       | Some g => tset Key.cms (VStr g) tech
       | None => tech
       end.

(** The first half of [detectTechStack]: the sections that read the page
    and the scripts. *)
Definition markup_sections (html : string) (baseUrl : string)
  : Http.Prog (TechStack * Js.StrSet) :=
  let d := cheerio_load html in
  tech <- detect_cms d baseUrl [] ;;
  tj <- detect_js d baseUrl tech ;;
  let '(tech, jsSet) := tj in
  tech <- detect_css d baseUrl tech ;;
  tech <- detect_analytics d baseUrl tech ;;
  tech <- detect_build html d baseUrl
            (detect_payments d (detect_monitoring d (detect_marketing d tech))) ;;
  Http.Ret (tech, jsSet).

(** The second half: the sections that read the headers, and the final
    pass. *)
Definition header_sections (headers : Js.Obj string) (jsSet : Js.StrSet) (tech : TechStack)
  : TechStack :=
  dedupeEdgeVsOrigin
    (detect_edge headers
       (detect_platform headers jsSet
          (detect_server headers (detect_compression headers tech)))).

(** The fields the two halves assign after the CMS section. *)
Definition markup_fields : list Key.Field :=
  [ Key.javascriptFrameworks; Key.cssFrameworks; Key.analytics; Key.marketing;
    Key.monitoring; Key.payments; Key.buildTools ].

Definition header_fields : list Key.Field :=
  [ Key.compression; Key.server; Key.webServer; Key.javascriptFrameworks; Key.cdn;
    Key.hosting ].

(** A section assigns only the fields listed. *)
Definition writes (fs : list Key.Field) (t t' : TechStack) : Prop :=
  forall f, ~ In f fs -> tget f t' = tget f t.

(** A literal matches where its characters agree up to ASCII case. *)
Fixpoint ci_prefix (p s : string) : bool :=
  match p, s with
  | EmptyString, _ => true
  | String c p', String x s' => Rx.chr_eq true c x && ci_prefix p' s'
  | String _ _, EmptyString => false
  end.

(** A needle of ASCII characters. *)
Definition ascii_only (p : string) : Prop :=
  forall c, In c (list_ascii_of_string p) -> Js.code c < 128.

(** The order of the work-list. *)
Definition by_priority (a c : candidate) : Prop := priority a <= priority c.

(** A computation settles alike on two networks. *)
Definition alike (net1 net2 : Http.Net) {A} (p : Http.Prog A) : Prop :=
  Http.eval net1 p = Http.eval net2 p.

End Specification.

(* ================================================================== *)
(** ** The page and the display *)
(* ================================================================== *)

Section Callers.

Import Http.

Context {RT : Runtime}.

(** [/^r/.test(s)]: a match that starts at the first character. *)
Definition test_at_start (rx : Rx.RegExp) (s : string) : bool :=
  Rx.m (Rx.ignoreCase rx) (Rx.pattern rx) None s (fun _ _ => true).

(** [formatUrl] of [page.tsx]. *)
Definition formatUrl (inputUrl : string) : string :=
  let formattedUrl := Js.trim inputUrl in
  if negb (Js.truthy formattedUrl) then ""
  else
    let formattedUrl :=
      if negb (test_at_start (Rx.ci (Rx.seq [Rx.lit "http"; Rx.opt (Rx.lit "s"); Rx.lit "://"]))
                             formattedUrl)
      then String.append "https://" formattedUrl
      else formattedUrl in
    match URL_new formattedUrl with
    | Some u => href u
    | None => formattedUrl
    end.

(** The state of [Home]: [techStack], [loading], [error]. *)
Record HomeState := mkHome {
  home_techStack : option TechStack;
  home_loading : bool;
  home_error : string
}.

(** The object a response body parses to on the page. *)
Definition response_json (b : ResponseBody) : TechStack :=
  match b with
  | ErrorBody e => [("error", VStr e)]
  | TechBody t => t
  end.

(** [const { error: serverError } = await response.json()...]; an absent
    property counts as the empty string in the test that follows. *)
Definition server_error (b : ResponseBody) : string :=
  match Js.get "error" (response_json b) with
  | Some (VStr e) => e
  | _ => ""
  end.

(** [setError(e.message || '...')] in the [catch] of [analyzeTechStack]. *)
Definition caught (message : string) (st : HomeState) : HomeState :=
  mkHome (home_techStack st) (home_loading st)
         (if Js.truthy message then message
          else "Failed to analyze the website. Please check the URL and try again.").

(** [analyzeTechStack] of [page.tsx], as a transition of the state.  The
    request to [/api/analyze] is the call of [POST] with the body
    [{ url: candidate }]; the transport between page and route is not
    modelled. *)
Definition analyzeTechStack (url : string) (st : HomeState) : Prog HomeState :=
  let candidate := formatUrl url in
  if negb (Js.truthy candidate)
  then Ret (mkHome (home_techStack st) (home_loading st) "Please enter a valid URL.")
  else
    let st := mkHome None true "" in
    st <- try_catch
            (response <- POST (mkReq (Some (JObj [("url", JStr candidate)]))) ;;
             if negb (default_validate (next_status response)) then
               if next_status response =? 403
               then Ret (caught "Access to the URL is forbidden (403)." st)
               else
                 let serverError := server_error (next_body response) in
                 Ret (caught (if Js.truthy serverError then serverError
                              else String.append "HTTP error! status: "
                                                 (Js.string_of_nat (next_status response)))
                             st)
             else
               Ret (mkHome (Some (response_json (next_body response)))
                           (home_loading st) (home_error st)))
            (Ret (caught "" st)) ;;
    Ret (mkHome (home_techStack st) false (home_error st)).

(** What [Home] renders below the form. *)
Inductive Panel :=
| LoadingPanel
| ErrorPanel (message : string)
| ResultPanel (techStack : TechStack)
| Placeholder.

Definition panel (st : HomeState) : Panel :=
  if home_loading st then LoadingPanel
  else if Js.truthy (home_error st) then ErrorPanel (home_error st)
  else match home_techStack st with
       | Some t => ResultPanel t
       | None => Placeholder
       end.

(** A row of the display: its label and its badges. *)
Definition Row : Type := string * list string.

(** [FieldRow] of [TechStackDisplay.tsx]; no caller overrides
    [hideIfEmpty].  [None] is a row that renders nothing. *)
Definition FieldRow (label : string) (value : option Value) : option Row :=
  match value with
  | Some (VStr s) => if Js.truthy s then Some (label, [s]) else None
  | Some (VList l) => match l with [] => None | _ => Some (label, l) end
  | _ => None
  end.

Record Display := mkDisplay {
  display_rows : list Row;
  display_notice : bool
}.

(** [TechStackDisplay]: the rows in the order of the grid, and whether the
    WordPress notice is shown. *)
Definition TechStackDisplay (techStack : TechStack) : Display :=
  let isWP := wordpress_flag techStack in
  mkDisplay
    (non_null
       [ FieldRow "CMS" (tget Key.cms techStack);
         if isWP then None
         else FieldRow "JavaScript Frameworks" (tget Key.javascriptFrameworks techStack);
         if isWP then None
         else FieldRow "CSS Frameworks" (tget Key.cssFrameworks techStack);
         FieldRow "Analytics" (tget Key.analytics techStack);
         FieldRow "Build Tools" (tget Key.buildTools techStack);
         FieldRow "Compression" (tget Key.compression techStack);
         FieldRow "Server" (tget Key.server techStack);
         FieldRow "Web Platform" (tget Key.webServer techStack);
         FieldRow "CDN" (tget Key.cdn techStack);
         FieldRow "Hosting" (tget Key.hosting techStack);
         FieldRow "Payments" (tget Key.payments techStack);
         FieldRow "Marketing" (tget Key.marketing techStack);
         FieldRow "Monitoring / Error Tracking" (tget Key.monitoring techStack) ])
    isWP.

End Callers.

(* ================================================================== *)
(** ** Literal patterns, in the words of string search *)
(* ================================================================== *)

(** The text left after a literal, compared under the flag. *)
Fixpoint drop_prefix (ci : bool) (p s : string) : option string :=
  match p, s with
  | EmptyString, _ => Some s
  | String c p', String x s' => if Rx.chr_eq ci c x then drop_prefix ci p' s' else None
  | String _ _, EmptyString => None
  end.

Definition lit_prefix (ci : bool) (p s : string) : bool :=
  match drop_prefix ci p s with Some _ => true | None => false end.

(** The literal occurs somewhere in the text. *)
Fixpoint lit_includes (ci : bool) (p s : string) : bool :=
  lit_prefix ci p s ||
  match s with
  | EmptyString => false
  | String _ s' => lit_includes ci p s'
  end.

(** A needle of ASCII characters without capital letters. *)
Definition plain (p : string) : Prop :=
  forall c, In c (list_ascii_of_string p) -> Js.code c < 128 /\ Js.lower_ascii c = c.

(* ================================================================== *)
(** ** Further statements about the record *)
(* ================================================================== *)

(** The names the final pass looks for in the server label. *)
Definition edge_names : list string :=
  [ "cloudflare"; "fastly"; "akamai"; "cloudfront"; "google frontend"; "gws"; "esf";
    "vercel" ].

(** A value the response carries: a non-empty string, a non-empty list, or
    the flag. *)
Definition filled (v : Value) : Prop :=
  match v with
  | VStr s => s <> ""
  | VList l => l <> []
  | VBool b => b = true
  | VUndefined => False
  end.

(** The fields that only the page decides, and those that only the headers
    decide. *)
Definition page_fields : list Key.Field :=
  [ Key.cms; Key.isWordPress; Key.cssFrameworks; Key.analytics; Key.marketing;
    Key.monitoring; Key.payments; Key.buildTools ].

Definition header_only_fields : list Key.Field :=
  [ Key.compression; Key.server; Key.webServer; Key.cdn; Key.hosting ].

(** Two records hold the same values in the fields listed. *)
Definition agree_on (fs : list Key.Field) (t t' : TechStack) : Prop :=
  forall f, In f fs -> tget f t = tget f t'.

(** Header names up to letter case. *)
Definition lower_names (headers : Js.Obj string) : Js.Obj string :=
  map (fun kv => (Js.toLowerCase (fst kv), snd kv)) headers.

(** A value of the record under construction: filled, or cleared. *)
Definition settled (kv : string * Value) : Prop := filled (snd kv) \/ snd kv = VUndefined.

(** The requests of [n] scans of a work-list. *)
Definition script_requests (urls : list string) (n : nat) : list (Http.config * string) :=
  List.concat (repeat (map (pair Http.ScriptGet) urls) n).

(** A computation that does nothing on the network but scan the work-list
    [n] times, and that returns unless the list is empty. *)
Definition scans (net : Http.Net) (urls : list string) (n : nat) {A} (p : Http.Prog A)
  : Prop :=
  Http.trace net p = script_requests urls n /\
  (urls <> [] -> exists a, Http.eval net p = Http.Returned a).

(** The number of script scans of one analysis. *)
Definition scan_count (wordpress : bool) : nat := if wordpress then 25 else 28.

(** The candidates of one priority, in the order of the page. *)
Definition tier (k : nat) (l : list candidate) : list candidate :=
  filter (fun c => priority c =? k) l.


(** The request the page sends to the route for a candidate URL. *)
Definition page_request (candidate : string) : NextRequest :=
  mkReq (Some (Http.JObj [("url", Http.JStr candidate)])).

(** What the page shows for an answer of the route. *)
Definition shown (b : ResponseBody) : Panel :=
  match b with
  | ErrorBody msg => ErrorPanel msg
  | TechBody t => ResultPanel t
  end.

(* ================================================================== *)
(** ** A sample visit *)
(* ================================================================== *)

Module Visit.

Import Http Sample.

#[local] Existing Instance Sample.runtime.

(** A network on which the document request is answered with a page and
    its headers, and nothing else answers. *)
Definition serves (html : string) (hs : Js.Obj header_value) : Net :=
  fun c _ =>
    match c with
    | DocumentGet => Responded (mkResp 200 hs (JStr html))
    | _ => Failed NetworkError
    end.

(** The WordPress page with jQuery, served compressed from behind
    Cloudflare. *)
Definition served : response :=
  mkResp 200 [("Server", HOne "cloudflare"); ("Content-Encoding", HOne "gzip")]
         (JStr wordpress_jquery_html).

Definition behind_cloudflare : Net := serves (body_text (data served)) (headers served).


Definition wordpress_answer : NextResponse :=
  mkNext (TechBody [ ("cms", VStr "WordPress"); ("isWordPress", VBool true);
                     ("javascriptFrameworks", VList ["jQuery"]);
                     ("compression", VList ["Gzip"]);
                     ("cdn", VList ["Cloudflare"]) ])
         200.

(** The record of the WordPress page when the platform announces Next.js. *)
Definition powered_by_next : Js.Obj string := [("x-powered-by", "Next.js")].

Definition powered_by_next_record : TechStack :=
  [ ("cms", VStr "WordPress"); ("isWordPress", VBool true);
    ("javascriptFrameworks", VList ["jQuery"; "Next.js"]) ].

(** The records of two pages served by NGINX with Brotli. *)
Definition nginx_brotli : Js.Obj string := [("server", "nginx/1.25"); ("content-encoding", "br")].

Definition wordpress_on_nginx : TechStack :=
  [ ("cms", VStr "WordPress"); ("isWordPress", VBool true);
    ("javascriptFrameworks", VList ["jQuery"]);
    ("compression", VList ["Brotli"]); ("server", VStr "NGINX") ].

Definition shop_on_nginx : TechStack :=
  [ ("cms", VStr "Shopify"); ("cssFrameworks", VList ["Bootstrap"]);
    ("compression", VList ["Brotli"]); ("server", VStr "NGINX") ].

(** A network on which the script of the WordPress page loads, a bundle
    with React in it, and nothing else answers. *)
Definition with_scripts : Net :=
  fun c u =>
    match c with
    | ScriptGet =>
        if String.eqb u "https://example.com/wp-includes/js/jquery/jquery.min.js"
        then Responded (mkResp 200 [] (JStr "React.createElement(App, null);"))
        else Failed NetworkError
    | _ => Failed NetworkError
    end.

Definition wordpress_react_record : TechStack :=
  [ ("cms", VStr "WordPress"); ("isWordPress", VBool true);
    ("javascriptFrameworks", VList ["React"; "jQuery"]) ].

(** The base URL of the sample site, parsed. *)
Definition site_url : URL := mkURL site "example.com".

(** The state of the page before the first analysis. *)
Definition fresh : HomeState := mkHome None false "".

End Visit.

(* ================================================================== *)
(** ** More evidence, more detections *)
(* ================================================================== *)

Section Evidence.

Context {RT : Runtime}.

(** The second network delivers every script of the page that the first
    one delivers, with the same text. *)
Definition more_scripts (net1 net2 : Http.Net) (d : Dom.Cheerio) (baseUrl : string) : Prop :=
  forall u text, In u (worklist d baseUrl) ->
                 script_body net1 u = Some text -> script_body net2 u = Some text.

(** A verdict that can only rise. *)
Definition implies (a b : bool) : Prop := a = true -> b = true.

(** A detector whose verdict on the second network is at least its verdict
    on the first. *)
Definition rises (net1 net2 : Http.Net) (p : Http.Prog bool) : Prop :=
  forall x1 x2, Http.eval net1 p = Http.Returned x1 ->
                Http.eval net2 p = Http.Returned x2 -> implies x1 x2.

(** Every value of the first record is in the second: a string or the flag
    as it is, a list with at least the same entries. *)
Definition within (t1 t2 : TechStack) : Prop :=
  forall f v, tget f t1 = Some v ->
              match v with
              | VList l => exists l', tget f t2 = Some (VList l') /\ incl l l'
              | _ => tget f t2 = Some v
              end.

End Evidence.

(** The record after the sections that read the page: the record of the
    CMS section, then one optional list per section. *)
Definition page_record (base : TechStack) (js css an ma mo pa bu : list string) : TechStack :=
  set_if_nonempty Key.buildTools bu
    (set_if_nonempty Key.payments pa
       (set_if_nonempty Key.monitoring mo
          (set_if_nonempty Key.marketing ma
             (set_if_nonempty Key.analytics an
                (set_if_nonempty Key.cssFrameworks css
                   (set_if_nonempty Key.javascriptFrameworks js base)))))).

(** A computation that returns on the given network. *)
Definition settles (net : Http.Net) {A} (p : Http.Prog A) : Prop :=
  exists a, Http.eval net p = Http.Returned a.

(** *** References and work-list entries *)

(** The address a script or preload element gives: src of a script, href
    of a link. *)
Definition reference_address (e : Dom.element) : string :=
  Js.or_empty (Dom.attr (if String.eqb (Dom.tag e) "link" then "href" else "src") e).

(** A module script: the type attribute is module, in any letter case. *)
Definition module_reference (e : Dom.element) : bool :=
  String.eqb (Js.toLowerCase (Js.or_empty (Dom.attr "type" e))) "module".

(** What a candidate says of the element it was made from: the address is
    not blank and resolves against the base URL; the candidate carries the
    resolved address, whether the element is a module script and whether
    the resolved address is on the host of the page. *)
Definition reference_of {RT : Runtime} (baseUrl baseHost : string) (e : Dom.element)
           (c : candidate) : Prop :=
  Js.trim (reference_address e) <> "" /\
  exists target u,
    URL_resolve (Js.trim (reference_address e)) baseUrl = Some target /\
    URL_new (href target) = Some u /\
    url c = href target /\
    isModule c = module_reference e /\
    sameOrigin c = String.eqb (host u) baseHost.

(** The three ranks of the work-list. *)
Definition module_of_the_site (c : candidate) : bool := isModule c && sameOrigin c.

Definition module_or_of_the_site (c : candidate) : bool := xorb (isModule c) (sameOrigin c).

Definition foreign_classic (c : candidate) : bool :=
  negb (isModule c) && negb (sameOrigin c).

(** A candidate as address, module, same origin. *)
Definition summary (c : candidate) : string * bool * bool :=
  (url c, isModule c, sameOrigin c).

(* ================================================================== *)
(** ** Objects and sets *)
(* ================================================================== *)

Lemma get_set_same {V} (k : string) (v : V) (o : Js.Obj V) :
  Js.get k (Js.set k v o) = Some v.
Proof.
  induction o as [|[k' v'] o IH]; simpl.
  - now rewrite String.eqb_refl.
  - destruct (String.eqb k k') eqn:E; simpl.
    + now rewrite String.eqb_refl.
    + now rewrite E.
Qed.

Lemma get_set_other {V} (k k' : string) (v : V) (o : Js.Obj V) :
  k <> k' -> Js.get k (Js.set k' v o) = Js.get k o.
Proof.
  intros Hne. induction o as [|[k0 v0] o IH]; simpl.
  - destruct (String.eqb k k') eqn:E; [apply String.eqb_eq in E; contradiction | reflexivity].
  - destruct (String.eqb k' k0) eqn:E; simpl.
    + apply String.eqb_eq in E. subst k0.
      destruct (String.eqb k k') eqn:E'; [apply String.eqb_eq in E'; contradiction | reflexivity].
    + destruct (String.eqb k k0); [reflexivity | exact IH].
Qed.

Lemma get_not_in {V} (k : string) (o : Js.Obj V) :
  ~ In k (Js.keys o) -> Js.get k o = None.
Proof.
  induction o as [|[k' v'] o IH]; simpl; intros H; [reflexivity|].
  destruct (String.eqb k k') eqn:E.
  - apply String.eqb_eq in E. subst. exfalso. apply H. now left.
  - apply IH. intros Hin. apply H. now right.
Qed.

Lemma field_name_inj (f g : Key.Field) : Key.field_name f = Key.field_name g -> f = g.
Proof. destruct f, g; simpl; intros H; first [reflexivity | discriminate H]. Qed.

Lemma tget_tset_same (f : Key.Field) (v : Value) (t : TechStack) :
  tget f (tset f v t) = Some v.
Proof. apply get_set_same. Qed.

Lemma tget_tset_other (f g : Key.Field) (v : Value) (t : TechStack) :
  f <> g -> tget f (tset g v t) = tget f t.
Proof.
  intros H. apply get_set_other. intros E. apply H. now apply field_name_inj.
Qed.

Lemma add_keeps (x y : string) (s : Js.StrSet) : In x s -> In x (Js.add y s).
Proof.
  unfold Js.add. destruct (Js.has y s); intros H; [exact H | apply in_or_app; now left].
Qed.

Lemma add_if_keeps (c : bool) (x y : string) (s : Js.StrSet) :
  In x s -> In x (add_if c y s).
Proof. unfold add_if. destruct c; [apply add_keeps | trivial]. Qed.

Lemma add_if_adds (x : string) (s : Js.StrSet) : In x (add_if true x s).
Proof.
  unfold add_if, Js.add, Js.has. destruct (existsb (String.eqb x) s) eqn:E.
  - apply existsb_exists in E. destruct E as [y [Hy E]].
    apply String.eqb_eq in E. now subst.
  - apply in_or_app. right. now left.
Qed.

(* ================================================================== *)
(** ** Awaiting *)
(* ================================================================== *)

Section Awaiting.

Import Http.

Variable net : Net.

Lemma eval_bind {A B} (p : Prog A) (f : A -> Prog B) :
  eval net (bind p f) =
  match eval net p with
  | Returned a => eval net (f a)
  | Thrown => Thrown
  end.
Proof. induction p as [a| |c u k IH]; simpl; [reflexivity | reflexivity | apply IH]. Qed.

Lemma eval_try_catch {A} (p h : Prog A) :
  eval net (try_catch p h) =
  match eval net p with
  | Returned a => Returned a
  | Thrown => eval net h
  end.
Proof. induction p as [a| |c u k IH]; simpl; [reflexivity | reflexivity | apply IH]. Qed.

Lemma eval_mapM {A B} (f : A -> Prog B) (g : A -> B) (l : list A) :
  (forall x, In x l -> eval net (f x) = Returned (g x)) ->
  eval net (mapM f l) = Returned (map g l).
Proof.
  induction l as [|x l IH]; simpl; intros H; [reflexivity|].
  rewrite eval_bind, (H x (or_introl eq_refl)), eval_bind, IH; [reflexivity|].
  intros y Hy. apply H. now right.
Qed.

End Awaiting.

(* ================================================================== *)
(** ** The secondary fetcher and the script scan *)
(* ================================================================== *)

Section Fetcher.

Import Http.

Context {RT : Runtime}.
Variable net : Net.

Lemma eval_fetchText (u : string) :
  eval net (fetchText u) = Returned (script_body net u).
Proof.
  unfold fetchText, script_body, get. simpl.
  destruct (net ScriptGet u) as [why|r]; simpl; [reflexivity|].
  destruct (default_validate (status r)); reflexivity.
Qed.

Lemma eval_scan_script (matcher : string -> bool) (u : string) :
  eval net (scan_script matcher u) = Returned (script_matches net matcher u).
Proof.
  unfold scan_script, script_matches. rewrite eval_bind, eval_fetchText. simpl.
  destruct (script_body net u) as [t|]; [|reflexivity].
  destruct (Js.truthy t); reflexivity.
Qed.

Lemma existsb_id_map {A} (g : A -> bool) (l : list A) :
  existsb (fun b => b) (map g l) = existsb g l.
Proof. induction l as [|x l IH]; simpl; [reflexivity | now rewrite IH]. Qed.

Lemma eval_containsInScripts (d : Dom.Cheerio) (baseUrl : string) (matcher : string -> bool) :
  eval net (containsInScripts d baseUrl matcher) =
  match pickTopScripts d baseUrl with
  | Some urls => Returned (existsb (script_matches net matcher) urls)
  | None => Thrown
  end.
Proof.
  unfold containsInScripts. rewrite eval_bind.
  destruct (pickTopScripts d baseUrl) as [urls|]; simpl; [|reflexivity].
  rewrite eval_bind.
  rewrite (eval_mapM net (scan_script matcher) (script_matches net matcher)).
  - simpl. now rewrite existsb_id_map.
  - intros x _. apply eval_scan_script.
Qed.

(** C8. A script fetch settles to the body text when the request succeeds
    (the body itself when it is a string, its JSON text otherwise) and to
    null on every failure (transport error, time-out, oversize body, status
    outside 2xx); it never throws.  Hence the script scan of a page whose
    work-list exists returns a boolean on every network: the one obtained
    by counting each script that could not be fetched as keyword absent.
    It is true when some script of the work-list is delivered with a text
    the matcher accepts, and false when no script is delivered. *)
Theorem script_fetch_failures_are_absorbed
        (d : Dom.Cheerio) (baseUrl : string) (matcher : string -> bool)
        (urls : list string) :
  pickTopScripts d baseUrl = Some urls ->
  (forall u, exists text, eval net (fetchText u) = Returned text) /\
  (forall u r, net ScriptGet u = Responded r -> default_validate (status r) = true ->
               eval net (fetchText u) = Returned (Some (body_text (data r)))) /\
  (forall u r s, net ScriptGet u = Responded r -> default_validate (status r) = true ->
                 data r = JStr s ->
                 eval net (fetchText u) = Returned (Some s)) /\
  (forall u r, net ScriptGet u = Responded r -> default_validate (status r) = true ->
               (forall s, data r <> JStr s) ->
               eval net (fetchText u) = Returned (Some (JSON_stringify (data r)))) /\
  (forall u r, net ScriptGet u = Responded r -> default_validate (status r) = false ->
               eval net (fetchText u) = Returned None) /\
  (forall u why, net ScriptGet u = Failed why -> eval net (fetchText u) = Returned None) /\
  eval net (containsInScripts d baseUrl matcher) =
    Returned (existsb (script_matches net matcher) urls) /\
  (forall u, eval net (fetchText u) = Returned None -> script_matches net matcher u = false) /\
  (forall u r s, In u urls ->
                 net ScriptGet u = Responded r -> default_validate (status r) = true ->
                 data r = JStr s -> s <> "" -> matcher s = true ->
                 eval net (containsInScripts d baseUrl matcher) = Returned true) /\
  ((forall u, In u urls -> eval net (fetchText u) = Returned None) ->
   eval net (containsInScripts d baseUrl matcher) = Returned false).
Proof.
  intros Hpick.
  assert (Hscan : eval net (containsInScripts d baseUrl matcher) =
                  Returned (existsb (script_matches net matcher) urls))
    by (rewrite eval_containsInScripts; now rewrite Hpick).
  assert (Hnone : forall u, eval net (fetchText u) = Returned None ->
                            script_matches net matcher u = false).
  { intros u. rewrite eval_fetchText. intros H. injection H as H.
    unfold script_matches. now rewrite H. }
  split; [|split; [|split; [|split; [|split; [|split; [|split; [|split; [|split]]]]]]]].
  - intros u. rewrite eval_fetchText. eauto.
  - intros u r Hnet Hok. rewrite eval_fetchText. unfold script_body. now rewrite Hnet, Hok.
  - intros u r s Hnet Hok Hs. rewrite eval_fetchText. unfold script_body.
    rewrite Hnet, Hok. unfold body_text. now rewrite Hs.
  - intros u r Hnet Hok Hs. rewrite eval_fetchText. unfold script_body.
    rewrite Hnet, Hok. unfold body_text.
    destruct (data r) as [| | | s | |]; try reflexivity. now elim (Hs s).
  - intros u r Hnet Hbad. rewrite eval_fetchText. unfold script_body. now rewrite Hnet, Hbad.
  - intros u why Hnet. rewrite eval_fetchText. unfold script_body. now rewrite Hnet.
  - exact Hscan.
  - exact Hnone.
  - intros u r s Hin Hnet Hok Hs Hne Hm. rewrite Hscan. f_equal.
    apply existsb_exists. exists u. split; [exact Hin|].
    unfold script_matches, script_body. rewrite Hnet, Hok. unfold body_text. rewrite Hs.
    unfold Js.truthy. destruct (String.eqb s "") eqn:E; [|exact Hm].
    apply String.eqb_eq in E. contradiction.
  - intros Hall. rewrite Hscan. f_equal.
    destruct (existsb (script_matches net matcher) urls) eqn:E; [|reflexivity].
    apply existsb_exists in E. destruct E as [u [Hin Hu]].
    rewrite (Hnone u (Hall u Hin)) in Hu. discriminate Hu.
Qed.

(* ================================================================== *)
(** ** Corroboration *)
(* ================================================================== *)

Lemma score_count (signals : list Rx.RegExp) (html : string) :
  score signals html = count_true (map (fun rx => Rx.test rx html) signals).
Proof.
  unfold score, count_true. induction signals as [|rx l IH]; simpl; [reflexivity|].
  destruct (Rx.test rx html); simpl; now rewrite IH.
Qed.

Lemma one_is_below_two (n : nat) : n = 1 -> (2 <=? n) = false.
Proof. intros ->. reflexivity. Qed.

Ltac scan_verdict :=
  match goal with
  | Hs : eval net (with_scan _ _ _ _) = Returned ?l, H1 : count_true ?l = 1 |- _ =>
      unfold with_scan in Hs; rewrite eval_bind in Hs;
      match type of Hs with
      | context [eval net (containsInScripts ?d ?b ?m)] =>
          let o := fresh "o" in
          let E := fresh "E" in
          destruct (eval net (containsInScripts d b m)) as [o|] eqn:E;
          [ simpl in Hs; injection Hs as Hs; subst l;
            unfold containsMatomo, containsPlausible, containsMixpanel, containsAmplitude,
                   containsjQuery, containsBackbone, containsDojo, containsMeteor;
            rewrite eval_bind, E; cbv zeta;
            unfold count_true in H1; simpl in H1 |- *;
            repeat match type of H1 with
                   | context [if ?c then _ else _] => destruct c; simpl in H1 |- *
                   end;
            first [reflexivity | discriminate H1]
          | discriminate Hs ]
      end
  end.

Ltac score_verdict :=
  match goal with
  | Hs : eval net (Ret _) = Returned ?l, H1 : count_true ?l = 1 |- _ =>
      simpl in Hs; injection Hs as Hs; subst l; simpl; f_equal;
      apply one_is_below_two; rewrite <- H1; apply score_count
  end.

(** C5. A detector whose policy is at least two corroborating signals
    returns false on every evidence bundle on which exactly one of its
    sub-checks is true.  This holds for Matomo, Plausible, Mixpanel,
    Amplitude, jQuery, Backbone, Dojo, Meteor, and for the markup checks of
    WordPress, Shopify, Drupal, Joomla and Wix. *)
Theorem one_signal_is_not_enough
        (d : Dom.Cheerio) (baseUrl : string)
        (name : string) (checks : Prog (list bool)) (verdict : Prog bool)
        (signals : list bool) :
  In (name, checks, verdict) (corroborated d baseUrl) ->
  eval net checks = Returned signals ->
  count_true signals = 1 ->
  eval net verdict = Returned false.
Proof.
  intros Hin Hs H1. unfold corroborated in Hin. simpl in Hin.
  repeat (destruct Hin as [Hin|Hin];
          [ injection Hin as _ <- <-;
            first [ scan_verdict | score_verdict ] | ]).
  contradiction.
Qed.

End Fetcher.

(* ================================================================== *)
(** ** The aggregator, section by section *)
(* ================================================================== *)

Section Aggregator.

Import Http.

Context {RT : Runtime}.
Variable net : Net.

Ltac step H :=
  rewrite eval_bind in H;
  match type of H with
  | context [match eval net ?p with _ => _ end] =>
      let a := fresh "a" in
      let E := fresh "E" in
      destruct (eval net p) as [a|] eqn:E; [cbv beta zeta in H | discriminate H]
  end.

Lemma writes_refl (fs : list Key.Field) (t : TechStack) : writes fs t t.
Proof. intros f _. reflexivity. Qed.

Lemma writes_tset (fs : list Key.Field) (g : Key.Field) (v : Value) (t : TechStack) :
  In g fs -> writes fs t (tset g v t).
Proof.
  intros Hg f Hf. apply tget_tset_other. intros ->. contradiction.
Qed.

Lemma writes_trans (fs : list Key.Field) (t1 t2 t3 : TechStack) :
  writes fs t1 t2 -> writes fs t2 t3 -> writes fs t1 t3.
Proof. intros H12 H23 f Hf. rewrite (H23 f Hf). apply H12, Hf. Qed.

Lemma writes_incl (fs fs' : list Key.Field) (t t' : TechStack) :
  incl fs fs' -> writes fs t t' -> writes fs' t t'.
Proof. intros Hi H f Hf. apply H. intros Hin. apply Hf, Hi, Hin. Qed.

Lemma writes_set_if_nonempty (fs : list Key.Field) (g : Key.Field) (xs : list string)
      (t : TechStack) :
  In g fs -> writes fs t (set_if_nonempty g xs t).
Proof.
  intros Hg. destruct xs; simpl; [apply writes_refl | now apply writes_tset].
Qed.

(** *** The CMS section *)

Lemma probe_returns (baseUrl : string) :
  exists api, eval net (isWordPressViaAPI baseUrl) = Returned api.
Proof.
  unfold isWordPressViaAPI. rewrite eval_try_catch.
  match goal with |- context [match ?e with _ => _ end] => destruct e as [b|] end;
    simpl; eauto.
Qed.

Lemma eval_detect_cms (d : Dom.Cheerio) (baseUrl : string) (tech : TechStack) (api : bool) :
  eval net (isWordPressViaAPI baseUrl) = Returned api ->
  eval net (detect_cms d baseUrl tech) = Returned (cms_section d api tech).
Proof.
  intros Hapi. unfold detect_cms, cms_section, generator.
  destruct (isShopify d); [reflexivity|].
  destruct (isSquarespace d); [reflexivity|].
  destruct (isWix d); [reflexivity|].
  rewrite eval_bind.
  destruct (isWordPress d); simpl.
  - reflexivity.
  - rewrite Hapi. destruct api; [reflexivity|].
    destruct (isDrupal d); [reflexivity|].
    destruct (isJoomla d); [reflexivity|].
    destruct (Dom.first_attr d _ "content") as [g|]; [|reflexivity].
    destruct (Js.truthy g); reflexivity.
Qed.

(** *** The other sections *)

Lemma eval_detect_js (d : Dom.Cheerio) (baseUrl : string) (tech tech' : TechStack)
      (jsSet : Js.StrSet) :
  eval net (detect_js d baseUrl tech) = Returned (tech', jsSet) ->
  tech' = set_if_nonempty Key.javascriptFrameworks jsSet tech.
Proof.
  unfold detect_js. intros H. step H. simpl in H. injection H as <- <-. reflexivity.
Qed.

Lemma eval_detect_css_flagged (d : Dom.Cheerio) (baseUrl : string) (tech : TechStack) :
  wordpress_flag tech = true ->
  eval net (detect_css d baseUrl tech) = Returned tech.
Proof. intros H. unfold detect_css. now rewrite H. Qed.

Lemma detect_css_writes (d : Dom.Cheerio) (baseUrl : string) (tech tech' : TechStack) :
  eval net (detect_css d baseUrl tech) = Returned tech' ->
  writes [Key.cssFrameworks] tech tech'.
Proof.
  unfold detect_css. intros H.
  destruct (negb (wordpress_flag tech)).
  - step H. step H. step H. simpl in H. injection H as <-.
    apply writes_set_if_nonempty. now left.
  - simpl in H. injection H as <-. apply writes_refl.
Qed.

Lemma detect_analytics_writes (d : Dom.Cheerio) (baseUrl : string) (tech tech' : TechStack) :
  eval net (detect_analytics d baseUrl tech) = Returned tech' ->
  writes [Key.analytics] tech tech'.
Proof.
  unfold detect_analytics. intros H.
  step H. step H. step H. step H. step H. step H. step H.
  simpl in H. injection H as <-. apply writes_set_if_nonempty. now left.
Qed.

Lemma detect_build_writes (html : string) (d : Dom.Cheerio) (baseUrl : string)
      (tech tech' : TechStack) :
  eval net (detect_build html d baseUrl tech) = Returned tech' ->
  writes [Key.buildTools] tech tech'.
Proof.
  unfold detect_build. intros H.
  step H. step H. step H.
  simpl in H. injection H as <-. apply writes_set_if_nonempty. now left.
Qed.

Lemma detect_marketing_writes (d : Dom.Cheerio) (tech : TechStack) :
  writes [Key.marketing] tech (detect_marketing d tech).
Proof. apply writes_set_if_nonempty. now left. Qed.

Lemma detect_monitoring_writes (d : Dom.Cheerio) (tech : TechStack) :
  writes [Key.monitoring] tech (detect_monitoring d tech).
Proof. apply writes_set_if_nonempty. now left. Qed.

Lemma detect_payments_writes (d : Dom.Cheerio) (tech : TechStack) :
  writes [Key.payments] tech (detect_payments d tech).
Proof. apply writes_set_if_nonempty. now left. Qed.

Lemma detect_compression_writes (headers : Js.Obj string) (tech : TechStack) :
  writes [Key.compression] tech (detect_compression headers tech).
Proof. apply writes_set_if_nonempty. now left. Qed.

Lemma detect_server_writes (headers : Js.Obj string) (tech : TechStack) :
  writes [Key.server] tech (detect_server headers tech).
Proof.
  unfold detect_server.
  destruct (Js.get "server" headers) as [raw|]; [|apply writes_refl].
  destruct (Js.truthy raw); [|apply writes_refl].
  destruct (mapServerHeader (Some raw)); apply writes_tset; now left.
Qed.

Lemma detect_platform_writes (headers : Js.Obj string) (jsSet : Js.StrSet) (tech : TechStack) :
  writes [Key.webServer; Key.javascriptFrameworks] tech (detect_platform headers jsSet tech).
Proof.
  unfold detect_platform.
  destruct (Js.get "x-powered-by" headers) as [raw|].
  - destruct (Js.truthy raw).
    + eapply writes_trans; [|apply writes_set_if_nonempty; simpl; tauto].
      destruct (negb _); [apply writes_tset; simpl; tauto | apply writes_refl].
    + apply writes_set_if_nonempty; simpl; tauto.
  - apply writes_set_if_nonempty; simpl; tauto.
Qed.

Lemma detect_edge_writes (headers : Js.Obj string) (tech : TechStack) :
  writes [Key.cdn; Key.hosting] tech (detect_edge headers tech).
Proof.
  unfold detect_edge.
  eapply writes_trans; [apply writes_set_if_nonempty; simpl; tauto|].
  destruct (inferHosting headers) as [h|]; [|apply writes_refl].
  destruct (Js.truthy h); [apply writes_tset; simpl; tauto | apply writes_refl].
Qed.

Lemma ensureCdn_writes (name : string) (tech : TechStack) :
  writes [Key.cdn; Key.server] tech (ensureCdn name tech).
Proof. apply writes_tset. simpl; tauto. Qed.

Lemma clear_server_writes (tech : TechStack) :
  writes [Key.cdn; Key.server] tech (clear_server tech).
Proof. apply writes_tset. simpl; tauto. Qed.

Lemma dedupe_writes (tech : TechStack) :
  writes [Key.cdn; Key.server] tech (dedupeEdgeVsOrigin tech).
Proof.
  unfold dedupeEdgeVsOrigin.
  destruct (tget Key.server tech) as [[srv| | |]|]; try apply writes_refl.
  destruct (negb (Js.truthy srv)); [apply writes_refl|].
  cbv zeta.
  repeat match goal with
         | |- context [if ?c then _ else _] => destruct c
         end;
    first [ apply writes_refl
          | eapply writes_trans; [apply ensureCdn_writes | apply clear_server_writes]
          | apply clear_server_writes ].
Qed.

(** *** The two halves *)

Lemma detectTechStack_split (html : string) (headers : Js.Obj string) (baseUrl : string) :
  eval net (detectTechStack html headers baseUrl) =
  match eval net (markup_sections html baseUrl) with
  | Returned (tech, jsSet) => Returned (header_sections headers jsSet tech)
  | Thrown => Thrown
  end.
Proof.
  unfold detectTechStack, markup_sections, header_sections. cbv zeta.
  rewrite !eval_bind.
  destruct (eval net (detect_cms _ _ _)) as [t1|]; [|reflexivity].
  rewrite !eval_bind.
  destruct (eval net (detect_js _ _ _)) as [[t2 js]|]; [|reflexivity].
  rewrite !eval_bind.
  destruct (eval net (detect_css _ _ _)) as [t3|]; [|reflexivity].
  rewrite !eval_bind.
  destruct (eval net (detect_analytics _ _ _)) as [t4|]; [|reflexivity].
  rewrite !eval_bind.
  destruct (eval net (detect_build _ _ _ _)) as [t5|]; reflexivity.
Qed.

Lemma header_sections_writes (headers : Js.Obj string) (jsSet : Js.StrSet) (tech : TechStack) :
  writes header_fields tech (header_sections headers jsSet tech).
Proof.
  unfold header_sections.
  eapply writes_trans; [|eapply writes_incl; [|apply dedupe_writes]].
  eapply writes_trans; [|eapply writes_incl; [|apply detect_edge_writes]].
  eapply writes_trans; [|eapply writes_incl; [|apply detect_platform_writes]].
  eapply writes_trans; [|eapply writes_incl; [|apply detect_server_writes]].
  eapply writes_incl; [|apply detect_compression_writes].
  all: unfold header_fields; intros f Hf; simpl in *; tauto.
Qed.

(** What the first half returns: the record of the CMS section, then only
    the fields of the markup sections; style sheets are not looked at once
    the WordPress flag is up. *)
Lemma markup_sections_inv (html : string) (baseUrl : string) (tech : TechStack)
      (jsSet : Js.StrSet) :
  eval net (markup_sections html baseUrl) = Returned (tech, jsSet) ->
  exists api,
    eval net (isWordPressViaAPI baseUrl) = Returned api /\
    let t1 := cms_section (cheerio_load html) api [] in
    writes markup_fields t1 tech /\
    (wordpress_flag t1 = true -> tget Key.cssFrameworks tech = tget Key.cssFrameworks t1).
Proof.
  unfold markup_sections. cbv zeta. intros H.
  destruct (probe_returns baseUrl) as [api Hapi].
  exists api. split; [exact Hapi|].
  rewrite eval_bind, (eval_detect_cms _ _ _ Hapi) in H.
  set (t1 := cms_section (cheerio_load html) api []) in *.
  step H. destruct a as [t2 js].
  apply eval_detect_js in E. subst t2.
  step H. rename a into t3. rename E into Hcss.
  step H. rename a into t4. apply detect_analytics_writes in E.
  step H. rename a into t5. apply detect_build_writes in E0.
  simpl in H. injection H as <- <-.
  assert (Hjs : writes [Key.javascriptFrameworks] t1
                       (set_if_nonempty Key.javascriptFrameworks js t1))
    by (apply writes_set_if_nonempty; now left).
  assert (Hrest : writes [Key.analytics; Key.marketing; Key.monitoring; Key.payments;
                          Key.buildTools] t3 t5).
  { eapply writes_trans; [|eapply writes_incl; [|exact E0]].
    eapply writes_trans; [|eapply writes_incl; [|apply detect_payments_writes]].
    eapply writes_trans; [|eapply writes_incl; [|apply detect_monitoring_writes]].
    eapply writes_trans; [|eapply writes_incl; [|apply detect_marketing_writes]].
    eapply writes_incl; [|exact E].
    all: intros f Hf; simpl in *; tauto. }
  split.
  - eapply writes_trans; [|eapply writes_incl; [|exact Hrest]].
    eapply writes_trans; [|eapply writes_incl; [|exact (detect_css_writes _ _ _ Hcss)]].
    eapply writes_incl; [|exact Hjs].
    all: unfold markup_fields; intros f Hf; simpl in *; tauto.
  - intros Hflag.
    assert (Hflag2 : wordpress_flag (set_if_nonempty Key.javascriptFrameworks js t1) = true).
    { unfold wordpress_flag in *. rewrite (Hjs Key.isWordPress); [exact Hflag|].
      simpl. intros [C|[]]. discriminate C. }
    rewrite (eval_detect_css_flagged _ _ _ Hflag2) in Hcss. injection Hcss as <-.
    rewrite (Hrest Key.cssFrameworks).
    + apply Hjs. simpl. intros [C|[]]. discriminate C.
    + simpl. intros C. repeat (destruct C as [C|C]; [discriminate C|]). exact C.
Qed.

End Aggregator.

(* ================================================================== *)
(** ** CMS priority, the WordPress flag and suppression *)
(* ================================================================== *)

Section Cms.

Import Http.

Context {RT : Runtime}.
Variable net : Net.

Lemma final_record (html : string) (headers : Js.Obj string) (baseUrl : string)
      (t : TechStack) :
  eval net (detectTechStack html headers baseUrl) = Returned t ->
  exists api,
    eval net (isWordPressViaAPI baseUrl) = Returned api /\
    let t1 := cms_section (cheerio_load html) api [] in
    tget Key.cms t = tget Key.cms t1 /\
    tget Key.isWordPress t = tget Key.isWordPress t1 /\
    (wordpress_flag t1 = true -> tget Key.cssFrameworks t = tget Key.cssFrameworks t1).
Proof.
  intros H. rewrite detectTechStack_split in H.
  destruct (eval net (markup_sections html baseUrl)) as [[t5 js]|] eqn:E; [|discriminate H].
  injection H as <-.
  destruct (markup_sections_inv _ _ _ E) as [api [Hapi [Hw Hcss]]].
  exists api. split; [exact Hapi|]. cbv zeta in *.
  pose proof (header_sections_writes headers js t5) as Hh.
  repeat split.
  - rewrite (Hh Key.cms), (Hw Key.cms); [reflexivity| |];
      unfold markup_fields, header_fields; simpl; intros C;
      repeat (destruct C as [C|C]; [discriminate C|]); exact C.
  - rewrite (Hh Key.isWordPress), (Hw Key.isWordPress); [reflexivity| |];
      unfold markup_fields, header_fields; simpl; intros C;
      repeat (destruct C as [C|C]; [discriminate C|]); exact C.
  - intros Hflag. rewrite (Hh Key.cssFrameworks); [now apply Hcss|].
    unfold header_fields; simpl; intros C;
      repeat (destruct C as [C|C]; [discriminate C|]); exact C.
Qed.

Lemma first_true (l pre post : list (string * bool)) (name : string) :
  l = pre ++ (name, true) :: post ->
  Forall (fun e => snd e = false) pre ->
  find (fun e => snd e) l = Some (name, true).
Proof.
  intros -> Hpre. induction Hpre as [|[n b] pre Hb _ IH]; simpl; [reflexivity|].
  simpl in Hb. now rewrite Hb.
Qed.

Lemma none_true (l : list (string * bool)) :
  Forall (fun e => snd e = false) l -> find (fun e => snd e) l = None.
Proof.
  induction 1 as [|[n b] l Hb _ IH]; simpl; [reflexivity|].
  simpl in Hb. now rewrite Hb.
Qed.

Ltac fields :=
  repeat first [ rewrite tget_tset_same
               | rewrite tget_tset_other by discriminate ].

(** The CMS section against the chain: the first detector that holds names
    the CMS and decides the flag; with none, the generator tag names it. *)
Lemma cms_section_chain (d : Dom.Cheerio) (api : bool) :
  match find (fun e => snd e) (cms_chain d api) with
  | Some e =>
      tget Key.cms (cms_section d api []) = Some (VStr (fst e)) /\
      tget Key.isWordPress (cms_section d api []) =
        (if String.eqb (fst e) "WordPress" then Some (VBool true) else None)
  | None =>
      tget Key.cms (cms_section d api []) = option_map VStr (generator d) /\
      tget Key.isWordPress (cms_section d api []) = None
  end.
Proof.
  unfold cms_chain, cms_section. simpl.
  destruct (isShopify d); simpl; [fields; now split|].
  destruct (isSquarespace d); simpl; [fields; now split|].
  destruct (isWix d); simpl; [fields; now split|].
  destruct (isWordPress d || api); simpl; [fields; now split|].
  destruct (isDrupal d); simpl; [fields; now split|].
  destruct (isJoomla d); simpl; [fields; now split|].
  destruct (generator d); simpl; fields; now split.
Qed.

(** C7. CMS detection is first-match-wins in the fixed order Shopify,
    Squarespace, Wix, WordPress (markup or discovery probe), Drupal,
    Joomla: the cms field of the record is the name of the first detector
    of the chain that holds, and the WordPress flag is set exactly when
    that detector is the WordPress one, whatever the detectors after it
    report; the field holds one name at most; with no detector holding it
    is the content of the generator tag, when there is one. *)
Theorem cms_first_match_wins
        (html : string) (headers : Js.Obj string) (baseUrl : string)
        (t : TechStack) (api : bool) :
  eval net (detectTechStack html headers baseUrl) = Returned t ->
  eval net (isWordPressViaAPI baseUrl) = Returned api ->
  (forall pre name post,
      cms_chain (cheerio_load html) api = pre ++ (name, true) :: post ->
      Forall (fun e => snd e = false) pre ->
      tget Key.cms t = Some (VStr name) /\
      tget Key.isWordPress t =
        (if String.eqb name "WordPress" then Some (VBool true) else None)) /\
  (Forall (fun e => snd e = false) (cms_chain (cheerio_load html) api) ->
   tget Key.cms t = option_map VStr (generator (cheerio_load html)) /\
   tget Key.isWordPress t = None).
Proof.
  intros H Hapi.
  destruct (final_record _ _ _ H) as [api' [Hapi' [Hcms [Hflag _]]]].
  rewrite Hapi in Hapi'. injection Hapi' as <-. cbv zeta in Hcms, Hflag.
  pose proof (cms_section_chain (cheerio_load html) api) as Hc.
  split.
  - intros pre name post Hchain Hpre.
    pose proof (@first_true _ pre post name Hchain Hpre) as Hf.
    rewrite Hf in Hc. simpl in Hc.
    rewrite Hcms, Hflag. exact Hc.
  - intros Hnone. pose proof (@none_true _ Hnone) as Hf. rewrite Hf in Hc.
    rewrite Hcms, Hflag. exact Hc.
Qed.

(** C10, as amended. In every record the analyzer returns the isWordPress
    flag is absent or true, and when it is true the cms field is WordPress.
    The converse holds for a CMS found by the chain; a cms field equal to
    WordPress with the flag absent comes from the generator tag alone,
    with no detector of the chain holding. *)
Theorem wordpress_flag_implies_cms
        (html : string) (headers : Js.Obj string) (baseUrl : string) (t : TechStack) :
  eval net (detectTechStack html headers baseUrl) = Returned t ->
  (tget Key.isWordPress t = None \/ tget Key.isWordPress t = Some (VBool true)) /\
  (tget Key.isWordPress t = Some (VBool true) -> tget Key.cms t = Some (VStr "WordPress")) /\
  (tget Key.cms t = Some (VStr "WordPress") ->
   tget Key.isWordPress t = None ->
   exists api,
     eval net (isWordPressViaAPI baseUrl) = Returned api /\
     Forall (fun e => snd e = false) (cms_chain (cheerio_load html) api) /\
     generator (cheerio_load html) = Some "WordPress").
Proof.
  intros H.
  destruct (final_record _ _ _ H) as [api [Hapi [Hcms [Hflag _]]]].
  cbv zeta in *. rewrite Hcms, Hflag. clear Hcms Hflag H.
  unfold cms_section, cms_chain.
  destruct (isShopify (cheerio_load html)) eqn:E1;
    [fields; repeat split; [now left | discriminate | discriminate]|].
  destruct (isSquarespace (cheerio_load html)) eqn:E2;
    [fields; repeat split; [now left | discriminate | discriminate]|].
  destruct (isWix (cheerio_load html)) eqn:E3;
    [fields; repeat split; [now left | discriminate | discriminate]|].
  destruct (isWordPress (cheerio_load html) || api) eqn:E4;
    [fields; repeat split; [now right | discriminate]|].
  destruct (isDrupal (cheerio_load html)) eqn:E5;
    [fields; repeat split; [now left | discriminate | discriminate]|].
  destruct (isJoomla (cheerio_load html)) eqn:E6;
    [fields; repeat split; [now left | discriminate | discriminate]|].
  destruct (generator (cheerio_load html)) as [g|]; fields.
  - repeat split; [now left | discriminate |].
    intros Hg _. injection Hg as ->.
    exists api. split; [exact Hapi|]. split; [|reflexivity].
    repeat constructor; simpl; assumption.
  - repeat split; [now left | discriminate | discriminate].
Qed.

(** C1, as amended. On every evidence bundle on which the CMS chain
    selects WordPress -- the Shopify, Squarespace and Wix detectors do not
    hold and the WordPress markup detector or the discovery probe does --
    the record has cms WordPress, isWordPress true and no cssFrameworks
    field, whatever the CSS-framework detectors find on the page. *)
Theorem wordpress_suppresses_css
        (html : string) (headers : Js.Obj string) (baseUrl : string)
        (t : TechStack) (api : bool) :
  eval net (detectTechStack html headers baseUrl) = Returned t ->
  eval net (isWordPressViaAPI baseUrl) = Returned api ->
  isShopify (cheerio_load html) = false ->
  isSquarespace (cheerio_load html) = false ->
  isWix (cheerio_load html) = false ->
  isWordPress (cheerio_load html) || api = true ->
  tget Key.cms t = Some (VStr "WordPress") /\
  tget Key.isWordPress t = Some (VBool true) /\
  tget Key.cssFrameworks t = None.
Proof.
  intros H Hapi Hs Hq Hw Hwp.
  destruct (final_record _ _ _ H) as [api' [Hapi' [Hcms [Hflag Hcss]]]].
  rewrite Hapi in Hapi'. injection Hapi' as <-. cbv zeta in *.
  unfold cms_section in *. rewrite Hs, Hq, Hw, Hwp in *.
  rewrite Hcms, Hflag, Hcss.
  - fields. repeat split.
  - unfold wordpress_flag. fields. reflexivity.
Qed.

End Cms.

(* ================================================================== *)
(** ** Case-insensitive literals *)
(* ================================================================== *)

Section Literals.

Import Rx.

Lemma m_lit (p : string) :
  forall prev s k,
    (forall q t, k q t = true) ->
    ci_prefix p s = true ->
    m true (lit p) prev s k = true.
Proof.
  induction p as [|c p IH]; intros prev s k Hk Hp.
  - simpl. apply Hk.
  - destruct s as [|x s]; [discriminate Hp|].
    cbn [ci_prefix] in Hp. apply andb_prop in Hp. destruct Hp as [Hc Hp].
    destruct p as [|c' p'].
    + cbn [lit m]. rewrite Hc. apply Hk.
    + change (lit (String c (String c' p'))) with (Seq (Chr c) (lit (String c' p'))).
      cbn [m]. rewrite Hc. now apply IH.
Qed.

Lemma search_lit (p : string) :
  forall s prev,
    (exists a b, s = (a ++ b)%string /\ ci_prefix p b = true) ->
    search true (lit p) prev s = true.
Proof.
  induction s as [|x s IH]; intros prev [a [b [Hs Hp]]].
  - destruct a; [|discriminate Hs]. simpl in Hs. subst b.
    simpl. rewrite m_lit; auto.
  - cbn [search].
    destruct a as [|y a].
    + simpl in Hs. subst b. rewrite m_lit; auto.
    + simpl in Hs. injection Hs as -> ->.
      destruct (m true (lit p) prev _ _); [reflexivity|].
      apply IH. eauto.
Qed.

Lemma lower_char_ascii (x : ascii) :
  Js.code (Js.lower_char x) < 128 ->
  Js.lower_ascii (Js.lower_char x) = Js.lower_ascii x.
Proof.
  destruct x as [[] [] [] [] [] [] [] []]; vm_compute; intros H;
    first [reflexivity | exfalso; lia].
Qed.

Lemma prefix_lower (p : string) :
  ascii_only p ->
  forall s, String.prefix p (Js.toLowerCase s) = true -> ci_prefix p s = true.
Proof.
  induction p as [|c p IH]; intros Hp s H; [reflexivity|].
  destruct s as [|x s]; [discriminate H|].
  simpl in H. destruct (ascii_dec c (Js.lower_char x)) as [E|]; [|discriminate H].
  simpl. apply andb_true_intro. split.
  - unfold chr_eq. apply Ascii.eqb_eq. subst c. apply lower_char_ascii.
    apply Hp. now left.
  - apply IH; [|exact H]. intros c' Hc'. apply Hp. now right.
Qed.

Lemma includes_split (p s : string) :
  Js.includes p s = true -> exists a b, s = (a ++ b)%string /\ String.prefix p b = true.
Proof.
  induction s as [|x s IH]; simpl; intros H.
  - apply orb_true_iff in H. destruct H as [H|H]; [|discriminate H].
    exists "", "". now split.
  - apply orb_true_iff in H. destruct H as [H|H].
    + exists "", (String x s). now split.
    + destruct (IH H) as [a [b [-> Hb]]]. exists (String x a), b. now split.
Qed.

Lemma toLowerCase_app_inv (s a b : string) :
  Js.toLowerCase s = (a ++ b)%string ->
  exists a' b', s = (a' ++ b')%string /\ Js.toLowerCase b' = b.
Proof.
  revert a. induction s as [|x s IH]; intros a H.
  - destruct a; [|discriminate H]. simpl in H. subst b. exists "", "". now split.
  - destruct a as [|y a].
    + simpl in H. subst b. exists "", (String x s). now split.
    + simpl in H. injection H as _ H. destruct (IH _ H) as [a' [b' [-> Hb]]].
      exists (String x a'), b'. now split.
Qed.

(** The text lower-cased contains an ASCII needle only if the literal
    matches under the [i] flag. *)
Lemma includes_lower_test (p s : string) :
  ascii_only p ->
  Js.includes p (Js.toLowerCase s) = true ->
  test (ci (lit p)) s = true.
Proof.
  intros Hp H. unfold test. simpl.
  apply includes_split in H. destruct H as [a [b [Hs Hb]]].
  apply toLowerCase_app_inv in Hs. destruct Hs as [a' [b' [-> <-]]].
  apply search_lit. exists a', b'. split; [reflexivity|].
  now apply prefix_lower.
Qed.

Lemma ascii_only_cloudflare : ascii_only "cloudflare".
Proof.
  intros c Hc. simpl in Hc.
  repeat (destruct Hc as [<-|Hc]; [vm_compute; lia|]). contradiction.
Qed.

End Literals.

(* ================================================================== *)
(** ** Edge against origin *)
(* ================================================================== *)

Section Edge.

Import Http.

Context {RT : Runtime}.
Variable net : Net.

Lemma fold_set_get (k : string) (headers acc : Js.Obj string) :
  NoDup (Js.keys headers) ->
  Forall (fun k => Js.toLowerCase k = k) (Js.keys headers) ->
  Js.get k (fold_left (fun h kv => Js.set (Js.toLowerCase (fst kv)) (snd kv) h) headers acc) =
  match Js.get k headers with
  | Some v => Some v
  | None => Js.get k acc
  end.
Proof.
  revert acc. induction headers as [|[k1 v1] headers IH]; intros acc Hnd Hlow; [reflexivity|].
  simpl in *. inversion Hnd as [|? ? Hnotin Hnd']; subst.
  inversion Hlow as [|? ? Hk1 Hlow']; subst.
  rewrite IH by assumption. rewrite Hk1.
  destruct (String.eqb k k1) eqn:E.
  - apply String.eqb_eq in E. subst k1.
    rewrite (get_not_in _ _ Hnotin). apply get_set_same.
  - destruct (Js.get k headers); [reflexivity|].
    apply get_set_other. intros ->. now rewrite String.eqb_refl in E.
Qed.

Lemma lower_keys_get (k : string) (headers : Js.Obj string) :
  lowercased headers -> Js.get k (lower_keys headers) = Js.get k headers.
Proof.
  intros [Hnd Hlow]. unfold lower_keys. rewrite fold_set_get by assumption.
  now destruct (Js.get k headers).
Qed.

Lemma inferCDN_cloudflare (headers : Js.Obj string) (v : string) :
  lowercased headers ->
  Js.get "server" headers = Some v ->
  Rx.test (Rx.ci (Rx.lit "cloudflare")) v = true ->
  In "Cloudflare" (inferCDN headers).
Proof.
  intros Hl Hv Ht. unfold inferCDN. cbv zeta.
  rewrite !(lower_keys_get _ Hl), Hv.
  change (Js.or_empty (Some v)) with v. rewrite Ht.
  rewrite !orb_true_r.
  do 5 apply add_if_keeps. apply add_if_adds.
Qed.

Lemma tset_not_nil (f : Key.Field) (v : Value) (t : TechStack) : tset f v t <> [].
Proof.
  unfold tset. destruct t as [|[k' v'] t]; simpl; [discriminate|].
  destruct (String.eqb _ k'); discriminate.
Qed.

Lemma edge_cdn (headers : Js.Obj string) (tech : TechStack) (x : string) :
  In x (inferCDN headers) ->
  exists l, tget Key.cdn (detect_edge headers tech) = Some (VList l) /\ In x l.
Proof.
  intros Hin. unfold detect_edge.
  assert (H : tget Key.cdn (set_if_nonempty Key.cdn (inferCDN headers) tech) =
              Some (VList (inferCDN headers))).
  { destruct (inferCDN headers); [contradiction|]. apply tget_tset_same. }
  exists (inferCDN headers). split; [|exact Hin].
  destruct (inferHosting headers) as [h|]; [|exact H].
  destruct (Js.truthy h); [|exact H].
  rewrite tget_tset_other by discriminate. exact H.
Qed.

Lemma ensureCdn_keeps (name x : string) (tech : TechStack) (l : list string) :
  tget Key.cdn tech = Some (VList l) -> In x l ->
  exists l', tget Key.cdn (ensureCdn name tech) = Some (VList l') /\ In x l'.
Proof.
  intros Hl Hx. unfold ensureCdn, cdn_list. rewrite Hl, tget_tset_same.
  eexists. split; [reflexivity|].
  destruct (existsb _ l); [exact Hx | apply in_or_app; now left].
Qed.

Lemma clear_server_cdn (tech : TechStack) :
  tget Key.cdn (clear_server tech) = tget Key.cdn tech.
Proof. unfold clear_server. now rewrite tget_tset_other by discriminate. Qed.

Lemma dedupe_keeps_cdn (tech : TechStack) (l : list string) (x : string) :
  tget Key.cdn tech = Some (VList l) -> In x l ->
  exists l', tget Key.cdn (dedupeEdgeVsOrigin tech) = Some (VList l') /\ In x l'.
Proof.
  intros Hl Hx. unfold dedupeEdgeVsOrigin.
  destruct (tget Key.server tech) as [[srv| | |]|]; eauto.
  destruct (negb (Js.truthy srv)); eauto. cbv zeta.
  repeat match goal with
         | |- context [if ?c then _ else _] => destruct c
         end;
    rewrite ?clear_server_cdn; eauto using ensureCdn_keeps.
Qed.

(** The final pass on the labels a Cloudflare header can be mapped to. *)
Lemma dedupe_label (tech : TechStack) (label : string) :
  tget Key.server tech = Some (VStr label) ->
  (label = "Cloudflare" \/ label = "Google Frontend" ->
   tget Key.server (dedupeEdgeVsOrigin tech) = Some VUndefined) /\
  (label = "Apache HTTP Server" \/ label = "NGINX" ->
   dedupeEdgeVsOrigin tech = tech).
Proof.
  intros Hs. unfold dedupeEdgeVsOrigin. rewrite Hs.
  split; intros [-> | ->]; cbv zeta.
  - change (Js.includes "cloudflare" (Js.toLowerCase "Cloudflare")) with true.
    cbn match. unfold clear_server. apply tget_tset_same.
  - change (negb (Js.truthy "Google Frontend")) with false.
    change (Js.includes "cloudflare" (Js.toLowerCase "Google Frontend")) with false.
    change (Js.includes "fastly" (Js.toLowerCase "Google Frontend")) with false.
    change (Js.includes "akamai" (Js.toLowerCase "Google Frontend")) with false.
    change (Js.includes "cloudfront" (Js.toLowerCase "Google Frontend")) with false.
    change (Js.includes "google frontend" (Js.toLowerCase "Google Frontend")) with true.
    cbn match. unfold clear_server. apply tget_tset_same.
  - reflexivity.
  - reflexivity.
Qed.

Lemma alias_of_cloudflare (v : string) :
  Rx.test (Rx.ci (Rx.lit "cloudflare")) v = true ->
  match origin_alias v with
  | Some label =>
      first_alias serverHeaderAliases v = label /\
      (label = "Apache HTTP Server" \/ label = "NGINX")
  | None =>
      first_alias serverHeaderAliases v = "Cloudflare" \/
      first_alias serverHeaderAliases v = "Google Frontend"
  end.
Proof.
  intros Hcf. unfold origin_alias, serverHeaderAliases. cbn [first_alias].
  rewrite Hcf.
  repeat match goal with
         | |- context [Rx.test ?r v] => destruct (Rx.test r v)
         end;
    cbv iota; auto.
Qed.

Lemma test_empty_cloudflare : Rx.test (Rx.ci (Rx.lit "cloudflare")) "" = false.
Proof. reflexivity. Qed.

Lemma server_label (headers : Js.Obj string) (tech : TechStack) (v : string) :
  Js.get "server" headers = Some v ->
  Rx.test (Rx.ci (Rx.lit "cloudflare")) v = true ->
  tget Key.server (detect_server headers tech) =
  Some (VStr (first_alias serverHeaderAliases v)).
Proof.
  intros Hv Ht. unfold detect_server, mapServerHeader. rewrite Hv.
  assert (Htr : Js.truthy v = true).
  { destruct v; [rewrite test_empty_cloudflare in Ht; discriminate Ht | reflexivity]. }
  rewrite Htr. rewrite tget_tset_same. do 2 f_equal.
  pose proof (@alias_of_cloudflare v Ht) as Ha.
  destruct (origin_alias v) as [label|].
  - destruct Ha as [-> [-> | ->]]; reflexivity.
  - destruct Ha as [-> | ->]; reflexivity.
Qed.

Lemma dedupe_nil (tech : TechStack) : dedupeEdgeVsOrigin tech = [] -> tech = [].
Proof.
  unfold dedupeEdgeVsOrigin.
  destruct (tget Key.server tech) as [[srv| | |]|]; auto.
  destruct (negb (Js.truthy srv)); auto. cbv zeta. unfold clear_server.
  repeat match goal with
         | |- context [if ?c then _ else _] => destruct c
         end;
    auto; intros H; exfalso; exact (tset_not_nil _ _ _ H).
Qed.

Lemma quiet_page (jsSet : Js.StrSet) (tech : TechStack) :
  header_sections [] jsSet tech = [] -> tech = [] /\ jsSet = [].
Proof.
  intros H.
  assert (E : header_sections [] jsSet tech =
              dedupeEdgeVsOrigin (set_if_nonempty Key.javascriptFrameworks jsSet tech))
    by reflexivity.
  rewrite E in H. apply dedupe_nil in H.
  destruct jsSet as [|x js]; [now split|].
  exfalso. exact (tset_not_nil _ _ _ H).
Qed.

(** C2, as amended. For every evidence bundle (header names unique and in
    lower case) whose Server header contains cloudflare in any letter case,
    Cloudflare is in the cdn list of the record.  The server field is
    absent unless the header also names Apache or NGINX (and is not taken
    for a Google front end), in which case it holds that alias.  For the
    headers that consist of server: cloudflare alone, on a page that
    matches no signature, the record is cdn = Cloudflare and nothing else. *)
Theorem cloudflare_header_goes_to_cdn
        (html : string) (headers : Js.Obj string) (baseUrl : string)
        (t : TechStack) (v : string) :
  lowercased headers ->
  Js.get "server" headers = Some v ->
  Js.includes "cloudflare" (Js.toLowerCase v) = true ->
  eval net (detectTechStack html headers baseUrl) = Returned t ->
  (exists l, tget Key.cdn t = Some (VList l) /\ In "Cloudflare" l) /\
  match origin_alias v with
  | Some label => tget Key.server t = Some (VStr label)
  | None => absent Key.server t
  end /\
  (headers = [("server", "cloudflare")] ->
   eval net (detectTechStack html [] baseUrl) = Returned [] ->
   to_json t = [("cdn", VList ["Cloudflare"])]).
Proof.
  intros Hl Hv Hinc H.
  pose proof (@includes_lower_test "cloudflare" v ascii_only_cloudflare Hinc) as Ht.
  rewrite detectTechStack_split in H.
  destruct (eval net (markup_sections html baseUrl)) as [[t5 js]|] eqn:E; [|discriminate H].
  injection H as <-. unfold header_sections.
  set (t6 := detect_compression headers t5).
  set (t7 := detect_server headers t6).
  set (t8 := detect_platform headers js t7).
  set (t9 := detect_edge headers t8).
  assert (Hsrv : tget Key.server t9 = Some (VStr (first_alias serverHeaderAliases v))).
  { unfold t9. rewrite (detect_edge_writes headers t8 (f:=Key.server)).
    - unfold t8. rewrite (detect_platform_writes headers js t7 (f:=Key.server)).
      + apply server_label; assumption.
      + simpl. intros C. repeat (destruct C as [C|C]; [discriminate C|]). exact C.
    - simpl. intros C. repeat (destruct C as [C|C]; [discriminate C|]). exact C. }
  destruct (@edge_cdn headers t8 "Cloudflare" (@inferCDN_cloudflare headers v Hl Hv Ht))
    as [l [Hcdn Hin]].
  fold t9 in Hcdn.
  split; [exact (@dedupe_keeps_cdn t9 l "Cloudflare" Hcdn Hin)|].
  pose proof (@alias_of_cloudflare v Ht) as Ha.
  destruct (@dedupe_label t9 _ Hsrv) as [Hedge Horigin].
  split.
  - destruct (origin_alias v) as [label|].
    + destruct Ha as [Ea Hor]. rewrite Ea in Horigin, Hsrv.
      rewrite (Horigin Hor). exact Hsrv.
    + right. apply Hedge. exact Ha.
  - intros -> Hquiet. rewrite detectTechStack_split, E in Hquiet.
    injection Hquiet as Hquiet. apply quiet_page in Hquiet.
    destruct Hquiet as [-> ->]. reflexivity.
Qed.

End Edge.

(* ================================================================== *)
(** ** The script work-list *)
(* ================================================================== *)

Section Worklist.

Context {RT : Runtime}.

Lemma insert_perm (c : candidate) (l : list candidate) :
  Permutation (insert_by_priority c l) (c :: l).
Proof.
  induction l as [|d l IH]; simpl; [reflexivity|].
  destruct (priority c <=? priority d); [reflexivity|].
  rewrite IH. apply perm_swap.
Qed.

Lemma sort_perm (l : list candidate) : Permutation (sort_by_priority l) l.
Proof.
  induction l as [|c l IH]; simpl; [reflexivity|].
  rewrite insert_perm. now constructor.
Qed.

Lemma insert_sorted (c : candidate) (l : list candidate) :
  Sorted by_priority l -> Sorted by_priority (insert_by_priority c l).
Proof.
  induction 1 as [|d l Hl IH Hd]; simpl; [repeat constructor|].
  destruct (priority c <=? priority d) eqn:E.
  - apply Nat.leb_le in E. repeat constructor; assumption.
  - apply Nat.leb_gt in E. constructor; [exact IH|].
    destruct l as [|e l]; simpl.
    + constructor. unfold by_priority. lia.
    + destruct (priority c <=? priority e); constructor.
      * unfold by_priority. lia.
      * now inversion Hd.
Qed.

Lemma sort_sorted (l : list candidate) : StronglySorted by_priority (sort_by_priority l).
Proof.
  apply Sorted_StronglySorted.
  - intros a b c Hab Hbc. unfold by_priority in *. lia.
  - induction l as [|c l IH]; simpl; [constructor | now apply insert_sorted].
Qed.

Lemma to_candidate_priority (baseUrl baseHost : string) (e : Dom.element) (c : candidate) :
  to_candidate baseUrl baseHost e = Some c ->
  priority c = (if isModule c then 0 else 1) + (if sameOrigin c then 0 else 1).
Proof.
  unfold to_candidate. cbv zeta.
  destruct (negb (Js.truthy _)); [discriminate|].
  destruct (URL_resolve _ baseUrl) as [r|]; [|discriminate].
  destruct (URL_new (href r)) as [u|]; [|discriminate].
  intros H. injection H as <-. reflexivity.
Qed.

Lemma non_null_in {A} (l : list (option A)) (x : A) : In x (non_null l) -> In (Some x) l.
Proof.
  induction l as [|[y|] l IH]; simpl; [tauto | | tauto].
  intros [-> | H]; [now left | right; now apply IH].
Qed.

Lemma to_candidate_reference (baseUrl baseHost : string) (e : Dom.element) (c : candidate) :
  to_candidate baseUrl baseHost e = Some c -> reference_of baseUrl baseHost e c.
Proof.
  unfold to_candidate, reference_of, reference_address, module_reference. cbv zeta.
  set (raw := Js.trim _).
  destruct (Js.truthy raw) eqn:Hraw; cbn [negb]; [|discriminate].
  destruct (URL_resolve raw baseUrl) as [r|] eqn:Hr; [|discriminate].
  destruct (URL_new (href r)) as [u|] eqn:Hu; [|discriminate].
  intros H. injection H as <-. split.
  - intros Hblank. rewrite Hblank in Hraw. discriminate Hraw.
  - exists r, u. repeat split; assumption.
Qed.

Lemma reference_to_candidate (baseUrl baseHost : string) (e : Dom.element) (c : candidate) :
  reference_of baseUrl baseHost e c -> to_candidate baseUrl baseHost e <> None.
Proof.
  unfold to_candidate, reference_of, reference_address. cbv zeta.
  intros [Hraw [r [u [Hr [Hu _]]]]].
  set (raw := Js.trim _) in *.
  assert (Ht : Js.truthy raw = true).
  { unfold Js.truthy. destruct (String.eqb raw "") eqn:E; [|reflexivity].
    apply String.eqb_eq in E. contradiction. }
  rewrite Ht, Hr, Hu. discriminate.
Qed.

(** The candidates are the references of the page that resolve, in the
    order of the page, each described by its element. *)
Lemma candidates_described (d : Dom.Cheerio) (baseUrl baseHost : string) :
  exists keep : Dom.element -> bool,
    (forall e, keep e = true <-> exists c, reference_of baseUrl baseHost e c) /\
    Forall2 (reference_of baseUrl baseHost) (filter keep (script_nodes d))
            (candidates d baseUrl baseHost).
Proof.
  exists (fun e => match to_candidate baseUrl baseHost e with
                   | Some _ => true
                   | None => false
                   end).
  split.
  - intros e. split.
    + destruct (to_candidate baseUrl baseHost e) as [c|] eqn:E; [|discriminate].
      intros _. exists c. now apply to_candidate_reference.
    + intros [c Hc]. apply reference_to_candidate in Hc.
      destruct (to_candidate baseUrl baseHost e); [reflexivity | contradiction].
  - unfold candidates. induction (script_nodes d) as [|e l IH]; simpl; [constructor|].
    destruct (to_candidate baseUrl baseHost e) as [c|] eqn:E; [|exact IH].
    constructor; [now apply to_candidate_reference | exact IH].
Qed.

(** C6, as amended. The work-list of a page holds at most 12 URLs; they
    are the URLs of the first candidates when the script and preload
    references of the page are put in order of priority, so that a
    reference left out never ranks before one taken.  The candidates are
    the references of the page whose address is not blank and resolves, in
    the order of the page: each carries the resolved address, whether its
    element has type module (in any letter case) and whether the resolved
    address is on the host of the page, and its priority is
    (module ? 0 : 1) + (same origin ? 0 : 1): 0 for a module script of the
    site, 2 for a classic script of another host, 1 for the others.  A URL
    referenced more than once is listed once per reference. *)
Theorem worklist_is_capped_and_ranked (d : Dom.Cheerio) (baseUrl : string)
        (urls : list string) :
  pickTopScripts d baseUrl = Some urls ->
  List.length urls <= MAX_SCRIPT_REQUESTS /\
  exists b chosen rest,
    URL_new baseUrl = Some b /\
    urls = map url chosen /\
    Permutation (chosen ++ rest) (candidates d baseUrl (host b)) /\
    StronglySorted by_priority (chosen ++ rest) /\
    (rest <> [] -> List.length chosen = MAX_SCRIPT_REQUESTS) /\
    (forall c, In c (candidates d baseUrl (host b)) ->
               priority c = (if isModule c then 0 else 1) + (if sameOrigin c then 0 else 1)) /\
    (forall c, In c (chosen ++ rest) ->
               (priority c = 0 <-> module_of_the_site c = true) /\
               (priority c = 1 <-> module_or_of_the_site c = true) /\
               (priority c = 2 <-> foreign_classic c = true)) /\
    exists keep : Dom.element -> bool,
      (forall e, keep e = true <-> exists c, reference_of baseUrl (host b) e c) /\
      Forall2 (reference_of baseUrl (host b)) (filter keep (script_nodes d))
              (candidates d baseUrl (host b)).
Proof.
  unfold pickTopScripts, slice0.
  destruct (URL_new baseUrl) as [b|]; [|discriminate].
  set (sorted := sort_by_priority (candidates d baseUrl (host b))).
  intros H.
  assert (Hurls : urls = map url (firstn MAX_SCRIPT_REQUESTS sorted)) by congruence.
  clear H. subst urls.
  assert (Hprio : forall c, In c (candidates d baseUrl (host b)) ->
            priority c = (if isModule c then 0 else 1) + (if sameOrigin c then 0 else 1)).
  { intros c Hc. unfold candidates in Hc. apply non_null_in in Hc.
    apply in_map_iff in Hc. destruct Hc as [e [He _]].
    exact (to_candidate_priority _ _ _ He). }
  split.
  - rewrite length_map. apply firstn_le_length.
  - exists b, (firstn MAX_SCRIPT_REQUESTS sorted), (skipn MAX_SCRIPT_REQUESTS sorted).
    rewrite firstn_skipn.
    split; [reflexivity|]. split; [reflexivity|].
    split; [apply sort_perm|]. split; [apply sort_sorted|].
    split; [|split; [exact Hprio|split]].
    + intros Hrest. apply firstn_length_le.
      destruct (le_lt_dec MAX_SCRIPT_REQUESTS (List.length sorted)) as [Hle|Hlt];
        [exact Hle|].
      exfalso. apply Hrest. apply skipn_all2. lia.
    + intros c Hc.
      assert (Hin : In c (candidates d baseUrl (host b)))
        by (eapply Permutation_in; [apply sort_perm | exact Hc]).
      rewrite (Hprio c Hin).
      unfold module_of_the_site, module_or_of_the_site, foreign_classic.
      destruct (isModule c), (sameOrigin c); simpl;
        repeat split; intros; first [reflexivity | discriminate | lia].
    + apply candidates_described.
Qed.

End Worklist.

(* ================================================================== *)
(** ** The route *)
(* ================================================================== *)

Section RouteAnswers.

Import Http.

Context {RT : Runtime}.

Lemma prop_is_object (name : string) (body v : Json) :
  prop name body = Some v -> exists fields, body = JObj fields.
Proof. destruct body; simpl; try discriminate. eauto. Qed.

(** The three answers of the route to a document that is not analysed, with
    the one request each of them costs. *)
Lemma POST_unreachable (net : Net) (req : NextRequest) (body : Json) (u : string)
      (why : failure) :
  body_json req = Some body ->
  prop "url" body = Some (JStr u) ->
  u <> "" ->
  net DocumentGet u = Failed why ->
  eval net (POST req) = Returned (mkNext (ErrorBody "Error fetching the URL") 502) /\
  trace net (POST req) = [(DocumentGet, u)].
Proof.
  intros Hbody Hurl Hu Hnet.
  destruct (prop_is_object _ _ Hurl) as [fields ->].
  assert (Htr : Js.truthy u = true) by (destruct u; [contradiction | reflexivity]).
  unfold POST. rewrite Hbody. cbn [lift bind destructure_url]. rewrite Hurl, Htr.
  cbn [negb]. unfold get. cbn [bind try_catch eval trace].
  rewrite Hnet. cbn [validateStatus bind try_catch eval trace].
  split; reflexivity.
Qed.

Lemma POST_forbidden (net : Net) (req : NextRequest) (body : Json) (u : string)
      (r : response) :
  body_json req = Some body ->
  prop "url" body = Some (JStr u) ->
  u <> "" ->
  net DocumentGet u = Responded r ->
  status r = 403 ->
  eval net (POST req) =
    Returned (mkNext (ErrorBody "Access to the URL is forbidden (403).") 403) /\
  trace net (POST req) = [(DocumentGet, u)].
Proof.
  intros Hbody Hurl Hu Hnet Hst.
  destruct (prop_is_object _ _ Hurl) as [fields ->].
  assert (Htr : Js.truthy u = true) by (destruct u; [contradiction | reflexivity]).
  unfold POST. rewrite Hbody. cbn [lift bind destructure_url]. rewrite Hurl, Htr.
  cbn [negb]. unfold get. cbn [bind try_catch eval trace].
  rewrite Hnet. cbn [validateStatus bind try_catch eval trace]. rewrite Hst.
  split; reflexivity.
Qed.

Lemma POST_error_status (net : Net) (req : NextRequest) (body : Json) (u : string)
      (r : response) :
  body_json req = Some body ->
  prop "url" body = Some (JStr u) ->
  u <> "" ->
  net DocumentGet u = Responded r ->
  400 <= status r ->
  status r <> 403 ->
  eval net (POST req) =
    Returned (mkNext (ErrorBody (String.append "Target responded with "
                                               (Js.string_of_nat (status r)))) 400) /\
  trace net (POST req) = [(DocumentGet, u)].
Proof.
  intros Hbody Hurl Hu Hnet H400 H403.
  destruct (prop_is_object _ _ Hurl) as [fields ->].
  assert (Htr : Js.truthy u = true) by (destruct u; [contradiction | reflexivity]).
  apply Nat.eqb_neq in H403. apply Nat.leb_le in H400.
  unfold POST. rewrite Hbody. cbn [lift bind destructure_url]. rewrite Hurl, Htr.
  cbn [negb]. unfold get. cbn [bind try_catch eval trace].
  rewrite Hnet. cbn [validateStatus bind try_catch eval trace]. rewrite H403, H400.
  split; reflexivity.
Qed.

(** The decimal text of a number of three digits is its three digits. *)
Lemma string_of_nat_three_digits (n : nat) :
  100 <= n -> n < 1000 ->
  Js.string_of_nat n =
    String (Ascii.ascii_of_nat (48 + n / 100))
           (String (Ascii.ascii_of_nat (48 + n / 10 mod 10))
                   (String (Ascii.ascii_of_nat (48 + n mod 10)) "")).
Proof.
  intros Hlo Hhi.
  assert (Hall : forallb (fun n =>
                   String.eqb (Js.string_of_nat n)
                     (String (Ascii.ascii_of_nat (48 + n / 100))
                        (String (Ascii.ascii_of_nat (48 + n / 10 mod 10))
                           (String (Ascii.ascii_of_nat (48 + n mod 10)) ""))))
                   (seq 100 900) = true) by (vm_compute; reflexivity).
  rewrite forallb_forall in Hall.
  apply String.eqb_eq. apply Hall. apply in_seq. lia.
Qed.

End RouteAnswers.

Section Route.

Import Http.

Context {RT : Runtime}.
Variable net : Net.

(** C3. A request whose primary document is answered with status 403 gets
    the access-denied response: HTTP status 403 with the message Access to
    the URL is forbidden (403)., after the one request for the document.
    It is not the fetch-failure response, which is status 502 with the
    message Error fetching the URL and is what the same request gets on a
    network where the document cannot be fetched; nor is it the generic
    answer 400 of the other error statuses. *)
Theorem forbidden_is_access_denied (req : NextRequest) (body : Json) (u : string)
        (r : response) :
  body_json req = Some body ->
  prop "url" body = Some (JStr u) ->
  u <> "" ->
  net DocumentGet u = Responded r ->
  status r = 403 ->
  eval net (POST req) =
    Returned (mkNext (ErrorBody "Access to the URL is forbidden (403).") 403) /\
  trace net (POST req) = [(DocumentGet, u)] /\
  (forall (down : Net) (why : failure),
      down DocumentGet u = Failed why ->
      eval down (POST req) = Returned (mkNext (ErrorBody "Error fetching the URL") 502) /\
      eval down (POST req) <> eval net (POST req)) /\
  (forall answer, eval net (POST req) = Returned answer ->
      next_status answer = 403 /\
      next_status answer <> 502 /\
      next_status answer <> 400 /\
      next_body answer <> ErrorBody "Error fetching the URL" /\
      next_body answer <> ErrorBody "Target responded with 403").
Proof.
  intros Hbody Hurl Hu Hnet Hst.
  destruct (POST_forbidden net req Hbody Hurl Hu Hnet Hst) as [Hev Htr].
  split; [exact Hev|]. split; [exact Htr|]. split.
  - intros down why Hdown.
    destruct (POST_unreachable down req Hbody Hurl Hu Hdown) as [Hd _].
    split; [exact Hd|]. rewrite Hd, Hev. discriminate.
  - intros answer Ha. rewrite Hev in Ha. injection Ha as <-. simpl.
    repeat split; discriminate.
Qed.

(** C4, as amended. A request whose body carries no string url is answered
    with status 400 and no request is sent, neither for the document nor
    for a script nor for the discovery probe.  The message is URL is
    required for every JSON value but null; the body null fails in the
    destructuring and gets the message Invalid request body. *)
Theorem missing_url_is_rejected_offline (req : NextRequest) (body : Json) :
  body_json req = Some body ->
  lacks_url body ->
  eval net (POST req) =
    Returned (error_response
                (match body with
                 | JNull => "Invalid request body"
                 | _ => "URL is required"
                 end) 400) /\
  calls net (POST req) = 0.
Proof.
  intros Hbody Hlack. unfold POST, calls. rewrite Hbody. cbn [lift bind].
  destruct body as [| b | n | s | items | fields];
    cbn [destructure_url lift bind prop try_catch eval trace]; try (split; reflexivity).
  destruct (Js.get "url" fields) as [[| b | n | s | items | fs]|] eqn:E;
    cbn [try_catch eval trace]; try (split; reflexivity).
  exfalso. apply (Hlack s). exact E.
Qed.

End Route.

(* ================================================================== *)
(** ** Frozen evidence *)
(* ================================================================== *)

Section Frozen.

Import Http.

Context {RT : Runtime}.
Variables net1 net2 : Net.
Variable d : Dom.Cheerio.
Variable baseUrl : string.

Hypothesis scripts : same_scripts net1 net2 d baseUrl.
Hypothesis probe : same_probe net1 net2 baseUrl.

Lemma alike_ret {A} (a : A) : alike net1 net2 (Ret a).
Proof. reflexivity. Qed.

Lemma alike_bind {A B} (p : Prog A) (f : A -> Prog B) :
  alike net1 net2 p -> (forall a, alike net1 net2 (f a)) -> alike net1 net2 (bind p f).
Proof.
  unfold alike. intros Hp Hf. rewrite !eval_bind, Hp.
  destruct (eval net2 p); [apply Hf | reflexivity].
Qed.

Lemma alike_mapM {A B} (f : A -> Prog B) (l : list A) :
  (forall x, In x l -> alike net1 net2 (f x)) -> alike net1 net2 (mapM f l).
Proof.
  induction l as [|x l IH]; intros H; simpl; [apply alike_ret|].
  apply alike_bind; [apply H; now left|].
  intros y. apply alike_bind; [|intros; apply alike_ret].
  apply IH. intros z Hz. apply H. now right.
Qed.

Lemma alike_scan (matcher : string -> bool) :
  alike net1 net2 (containsInScripts d baseUrl matcher).
Proof.
  unfold alike. rewrite !eval_containsInScripts.
  pose proof scripts as Hs. unfold same_scripts, worklist in Hs.
  destruct (pickTopScripts d baseUrl) as [urls|]; [|reflexivity].
  f_equal. induction urls as [|u urls IH]; simpl; [reflexivity|].
  rewrite IH by (intros v Hv; apply Hs; now right).
  unfold script_matches at 1 3. rewrite (Hs u (or_introl eq_refl)). reflexivity.
Qed.

Lemma alike_probe : alike net1 net2 (isWordPressViaAPI baseUrl).
Proof.
  unfold alike, isWordPressViaAPI. rewrite !eval_try_catch, !eval_bind.
  pose proof probe as Hp. unfold same_probe in Hp.
  destruct (URL_resolve "/wp-json" baseUrl) as [u|]; simpl; [|reflexivity].
  rewrite (Hp u eq_refl).
  destruct (net2 ProbeGet (href u)) as [why|r]; simpl; [reflexivity|].
  repeat match goal with
         | |- context [if ?c then _ else _] => destruct c; simpl
         end;
    reflexivity.
Qed.

Ltac alike_step :=
  match goal with
  | |- alike _ _ (Ret _) => apply alike_ret
  | |- alike _ _ (containsInScripts _ _ _) => apply alike_scan
  | |- alike _ _ (isWordPressViaAPI _) => apply alike_probe
  | |- alike _ _ (bind _ _) => apply alike_bind; [|intros]
  | |- alike _ _ (if ?c then _ else _) => destruct c
  | |- alike _ _ (match ?x with _ => _ end) => destruct x
  | |- alike _ _ (let _ := _ in _) => cbv zeta
  end.

Ltac alike_detector := cbv zeta; repeat alike_step.

Lemma alike_detections :
  forall np, In np (jsDetections d baseUrl) -> alike net1 net2 (snd np).
Proof.
  intros np H. unfold jsDetections in H. simpl in H.
  repeat (destruct H as [<-|H];
          [ cbn [snd];
            unfold containsReact, containsVue, containsAngular, containsNextJs,
                   containsGatsby, containsSvelte, containsEmber, containsNuxtJs,
                   containsPolymer, containsjQuery, containsBackbone, containsDojo,
                   containsMeteor, containsAstro, containsRemix;
            alike_detector | ]).
  contradiction.
Qed.

Lemma alike_cms (tech : TechStack) : alike net1 net2 (detect_cms d baseUrl tech).
Proof. unfold detect_cms. alike_detector. Qed.

Lemma alike_js (tech : TechStack) : alike net1 net2 (detect_js d baseUrl tech).
Proof.
  unfold detect_js. cbv zeta. apply alike_bind; [|intros; apply alike_ret].
  apply alike_mapM. apply alike_detections.
Qed.

Lemma alike_css (tech : TechStack) : alike net1 net2 (detect_css d baseUrl tech).
Proof.
  unfold detect_css, containsMaterialUI, containsSemanticUI, containsMaterializeCSS.
  alike_detector.
Qed.

Lemma alike_analytics (tech : TechStack) : alike net1 net2 (detect_analytics d baseUrl tech).
Proof.
  unfold detect_analytics, containsGoogleAnalytics, containsGoogleTagManager,
         containsMatomo, containsPlausible, containsMixpanel, containsAmplitude,
         containsSegment.
  alike_detector.
Qed.

Lemma alike_build (html : string) (tech : TechStack) :
  alike net1 net2 (detect_build html d baseUrl tech).
Proof. unfold detect_build. alike_detector. Qed.

Lemma alike_markup (html : string) :
  cheerio_load html = d -> alike net1 net2 (markup_sections html baseUrl).
Proof.
  intros Hd. unfold markup_sections. rewrite Hd. cbv zeta.
  apply alike_bind; [apply alike_cms | intros t1].
  apply alike_bind; [apply alike_js | intros [t2 js]].
  apply alike_bind; [apply alike_css | intros t3].
  apply alike_bind; [apply alike_analytics | intros t4].
  apply alike_bind; [apply alike_build | intros t5].
  apply alike_ret.
Qed.

End Frozen.

(* ================================================================== *)
(** ** The statements at the sample inputs *)
(* ================================================================== *)

Module AtSamples.

Import Http Sample.

#[local] Existing Instance Sample.runtime.

(** C1 fails as stated.  On the WordPress page with jQuery the WordPress
    detector holds and the record lists jQuery under javascriptFrameworks;
    on the WordPress page with a Shopify storefront the WordPress detector
    holds too, yet Shopify comes first in the chain: the flag is not set
    and Bootstrap is listed under cssFrameworks. *)
Lemma wordpress_detected_frameworks_reported :
  isWordPress (cheerio_load wordpress_jquery_html) = true /\
  eval offline (detectTechStack wordpress_jquery_html [] site) =
    Returned wordpress_jquery_record /\
  isWordPress (cheerio_load wordpress_shopify_html) = true /\
  eval offline (detectTechStack wordpress_shopify_html [] site) =
    Returned wordpress_shopify_record.
Proof. repeat split; vm_compute; reflexivity. Qed.

Lemma wordpress_suppresses_css_witness :
  containsBootstrap (cheerio_load wordpress_bootstrap_html) = true /\
  eval offline (detect_css (cheerio_load wordpress_bootstrap_html) site []) =
    Returned [("cssFrameworks", VList ["Bootstrap"])] /\
  eval offline (detectTechStack wordpress_bootstrap_html [] site) =
    Returned wordpress_bootstrap_record /\
  eval offline (isWordPressViaAPI site) = Returned false /\
  isShopify (cheerio_load wordpress_bootstrap_html) = false /\
  isSquarespace (cheerio_load wordpress_bootstrap_html) = false /\
  isWix (cheerio_load wordpress_bootstrap_html) = false /\
  isWordPress (cheerio_load wordpress_bootstrap_html) || false = true /\
  tget Key.cms wordpress_bootstrap_record = Some (VStr "WordPress") /\
  tget Key.isWordPress wordpress_bootstrap_record = Some (VBool true) /\
  tget Key.cssFrameworks wordpress_bootstrap_record = None.
Proof.
  assert (H1 : eval offline (detectTechStack wordpress_bootstrap_html [] site) =
               Returned wordpress_bootstrap_record) by (vm_compute; reflexivity).
  assert (H2 : eval offline (isWordPressViaAPI site) = Returned false)
    by (vm_compute; reflexivity).
  assert (H3 : isShopify (cheerio_load wordpress_bootstrap_html) = false)
    by (vm_compute; reflexivity).
  assert (H4 : isSquarespace (cheerio_load wordpress_bootstrap_html) = false)
    by (vm_compute; reflexivity).
  assert (H5 : isWix (cheerio_load wordpress_bootstrap_html) = false)
    by (vm_compute; reflexivity).
  assert (H6 : isWordPress (cheerio_load wordpress_bootstrap_html) || false = true)
    by (vm_compute; reflexivity).
  split; [vm_compute; reflexivity|].
  split; [vm_compute; reflexivity|].
  repeat (split; [assumption|]).
  exact (@wordpress_suppresses_css Sample.runtime offline wordpress_bootstrap_html [] site
           wordpress_bootstrap_record false H1 H2 H3 H4 H5 H6).
Defined.

(** C2 fails as stated.  The header cloudflare-nginx contains cloudflare;
    the alias table maps it to NGINX, which the final pass leaves in the
    server field. *)
Lemma cloudflare_nginx_stays_in_server :
  Js.includes "cloudflare" (Js.toLowerCase "cloudflare-nginx") = true /\
  eval offline (detectTechStack "" [("server", "cloudflare-nginx")] site) =
    Returned [("server", VStr "NGINX"); ("cdn", VList ["Cloudflare"])].
Proof. split; vm_compute; reflexivity. Qed.

Lemma cloudflare_header_goes_to_cdn_witness :
  lowercased [("server", "cloudflare")] /\
  Js.get "server" [("server", "cloudflare")] = Some "cloudflare" /\
  Js.includes "cloudflare" (Js.toLowerCase "cloudflare") = true /\
  eval offline (detectTechStack "" [("server", "cloudflare")] site) =
    Returned cloudflare_record /\
  (exists l, tget Key.cdn cloudflare_record = Some (VList l) /\ In "Cloudflare" l) /\
  match origin_alias "cloudflare" with
  | Some label => tget Key.server cloudflare_record = Some (VStr label)
  | None => absent Key.server cloudflare_record
  end /\
  ([("server", "cloudflare")] = [("server", "cloudflare")] ->
   eval offline (detectTechStack "" [] site) = Returned [] ->
   to_json cloudflare_record = [("cdn", VList ["Cloudflare"])]).
Proof.
  assert (H1 : lowercased [("server", "cloudflare")]).
  { split; simpl; repeat constructor. simpl. tauto. }
  assert (H2 : Js.get "server" [("server", "cloudflare")] = Some "cloudflare")
    by reflexivity.
  assert (H3 : Js.includes "cloudflare" (Js.toLowerCase "cloudflare") = true)
    by (vm_compute; reflexivity).
  assert (H4 : eval offline (detectTechStack "" [("server", "cloudflare")] site) =
               Returned cloudflare_record) by (vm_compute; reflexivity).
  repeat (split; [assumption|]).
  exact (@cloudflare_header_goes_to_cdn Sample.runtime offline "" [("server", "cloudflare")]
           site cloudflare_record "cloudflare" H1 H2 H3 H4).
Defined.

Lemma forbidden_is_access_denied_witness :
  body_json forbidden_request = Some (JObj [("url", JStr site)]) /\
  prop "url" (JObj [("url", JStr site)]) = Some (JStr site) /\
  site <> "" /\
  answers 403 DocumentGet site = Responded (mkResp 403 [] (JStr "")) /\
  status (mkResp 403 [] (JStr "")) = 403 /\
  eval (answers 403) (POST forbidden_request) =
    Returned (mkNext (ErrorBody "Access to the URL is forbidden (403).") 403) /\
  trace (answers 403) (POST forbidden_request) = [(DocumentGet, site)] /\
  (forall (down : Net) (why : failure),
      down DocumentGet site = Failed why ->
      eval down (POST forbidden_request) =
        Returned (mkNext (ErrorBody "Error fetching the URL") 502) /\
      eval down (POST forbidden_request) <> eval (answers 403) (POST forbidden_request)) /\
  (forall answer, eval (answers 403) (POST forbidden_request) = Returned answer ->
      next_status answer = 403 /\
      next_status answer <> 502 /\
      next_status answer <> 400 /\
      next_body answer <> ErrorBody "Error fetching the URL" /\
      next_body answer <> ErrorBody "Target responded with 403").
Proof.
  assert (H1 : body_json forbidden_request = Some (JObj [("url", JStr site)]))
    by reflexivity.
  assert (H2 : prop "url" (JObj [("url", JStr site)]) = Some (JStr site)) by reflexivity.
  assert (H3 : site <> "") by discriminate.
  assert (H4 : answers 403 DocumentGet site = Responded (mkResp 403 [] (JStr "")))
    by reflexivity.
  assert (H5 : status (mkResp 403 [] (JStr "")) = 403) by reflexivity.
  repeat (split; [assumption|]).
  exact (@forbidden_is_access_denied Sample.runtime (answers 403) forbidden_request
           (JObj [("url", JStr site)]) site (mkResp 403 [] (JStr "")) H1 H2 H3 H4 H5).
Defined.

(** C4 fails as stated.  The body null carries no url; the handler answers
    it with the message Invalid request body, not URL is required. *)
Lemma null_body_is_invalid :
  lacks_url JNull /\
  eval offline (POST (mkReq (Some JNull))) =
    Returned (error_response "Invalid request body" 400) /\
  error_response "Invalid request body" 400 <> error_response "URL is required" 400.
Proof.
  repeat split; [intros u H; discriminate H | discriminate].
Qed.

Lemma missing_url_is_rejected_offline_witness :
  body_json (mkReq (Some (JObj [("uri", JStr site)]))) = Some (JObj [("uri", JStr site)]) /\
  lacks_url (JObj [("uri", JStr site)]) /\
  eval (answers 200) (POST (mkReq (Some (JObj [("uri", JStr site)])))) =
    Returned (error_response "URL is required" 400) /\
  calls (answers 200) (POST (mkReq (Some (JObj [("uri", JStr site)])))) = 0.
Proof.
  assert (H1 : body_json (mkReq (Some (JObj [("uri", JStr site)]))) =
               Some (JObj [("uri", JStr site)])) by reflexivity.
  assert (H2 : lacks_url (JObj [("uri", JStr site)])) by (intros u H; discriminate H).
  repeat (split; [assumption|]).
  exact (@missing_url_is_rejected_offline Sample.runtime (answers 200)
           (mkReq (Some (JObj [("uri", JStr site)]))) (JObj [("uri", JStr site)]) H1 H2).
Defined.

Lemma one_signal_is_not_enough_witness :
  In ("WordPress markup",
      Ret (map (fun rx => Rx.test rx (Dom.html generator_only)) wordpress_signals),
      Ret (isWordPress generator_only))
     (corroborated generator_only site) /\
  eval offline (Ret (map (fun rx => Rx.test rx (Dom.html generator_only)) wordpress_signals)) =
    Returned [false; false; false; false; false; false; true; false] /\
  count_true [false; false; false; false; false; false; true; false] = 1 /\
  eval offline (Ret (isWordPress generator_only)) = Returned false.
Proof.
  assert (H1 : In ("WordPress markup",
                   Ret (map (fun rx => Rx.test rx (Dom.html generator_only))
                            wordpress_signals),
                   Ret (isWordPress generator_only))
                  (corroborated generator_only site)).
  { unfold corroborated. do 8 right. left. reflexivity. }
  assert (H2 : eval offline (Ret (map (fun rx => Rx.test rx (Dom.html generator_only))
                                      wordpress_signals)) =
               Returned [false; false; false; false; false; false; true; false])
    by (vm_compute; reflexivity).
  assert (H3 : count_true [false; false; false; false; false; false; true; false] = 1)
    by reflexivity.
  repeat (split; [assumption|]).
  exact (@one_signal_is_not_enough Sample.runtime offline generator_only site
           _ _ _ _ H1 H2 H3).
Defined.

(** C6 fails as stated.  A script referenced twice is listed twice. *)
Lemma repeated_script_is_listed_twice :
  pickTopScripts repeated_script site = Some repeated_worklist /\
  ~ NoDup repeated_worklist.
Proof.
  split; [vm_compute; reflexivity|].
  intros H. inversion H as [|x l Hnotin _]; subst. apply Hnotin. now left.
Qed.

Lemma worklist_is_capped_and_ranked_witness :
  map summary (candidates many_scripts site "example.com") =
    [ ("https://cdn.example.net/a.js", false, false);
      ("https://example.com/js/b.js", false, true);
      ("https://cdn.example.net/c.mjs", true, false);
      ("https://example.com/js/d.mjs", true, true);
      ("https://example.com/js/e.js", false, true);
      ("https://example.com/js/f.mjs", true, true);
      ("https://example.com/js/p.js", false, true);
      ("https://example.com/js/g1.js", false, true);
      ("https://example.com/js/g2.js", false, true);
      ("https://example.com/js/g3.js", false, true);
      ("https://example.com/js/g4.js", false, true);
      ("https://example.com/js/g5.js", false, true);
      ("https://example.com/js/g6.js", false, true);
      ("https://cdn.example.net/z.js", false, false) ] /\
  List.length (script_nodes many_scripts) = 15 /\
  many_worklist =
    [ "https://example.com/js/d.mjs"; "https://example.com/js/f.mjs";
      "https://example.com/js/b.js"; "https://cdn.example.net/c.mjs";
      "https://example.com/js/e.js"; "https://example.com/js/p.js";
      "https://example.com/js/g1.js"; "https://example.com/js/g2.js";
      "https://example.com/js/g3.js"; "https://example.com/js/g4.js";
      "https://example.com/js/g5.js"; "https://example.com/js/g6.js" ] /\
  pickTopScripts many_scripts site = Some many_worklist /\
  List.length many_worklist <= MAX_SCRIPT_REQUESTS /\
  exists b chosen rest,
    URL_new site = Some b /\
    many_worklist = map url chosen /\
    Permutation (chosen ++ rest) (candidates many_scripts site (host b)) /\
    StronglySorted by_priority (chosen ++ rest) /\
    (rest <> [] -> List.length chosen = MAX_SCRIPT_REQUESTS) /\
    (forall c, In c (candidates many_scripts site (host b)) ->
               priority c = (if isModule c then 0 else 1) + (if sameOrigin c then 0 else 1)) /\
    (forall c, In c (chosen ++ rest) ->
               (priority c = 0 <-> module_of_the_site c = true) /\
               (priority c = 1 <-> module_or_of_the_site c = true) /\
               (priority c = 2 <-> foreign_classic c = true)) /\
    exists keep : Dom.element -> bool,
      (forall e, keep e = true <-> exists c, reference_of site (host b) e c) /\
      Forall2 (reference_of site (host b)) (filter keep (script_nodes many_scripts))
              (candidates many_scripts site (host b)).
Proof.
  assert (H1 : pickTopScripts many_scripts site = Some many_worklist)
    by (vm_compute; reflexivity).
  split; [vm_compute; reflexivity|].
  split; [vm_compute; reflexivity|].
  split; [reflexivity|].
  split; [assumption|].
  exact (@worklist_is_capped_and_ranked Sample.runtime many_scripts site
           many_worklist H1).
Defined.

Lemma cms_first_match_wins_witness :
  eval offline (detectTechStack wordpress_shopify_html [] site) =
    Returned wordpress_shopify_record /\
  eval offline (isWordPressViaAPI site) = Returned false /\
  cms_chain (cheerio_load wordpress_shopify_html) false =
    [] ++ ("Shopify", true) ::
          [ ("Squarespace", false); ("Wix", false); ("WordPress", true);
            ("Drupal", false); ("Joomla", false) ] /\
  tget Key.cms wordpress_shopify_record = Some (VStr "Shopify") /\
  tget Key.isWordPress wordpress_shopify_record = None.
Proof.
  assert (H1 : eval offline (detectTechStack wordpress_shopify_html [] site) =
               Returned wordpress_shopify_record) by (vm_compute; reflexivity).
  assert (H2 : eval offline (isWordPressViaAPI site) = Returned false)
    by (vm_compute; reflexivity).
  assert (H3 : cms_chain (cheerio_load wordpress_shopify_html) false =
               [] ++ ("Shopify", true) ::
                     [ ("Squarespace", false); ("Wix", false); ("WordPress", true);
                       ("Drupal", false); ("Joomla", false) ])
    by (vm_compute; reflexivity).
  repeat (split; [assumption|]).
  exact (proj1 (@cms_first_match_wins Sample.runtime offline wordpress_shopify_html [] site
                  wordpress_shopify_record false H1 H2)
               [] "Shopify" _ H3 (Forall_nil _)).
Defined.

Lemma script_fetch_failures_are_absorbed_witness :
  eval delivers_too (fetchText "https://example.com/static/app.js") =
    Returned (Some "React.createElement(App, null);") /\
  eval delivers_too (fetchText "https://cdn.example.net/lib.js") = Returned None /\
  eval delivers (fetchText "https://cdn.example.net/lib.js") = Returned None /\
  eval delivers_too (containsInScripts repeated_script site react_matcher) = Returned true /\
  eval delivers_too (containsInScripts repeated_script site svelte_matcher) =
    Returned false /\
  eval stalled (containsInScripts repeated_script site react_matcher) = Returned false /\
  pickTopScripts repeated_script site = Some repeated_worklist /\
  (forall u, exists text, eval delivers_too (fetchText u) = Returned text) /\
  (forall u r, delivers_too ScriptGet u = Responded r ->
               default_validate (status r) = true ->
               eval delivers_too (fetchText u) = Returned (Some (body_text (data r)))) /\
  (forall u r s, delivers_too ScriptGet u = Responded r ->
                 default_validate (status r) = true ->
                 data r = JStr s ->
                 eval delivers_too (fetchText u) = Returned (Some s)) /\
  (forall u r, delivers_too ScriptGet u = Responded r ->
               default_validate (status r) = true ->
               (forall s, data r <> JStr s) ->
               eval delivers_too (fetchText u) =
                 Returned (Some (JSON_stringify (data r)))) /\
  (forall u r, delivers_too ScriptGet u = Responded r ->
               default_validate (status r) = false ->
               eval delivers_too (fetchText u) = Returned None) /\
  (forall u why, delivers_too ScriptGet u = Failed why ->
                 eval delivers_too (fetchText u) = Returned None) /\
  eval delivers_too (containsInScripts repeated_script site react_matcher) =
    Returned (existsb (script_matches delivers_too react_matcher) repeated_worklist) /\
  (forall u, eval delivers_too (fetchText u) = Returned None ->
             script_matches delivers_too react_matcher u = false) /\
  (forall u r s, In u repeated_worklist ->
                 delivers_too ScriptGet u = Responded r ->
                 default_validate (status r) = true ->
                 data r = JStr s -> s <> "" -> react_matcher s = true ->
                 eval delivers_too (containsInScripts repeated_script site react_matcher) =
                   Returned true) /\
  ((forall u, In u repeated_worklist -> eval delivers_too (fetchText u) = Returned None) ->
   eval delivers_too (containsInScripts repeated_script site react_matcher) =
     Returned false).
Proof.
  assert (H1 : pickTopScripts repeated_script site = Some repeated_worklist)
    by (vm_compute; reflexivity).
  do 6 (split; [vm_compute; reflexivity|]).
  split; [assumption|].
  exact (@script_fetch_failures_are_absorbed Sample.runtime delivers_too repeated_script
           site react_matcher repeated_worklist H1).
Defined.

(** C9 fails as stated.  The empty page has no script, so any two networks
    give it the same script evidence; with the discovery probe answered on
    one network and not on the other the two records differ. *)
Lemma probe_changes_the_record :
  same_scripts offline only_rest_api (cheerio_load "") site /\
  eval offline (detectTechStack "" [] site) = Returned [] /\
  eval only_rest_api (detectTechStack "" [] site) =
    Returned [("cms", VStr "WordPress"); ("isWordPress", VBool true)].
Proof.
  split; [|split; vm_compute; reflexivity].
  intros u H. vm_compute in H. contradiction.
Qed.

(** C10 fails as stated.  On the page whose only CMS trace is the generator
    tag WordPress no detector of the chain holds; the cms field takes the
    content of the tag and the flag stays absent. *)
Lemma generator_names_wordpress_without_flag :
  eval offline (detectTechStack generator_only_html [] site) =
    Returned [("cms", VStr "WordPress")] /\
  tget Key.cms [("cms", VStr "WordPress")] = Some (VStr "WordPress") /\
  tget Key.isWordPress [("cms", VStr "WordPress")] = None.
Proof. repeat split; vm_compute; reflexivity. Qed.

Lemma wordpress_flag_implies_cms_witness :
  eval offline (detectTechStack wordpress_jquery_html [] site) =
    Returned wordpress_jquery_record /\
  (tget Key.isWordPress wordpress_jquery_record = None \/
   tget Key.isWordPress wordpress_jquery_record = Some (VBool true)) /\
  (tget Key.isWordPress wordpress_jquery_record = Some (VBool true) ->
   tget Key.cms wordpress_jquery_record = Some (VStr "WordPress")) /\
  (tget Key.cms wordpress_jquery_record = Some (VStr "WordPress") ->
   tget Key.isWordPress wordpress_jquery_record = None ->
   exists api,
     eval offline (isWordPressViaAPI site) = Returned api /\
     Forall (fun e => snd e = false) (cms_chain (cheerio_load wordpress_jquery_html) api) /\
     generator (cheerio_load wordpress_jquery_html) = Some "WordPress").
Proof.
  assert (H1 : eval offline (detectTechStack wordpress_jquery_html [] site) =
               Returned wordpress_jquery_record) by (vm_compute; reflexivity).
  split; [assumption|].
  exact (@wordpress_flag_implies_cms Sample.runtime offline wordpress_jquery_html [] site
           wordpress_jquery_record H1).
Defined.

End AtSamples.

(* ================================================================== *)
(** ** Literal patterns against string search *)
(* ================================================================== *)

Section Patterns.

Import Rx.

Lemma m_lit_drop (ci : bool) (p : string) :
  forall prev s (k : string -> bool),
    m ci (lit p) prev s (fun _ t => k t) =
    match drop_prefix ci p s with
    | Some t => k t
    | None => false
    end.
Proof.
  induction p as [|c p IH]; intros prev s k; [reflexivity|].
  destruct p as [|c' p'].
  - destruct s as [|x s]; [reflexivity|]. cbn [lit m drop_prefix].
    destruct (chr_eq ci c x); reflexivity.
  - change (lit (String c (String c' p'))) with (Seq (Chr c) (lit (String c' p'))).
    destruct s as [|x s]; [reflexivity|].
    cbn [m]. cbn [drop_prefix].
    destruct (chr_eq ci c x); [apply IH | reflexivity].
Qed.

Lemma m_alts_drop (ci : bool) (l : list string) :
  forall prev s (k : string -> bool),
    m ci (alts l) prev s (fun _ t => k t) =
    existsb (fun p => match drop_prefix ci p s with
                      | Some t => k t
                      | None => false
                      end) l.
Proof.
  unfold alts. induction l as [|p l IH]; intros prev s k.
  - destruct s; reflexivity.
  - destruct l as [|q l].
    + cbn [map alt existsb]. rewrite m_lit_drop. now rewrite orb_false_r.
    + change (alt (map lit (p :: q :: l))) with (Alt (lit p) (alt (map lit (q :: l)))).
      cbn [m]. rewrite m_lit_drop, IH. cbn [existsb].
      destruct (drop_prefix ci p s) as [t|]; [destruct (k t)|]; reflexivity.
Qed.

Lemma existsb_same {A} (f g : A -> bool) (l : list A) :
  (forall x, f x = g x) -> existsb f l = existsb g l.
Proof.
  intros H. induction l as [|x l IH]; simpl; [reflexivity | now rewrite H, IH].
Qed.

Lemma search_alts (ci : bool) (l : list string) :
  forall s prev, search ci (alts l) prev s = existsb (fun p => lit_includes ci p s) l.
Proof.
  assert (Hex : forall (f g : string -> bool),
             existsb (fun p => f p || g p) l = existsb f l || existsb g l).
  { intros f g. induction l as [|p l' IH]; simpl; [reflexivity|]. rewrite IH.
    destruct (f p), (g p), (existsb f l'); reflexivity. }
  induction s as [|x s IH]; intros prev; cbn [search lit_includes].
  - rewrite (m_alts_drop ci l prev "" (fun _ => true)).
    unfold lit_prefix.
    assert (E : forall p, (match drop_prefix ci p "" with Some _ => true | None => false end
                           || false) =
                          match drop_prefix ci p "" with Some _ => true | None => false end)
      by (intros p; apply orb_false_r).
    rewrite (existsb_same _ _ l E).
    destruct (existsb _ l); reflexivity.
  - rewrite (m_alts_drop ci l prev (String x s) (fun _ => true)), IH, Hex.
    unfold lit_prefix.
    destruct (existsb _ l); reflexivity.
Qed.

Lemma test_alts (ci : bool) (l : list string) (s : string) :
  test (mk (alts l) ci) s = existsb (fun p => lit_includes ci p s) l.
Proof. unfold test. apply search_alts. Qed.

Lemma test_lit (ci : bool) (p s : string) :
  test (mk (lit p) ci) s = lit_includes ci p s.
Proof.
  change (lit p) with (alts [p]). rewrite test_alts. simpl. apply orb_false_r.
Qed.

Lemma prefix_drop (p : string) :
  forall s, String.prefix p s = lit_prefix false p s.
Proof.
  unfold lit_prefix. induction p as [|c p IH]; intros s; [now destruct s|].
  destruct s as [|x s]; [reflexivity|]. simpl. unfold chr_eq.
  destruct (ascii_dec c x) as [->|Hne].
  - rewrite Ascii.eqb_refl. apply IH.
  - destruct (Ascii.eqb_spec c x); [contradiction | reflexivity].
Qed.

Lemma includes_lit (p s : string) : Js.includes p s = lit_includes false p s.
Proof.
  induction s as [|x s IH]; cbn [Js.includes lit_includes]; rewrite prefix_drop;
    [reflexivity | now rewrite IH].
Qed.

Lemma lower_char_cases (x : ascii) :
  Js.lower_char x = Js.lower_ascii x \/
  (128 <= Js.code (Js.lower_char x) /\ 128 <= Js.code (Js.lower_ascii x)).
Proof.
  destruct x as [[] [] [] [] [] [] [] []]; vm_compute;
    first [left; reflexivity | right; split; lia].
Qed.

Lemma lower_ascii_idem (x : ascii) : Js.lower_ascii (Js.lower_ascii x) = Js.lower_ascii x.
Proof. destruct x as [[] [] [] [] [] [] [] []]; reflexivity. Qed.

Lemma chr_eq_lower (c x : ascii) :
  Js.code c < 128 -> Js.lower_ascii c = c ->
  chr_eq true c x = chr_eq false c (Js.lower_char x).
Proof.
  intros Hc Hl. unfold chr_eq. rewrite Hl.
  destruct (lower_char_cases x) as [-> | [H1 H2]]; [reflexivity|].
  destruct (Ascii.eqb_spec c (Js.lower_ascii x)) as [E|_];
    [rewrite <- E in H2; lia|].
  destruct (Ascii.eqb_spec c (Js.lower_char x)) as [E|_];
    [rewrite <- E in H1; lia | reflexivity].
Qed.

Lemma drop_prefix_lower (p : string) :
  plain p ->
  forall s, lit_prefix true p s = lit_prefix false p (Js.toLowerCase s).
Proof.
  unfold lit_prefix. induction p as [|c p IH]; intros Hp s; [reflexivity|].
  destruct s as [|x s]; [reflexivity|]. cbn [drop_prefix Js.toLowerCase].
  destruct (Hp c (or_introl eq_refl)) as [Hc Hl].
  rewrite (chr_eq_lower x Hc Hl).
  destruct (chr_eq false c (Js.lower_char x)); [|reflexivity].
  apply IH. intros c' Hc'. apply Hp. now right.
Qed.

Lemma lit_includes_lower (p s : string) :
  plain p -> lit_includes true p s = Js.includes p (Js.toLowerCase s).
Proof.
  intros Hp. rewrite includes_lit.
  induction s as [|x s IH]; cbn [lit_includes Js.toLowerCase];
    rewrite (drop_prefix_lower Hp); [reflexivity | now rewrite IH].
Qed.

(** [/p/i.test(s)] is [s.toLowerCase().includes(p)] for a plain needle. *)
Lemma test_ci_includes (p s : string) :
  plain p -> test (ci (lit p)) s = Js.includes p (Js.toLowerCase s).
Proof. intros Hp. unfold ci. rewrite test_lit. now apply lit_includes_lower. Qed.

(** [/a|b/.test(s)] is [s.includes(a) || s.includes(b)]. *)
Lemma test_cs_includes (l : list string) (s : string) :
  test (cs (alts l)) s = existsb (fun p => Js.includes p s) l.
Proof.
  unfold cs. rewrite test_alts. apply existsb_same. intros p. now rewrite includes_lit.
Qed.

Ltac plain_needle :=
  let c := fresh "c" in
  let H := fresh "H" in
  intros c H; simpl in H;
  repeat (destruct H as [<-|H]; [split; [vm_compute; lia | reflexivity]|]);
  contradiction.

Lemma plain_vercel : plain "vercel".
Proof. plain_needle. Qed.

End Patterns.

(* ================================================================== *)
(** ** The shape of the record *)
(* ================================================================== *)

Section Shape.

Import Http.

Context {RT : Runtime}.
Variable net : Net.

Ltac step H :=
  rewrite eval_bind in H;
  match type of H with
  | context [match eval net ?p with _ => _ end] =>
      let a := fresh "a" in
      let E := fresh "E" in
      destruct (eval net p) as [a|] eqn:E; [cbv beta zeta in H | discriminate H]
  end.

Lemma add_nodup (x : string) (s : Js.StrSet) : NoDup s -> NoDup (Js.add x s).
Proof.
  intros Hs. unfold Js.add, Js.has. destruct (existsb (String.eqb x) s) eqn:E; [exact Hs|].
  apply NoDup_app; [exact Hs | repeat constructor; intros [] |].
  intros y Hy Hy'. destruct Hy' as [Hxy|[]]. subst y.
  assert (Hex : existsb (String.eqb x) s = true)
    by (apply existsb_exists; exists x; split; [exact Hy | apply String.eqb_refl]).
  rewrite Hex in E. discriminate E.
Qed.

Lemma add_if_nodup (c : bool) (x : string) (s : Js.StrSet) :
  NoDup s -> NoDup (add_if c x s).
Proof. unfold add_if. destruct c; [apply add_nodup | trivial]. Qed.

Lemma collect_hits_nodup (names : list string) (hits : list bool) :
  NoDup (collect_hits names hits).
Proof.
  unfold collect_hits.
  assert (H : forall l acc, NoDup acc ->
             NoDup (fold_left (fun (s : Js.StrSet) (nh : string * bool) =>
                                 if snd nh then Js.add (fst nh) s else s) l acc)).
  { induction l as [|[n h] l IH]; intros acc Hacc; simpl; [exact Hacc|].
    apply IH. destruct h; [now apply add_nodup | exact Hacc]. }
  apply H. constructor.
Qed.

Lemma detect_js_set (d : Dom.Cheerio) (baseUrl : string) (tech tech' : TechStack)
      (jsSet : Js.StrSet) :
  eval net (detect_js d baseUrl tech) = Returned (tech', jsSet) -> NoDup jsSet.
Proof.
  unfold detect_js. intros H. step H. simpl in H. injection H as _ <-.
  apply collect_hits_nodup.
Qed.

Lemma detect_css_shape (d : Dom.Cheerio) (baseUrl : string) (tech tech' : TechStack) :
  eval net (detect_css d baseUrl tech) = Returned tech' ->
  exists css, tech' = set_if_nonempty Key.cssFrameworks css tech.
Proof.
  unfold detect_css. intros H.
  destruct (negb (wordpress_flag tech)).
  - step H. step H. step H. simpl in H. injection H as <-. eauto.
  - simpl in H. injection H as <-. exists []. reflexivity.
Qed.

Lemma detect_analytics_shape (d : Dom.Cheerio) (baseUrl : string) (tech tech' : TechStack) :
  eval net (detect_analytics d baseUrl tech) = Returned tech' ->
  exists l, tech' = set_if_nonempty Key.analytics l tech.
Proof.
  unfold detect_analytics. intros H.
  step H. step H. step H. step H. step H. step H. step H.
  simpl in H. injection H as <-. eauto.
Qed.

Lemma detect_build_shape (html : string) (d : Dom.Cheerio) (baseUrl : string)
      (tech tech' : TechStack) :
  eval net (detect_build html d baseUrl tech) = Returned tech' ->
  exists l, tech' = set_if_nonempty Key.buildTools l tech.
Proof.
  unfold detect_build. intros H. step H. step H. step H.
  simpl in H. injection H as <-. eauto.
Qed.

(** The record the first half returns: the CMS section, then one optional
    list per section. *)
Lemma markup_sections_shape (html : string) (baseUrl : string) (tech : TechStack)
      (jsSet : Js.StrSet) :
  eval net (markup_sections html baseUrl) = Returned (tech, jsSet) ->
  exists api css an ma mo pa bu,
    eval net (isWordPressViaAPI baseUrl) = Returned api /\
    NoDup jsSet /\
    tech =
      set_if_nonempty Key.buildTools bu
        (set_if_nonempty Key.payments pa
           (set_if_nonempty Key.monitoring mo
              (set_if_nonempty Key.marketing ma
                 (set_if_nonempty Key.analytics an
                    (set_if_nonempty Key.cssFrameworks css
                       (set_if_nonempty Key.javascriptFrameworks jsSet
                          (cms_section (cheerio_load html) api []))))))).
Proof.
  unfold markup_sections. cbv zeta. intros H.
  destruct (probe_returns net baseUrl) as [api Hapi].
  rewrite eval_bind, (eval_detect_cms _ _ _ _ Hapi) in H.
  step H. destruct a as [t2 js].
  pose proof (detect_js_set _ _ _ E) as Hnd.
  apply eval_detect_js in E. subst t2.
  step H. apply detect_css_shape in E. destruct E as [css ->].
  step H. apply detect_analytics_shape in E. destruct E as [an ->].
  step H. apply detect_build_shape in E. destruct E as [bu ->].
  simpl in H. injection H as <- <-.
  exists api, css, an. eexists. eexists. eexists. exists bu.
  split; [exact Hapi|]. split; [exact Hnd|]. reflexivity.
Qed.

End Shape.

(* ================================================================== *)
(** ** What every record satisfies *)
(* ================================================================== *)

Section Invariants.

Import Http.

Context {RT : Runtime}.
Variable net : Net.

Lemma set_settled (k : string) (v : Value) (o : TechStack) :
  Forall settled o -> settled (k, v) -> Forall settled (Js.set k v o).
Proof.
  intros Ho Hv. induction Ho as [|[k' v'] o Hkv Ho IH]; simpl.
  - constructor; [exact Hv | constructor].
  - destruct (String.eqb k k'); constructor; assumption.
Qed.

Lemma tset_settled (f : Key.Field) (v : Value) (t : TechStack) :
  Forall settled t -> filled v \/ v = VUndefined -> Forall settled (tset f v t).
Proof. intros Ht Hv. apply set_settled; assumption. Qed.

Lemma set_if_nonempty_settled (f : Key.Field) (xs : list string) (t : TechStack) :
  Forall settled t -> Forall settled (set_if_nonempty f xs t).
Proof.
  intros Ht. destruct xs as [|x xs]; [exact Ht|].
  apply tset_settled; [exact Ht|]. left. simpl. discriminate.
Qed.

Lemma truthy_nonempty (s : string) : Js.truthy s = true -> s <> "".
Proof. intros H ->. discriminate H. Qed.

Lemma generator_nonempty (d : Dom.Cheerio) (g : string) : generator d = Some g -> g <> "".
Proof.
  unfold generator. destruct (Dom.first_attr d _ "content") as [c|]; [|discriminate].
  destruct (Js.truthy c) eqn:Hc; [|discriminate].
  intros H. injection H as <-. now apply truthy_nonempty.
Qed.

Lemma cms_section_settled (d : Dom.Cheerio) (api : bool) :
  Forall settled (cms_section d api []).
Proof.
  unfold cms_section.
  destruct (isShopify d);
    [apply tset_settled; [constructor | left; simpl; discriminate]|].
  destruct (isSquarespace d);
    [apply tset_settled; [constructor | left; simpl; discriminate]|].
  destruct (isWix d);
    [apply tset_settled; [constructor | left; simpl; discriminate]|].
  destruct (isWordPress d || api).
  { apply tset_settled; [|left; reflexivity].
    apply tset_settled; [constructor | left; simpl; discriminate]. }
  destruct (isDrupal d);
    [apply tset_settled; [constructor | left; simpl; discriminate]|].
  destruct (isJoomla d);
    [apply tset_settled; [constructor | left; simpl; discriminate]|].
  destruct (generator d) as [g|] eqn:G; [|constructor].
  apply tset_settled; [constructor|]. left. simpl. exact (generator_nonempty _ G).
Qed.

Lemma ensureCdn_settled (name : string) (t : TechStack) :
  Forall settled t -> Forall settled (ensureCdn name t).
Proof.
  intros Ht. unfold ensureCdn. apply tset_settled; [exact Ht|]. left. simpl.
  destruct (existsb _ (cdn_list t)) eqn:E.
  - destruct (cdn_list t); [discriminate E | discriminate].
  - destruct (cdn_list t); discriminate.
Qed.

Lemma dedupe_settled (t : TechStack) :
  Forall settled t -> Forall settled (dedupeEdgeVsOrigin t).
Proof.
  intros Ht. unfold dedupeEdgeVsOrigin, clear_server.
  destruct (tget Key.server t) as [[srv| | |]|]; try exact Ht.
  destruct (negb (Js.truthy srv)); [exact Ht|]. cbv zeta.
  repeat match goal with
         | |- context [if ?c then _ else _] => destruct c
         end;
    first [ exact Ht
          | apply tset_settled; [|now right];
            first [apply ensureCdn_settled; exact Ht | exact Ht] ].
Qed.

Lemma header_sections_settled (headers : Js.Obj string) (js : Js.StrSet) (t : TechStack) :
  Forall settled t -> Forall settled (header_sections headers js t).
Proof.
  intros Ht. unfold header_sections. apply dedupe_settled.
  unfold detect_edge.
  assert (H1 : Forall settled (detect_compression headers t))
    by (apply set_if_nonempty_settled; exact Ht).
  assert (H2 : Forall settled (detect_server headers (detect_compression headers t))).
  { unfold detect_server. destruct (Js.get "server" headers) as [raw|]; [|exact H1].
    destruct (Js.truthy raw) eqn:Hraw; [|exact H1].
    destruct (mapServerHeader (Some raw)) as [label|].
    - apply tset_settled; [exact H1|]. left. simpl.
      destruct (Js.truthy label) eqn:Hl; now apply truthy_nonempty.
    - apply tset_settled; [exact H1|]. left. simpl. now apply truthy_nonempty. }
  assert (H3 : Forall settled
                 (detect_platform headers js
                    (detect_server headers (detect_compression headers t)))).
  { unfold detect_platform. destruct (Js.get "x-powered-by" headers) as [raw|].
    - destruct (Js.truthy raw) eqn:Hraw.
      + apply set_if_nonempty_settled. destruct (negb _); [|exact H2].
        apply tset_settled; [exact H2|]. left. simpl. now apply truthy_nonempty.
      + apply set_if_nonempty_settled. exact H2.
    - apply set_if_nonempty_settled. exact H2. }
  destruct (inferHosting headers) as [h|].
  - destruct (Js.truthy h) eqn:Hh.
    + apply tset_settled; [apply set_if_nonempty_settled; exact H3|].
      left. simpl. now apply truthy_nonempty.
    + apply set_if_nonempty_settled. exact H3.
  - apply set_if_nonempty_settled. exact H3.
Qed.

Lemma to_json_filled (t : TechStack) :
  Forall settled t -> Forall (fun kv => filled (snd kv)) (to_json t).
Proof.
  intros Ht. unfold to_json. induction Ht as [|[k v] t Hkv Ht IH]; simpl; [constructor|].
  destruct v; simpl; try (constructor; [|exact IH]).
  - destruct Hkv as [H|H]; [exact H | discriminate H].
  - destruct Hkv as [H|H]; [exact H | discriminate H].
  - destruct Hkv as [H|H]; [exact H | discriminate H].
  - exact IH.
Qed.

(** What is serialised of a record: no empty string, no empty list, no
    flag that is down. *)
Lemma record_fields_filled
        (html : string) (headers : Js.Obj string) (baseUrl : string) (t : TechStack) :
  eval net (detectTechStack html headers baseUrl) = Returned t ->
  Forall (fun kv => filled (snd kv)) (to_json t).
Proof.
  intros H. rewrite detectTechStack_split in H.
  destruct (eval net (markup_sections html baseUrl)) as [[t5 js]|] eqn:E; [|discriminate H].
  injection H as <-.
  destruct (markup_sections_shape _ _ _ E)
    as [api [css [an [ma [mo [pa [bu [_ [_ ->]]]]]]]]].
  apply to_json_filled, header_sections_settled.
  repeat apply set_if_nonempty_settled. apply cms_section_settled.
Qed.

End Invariants.

(* ================================================================== *)
(** ** The final pass and the header sections *)
(* ================================================================== *)

Section FinalPass.

Import Http.

Context {RT : Runtime}.

Lemma cdn_list_get (tech : TechStack) (l : list string) :
  tget Key.cdn tech = Some (VList l) -> cdn_list tech = l.
Proof. intros H. unfold cdn_list. now rewrite H. Qed.

Lemma cdn_list_nonempty (tech : TechStack) :
  cdn_list tech <> [] -> tget Key.cdn tech = Some (VList (cdn_list tech)).
Proof.
  unfold cdn_list. destruct (tget Key.cdn tech) as [[s|l|b|]|]; intros H;
    first [reflexivity | now contradiction H].
Qed.

Lemma ensureCdn_get (name : string) (tech : TechStack) :
  exists l, tget Key.cdn (ensureCdn name tech) = Some (VList l) /\ l <> [] /\
            (NoDup (map Js.toLowerCase (cdn_list tech)) -> NoDup (map Js.toLowerCase l)).
Proof.
  unfold ensureCdn. rewrite tget_tset_same. eexists. split; [reflexivity|].
  destruct (existsb _ (cdn_list tech)) eqn:E.
  - split; [|trivial]. destruct (cdn_list tech); [discriminate E | discriminate].
  - split; [destruct (cdn_list tech); discriminate|].
    intros Hnd. rewrite map_app. apply NoDup_app; [exact Hnd | repeat constructor; intros [] |].
    intros y Hy Hy'. destruct Hy' as [Hxy|[]]. subst y.
    apply in_map_iff in Hy. destruct Hy as [c [Hc Hin]].
    assert (Hex : existsb (fun c => String.eqb (Js.toLowerCase c) (Js.toLowerCase name))
                          (cdn_list tech) = true).
    { apply existsb_exists. exists c. split; [exact Hin|]. now apply String.eqb_eq. }
    rewrite Hex in E. discriminate E.
Qed.

Lemma clear_server_get (tech : TechStack) :
  tget Key.server (clear_server tech) = Some VUndefined.
Proof. apply tget_tset_same. Qed.

(** The final pass either leaves the record alone or clears the server and
    makes sure of a CDN entry. *)
Lemma dedupe_cases (tech : TechStack) :
  dedupeEdgeVsOrigin tech = tech \/
  (exists srv,
      tget Key.server tech = Some (VStr srv) /\
      tget Key.server (dedupeEdgeVsOrigin tech) = Some VUndefined /\
      exists l, tget Key.cdn (dedupeEdgeVsOrigin tech) = Some (VList l) /\ l <> [] /\
                (NoDup (map Js.toLowerCase (cdn_list tech)) ->
                 NoDup (map Js.toLowerCase l))).
Proof.
  unfold dedupeEdgeVsOrigin.
  destruct (tget Key.server tech) as [[srv| | |]|] eqn:Hs; try (now left).
  destruct (negb (Js.truthy srv)); [now left|]. cbv zeta.
  assert (Hclear : forall name,
             exists l, tget Key.cdn (clear_server (ensureCdn name tech)) = Some (VList l) /\
                       l <> [] /\
                       (NoDup (map Js.toLowerCase (cdn_list tech)) ->
                        NoDup (map Js.toLowerCase l))).
  { intros name. rewrite clear_server_cdn. apply ensureCdn_get. }
  repeat match goal with
         | |- context [if Js.includes ?n ?s then _ else _] => destruct (Js.includes n s)
         | |- context [if ?a || ?b || ?c then _ else _] => destruct (a || b || c)
         end;
    try (right; exists srv; split; [reflexivity|]; split;
         [apply clear_server_get | apply Hclear]);
    try (now left).
  right. exists srv. split; [reflexivity|]. split; [apply clear_server_get|].
  destruct (negb (existsb _ (cdn_list tech))) eqn:E; [apply Hclear|].
  rewrite clear_server_cdn.
  exists (cdn_list tech).
  assert (Hne : cdn_list tech <> []).
  { intros Hnil. rewrite Hnil in E. discriminate E. }
  split; [now apply cdn_list_nonempty|]. split; [exact Hne | trivial].
Qed.

Lemma includes_nothing_in_empty :
  Forall (fun n => Js.includes n (Js.toLowerCase "") = false) edge_names.
Proof. repeat constructor. Qed.

(** A label the final pass leaves in place names no edge network. *)
Lemma dedupe_keeps_only_origins (tech : TechStack) (s : string) :
  tget Key.server (dedupeEdgeVsOrigin tech) = Some (VStr s) ->
  Forall (fun n => Js.includes n (Js.toLowerCase s) = false) edge_names.
Proof.
  unfold dedupeEdgeVsOrigin.
  destruct (tget Key.server tech) as [[srv| | |]|] eqn:Hs;
    try (intros H; rewrite Hs in H; discriminate H).
  destruct (Js.truthy srv) eqn:Ht; cbn [negb].
  2:{ intros H. rewrite Hs in H. injection H as <-.
      destruct srv; [apply includes_nothing_in_empty | discriminate Ht]. }
  cbv zeta.
  destruct (Js.includes "cloudflare" _) eqn:E1;
    [intros H; rewrite clear_server_get in H; discriminate H|].
  destruct (Js.includes "fastly" _) eqn:E2;
    [intros H; rewrite clear_server_get in H; discriminate H|].
  destruct (Js.includes "akamai" _) eqn:E3;
    [intros H; rewrite clear_server_get in H; discriminate H|].
  destruct (Js.includes "cloudfront" _) eqn:E4;
    [intros H; rewrite clear_server_get in H; discriminate H|].
  destruct (Js.includes "google frontend" _) eqn:E5; cbn [orb];
    [intros H; rewrite clear_server_get in H; discriminate H|].
  destruct (Js.includes "gws" _) eqn:E6; cbn [orb];
    [intros H; rewrite clear_server_get in H; discriminate H|].
  destruct (Js.includes "esf" _) eqn:E7;
    [intros H; rewrite clear_server_get in H; discriminate H|].
  destruct (Js.includes "vercel" _) eqn:E8;
    [intros H; rewrite clear_server_get in H; discriminate H|].
  intros H. rewrite Hs in H. injection H as <-.
  unfold edge_names. repeat constructor; assumption.
Qed.

(** X20. The final pass is idempotent: run on its own result it changes
    nothing. *)
Theorem final_pass_is_idempotent (tech : TechStack) :
  dedupeEdgeVsOrigin (dedupeEdgeVsOrigin tech) = dedupeEdgeVsOrigin tech.
Proof.
  destruct (dedupe_cases tech) as [H | [srv [_ [H _]]]].
  - rewrite H. exact H.
  - unfold dedupeEdgeVsOrigin at 1. now rewrite H.
Qed.

Lemma inferCDN_nodup (headers : Js.Obj string) :
  NoDup (map Js.toLowerCase (inferCDN headers)).
Proof.
  unfold inferCDN. cbv zeta.
  repeat match goal with
         | |- context [add_if ?c _ _] =>
             lazymatch c with
             | true => fail
             | false => fail
             | _ => destruct c
             end
         end;
    vm_compute; repeat constructor; simpl; intuition discriminate.
Qed.

(** *** The header sections on a record without header fields *)

Ltac not_listed :=
  let C := fresh "C" in
  simpl; intros C; repeat (destruct C as [C|C]; [discriminate C|]); exact C.

Lemma cms_section_fields (d : Dom.Cheerio) (api : bool) (f : Key.Field) :
  f <> Key.cms -> f <> Key.isWordPress -> tget f (cms_section d api []) = None.
Proof.
  intros H1 H2. unfold cms_section.
  repeat match goal with
         | |- context [if ?c then _ else _] => destruct c
         | |- context [match ?x with Some _ => _ | None => _ end] => destruct x
         end;
    rewrite ?tget_tset_other by assumption; reflexivity.
Qed.

Variable net : Net.

Lemma markup_leaves_header_fields (html baseUrl : string) (tech : TechStack)
      (jsSet : Js.StrSet) :
  eval net (markup_sections html baseUrl) = Returned (tech, jsSet) ->
  forall f, In f header_only_fields -> tget f tech = None.
Proof.
  intros H f Hf.
  destruct (markup_sections_inv _ _ _ H) as [api [_ [Hw _]]]. cbv zeta in Hw.
  rewrite (Hw f).
  - apply cms_section_fields; intros ->; simpl in Hf;
      repeat (destruct Hf as [Hf|Hf]; [discriminate Hf|]); exact Hf.
  - unfold markup_fields. simpl in Hf.
    repeat (destruct Hf as [<-|Hf]; [not_listed|]). contradiction.
Qed.

Lemma before_final_pass (headers : Js.Obj string) (jsSet : Js.StrSet) (tech : TechStack) :
  (forall f, In f header_only_fields -> tget f tech = None) ->
  let t9 := detect_edge headers
              (detect_platform headers jsSet
                 (detect_server headers (detect_compression headers tech))) in
  cdn_list t9 = inferCDN headers /\
  (tget Key.server t9 = None \/ exists s, tget Key.server t9 = Some (VStr s)).
Proof.
  intros Hfree. cbv zeta.
  set (t6 := detect_compression headers tech).
  set (t7 := detect_server headers t6).
  set (t8 := detect_platform headers jsSet t7).
  split.
  - assert (H8 : tget Key.cdn t8 = None).
    { unfold t8. rewrite (detect_platform_writes headers jsSet t7 (f:=Key.cdn)) by not_listed.
      unfold t7. rewrite (detect_server_writes headers t6 (f:=Key.cdn)) by not_listed.
      unfold t6. rewrite (detect_compression_writes headers tech (f:=Key.cdn)) by not_listed.
      apply Hfree. simpl. tauto. }
    unfold detect_edge, cdn_list.
    assert (H9 : tget Key.cdn (set_if_nonempty Key.cdn (inferCDN headers) t8) =
                 match inferCDN headers with [] => None | l => Some (VList l) end).
    { destruct (inferCDN headers); simpl; [exact H8 | apply tget_tset_same]. }
    destruct (inferHosting headers) as [h|]; [destruct (Js.truthy h)|];
      rewrite ?tget_tset_other by discriminate; rewrite H9;
      destruct (inferCDN headers); reflexivity.
  - rewrite (detect_edge_writes headers t8 (f:=Key.server)) by not_listed.
    unfold t8. rewrite (detect_platform_writes headers jsSet t7 (f:=Key.server)) by not_listed.
    unfold t7, detect_server.
    assert (H6 : tget Key.server t6 = None).
    { unfold t6. rewrite (detect_compression_writes headers tech (f:=Key.server)) by not_listed.
      apply Hfree. simpl. tauto. }
    destruct (Js.get "server" headers) as [raw|]; [|now left].
    destruct (Js.truthy raw); [|now left].
    destruct (mapServerHeader (Some raw)); right; rewrite tget_tset_same; eauto.
Qed.

(** X18. The server field of a record never names an edge network: a
    label that contains cloudflare, fastly, akamai, cloudfront, google
    frontend, gws, esf or vercel (in any letter case) is cleared by the
    final pass, and whenever the server was cleared the cdn list is
    present and not empty. *)
Theorem server_never_names_an_edge
        (html : string) (headers : Js.Obj string) (baseUrl : string) (t : TechStack) :
  eval net (detectTechStack html headers baseUrl) = Returned t ->
  (forall s, tget Key.server t = Some (VStr s) ->
             Forall (fun n => Js.includes n (Js.toLowerCase s) = false) edge_names) /\
  (tget Key.server t = Some VUndefined ->
   exists l, tget Key.cdn t = Some (VList l) /\ l <> []).
Proof.
  intros H. rewrite detectTechStack_split in H.
  destruct (eval net (markup_sections html baseUrl)) as [[t5 js]|] eqn:E; [|discriminate H].
  injection H as <-. unfold header_sections.
  split; [intros s; apply dedupe_keeps_only_origins|].
  intros Hund.
  destruct (before_final_pass headers js _ (markup_leaves_header_fields _ _ E))
    as [_ Hsrv]. cbv zeta in Hsrv.
  match type of Hund with
  | tget _ (dedupeEdgeVsOrigin ?x) = _ => destruct (dedupe_cases x) as [Hsame | Hclr]
  end.
  - rewrite Hsame in Hund. destruct Hsrv as [Hn | [s Hs]];
      [rewrite Hn in Hund | rewrite Hs in Hund]; discriminate Hund.
  - destruct Hclr as [srv [_ [_ [l [Hl [Hne _]]]]]]. eauto.
Qed.

(** X19. The cdn list of a record holds no provider twice, also not in
    another letter case. *)
Theorem cdn_has_no_duplicates
        (html : string) (headers : Js.Obj string) (baseUrl : string) (t : TechStack)
        (l : list string) :
  eval net (detectTechStack html headers baseUrl) = Returned t ->
  tget Key.cdn t = Some (VList l) ->
  NoDup (map Js.toLowerCase l).
Proof.
  intros H Hl. rewrite detectTechStack_split in H.
  destruct (eval net (markup_sections html baseUrl)) as [[t5 js]|] eqn:E; [|discriminate H].
  injection H as <-. unfold header_sections in Hl.
  destruct (before_final_pass headers js _ (markup_leaves_header_fields _ _ E))
    as [Hcdn _]. cbv zeta in Hcdn.
  pose proof (inferCDN_nodup headers) as Hnd. rewrite <- Hcdn in Hnd.
  match type of Hl with
  | tget _ (dedupeEdgeVsOrigin ?x) = _ => destruct (dedupe_cases x) as [Hsame | Hclr]
  end.
  - rewrite Hsame in Hl. apply cdn_list_get in Hl. now rewrite <- Hl.
  - destruct Hclr as [srv [_ [_ [l' [Hl' [_ Hnd']]]]]].
    rewrite Hl in Hl'. injection Hl' as <-. now apply Hnd'.
Qed.

End FinalPass.

(* ================================================================== *)
(** ** The answers of the route *)
(* ================================================================== *)

Section Answers.

Import Http.

Context {RT : Runtime}.
Variable net : Net.

(** The fixed error answers of the route. *)
Lemma POST_cases (req : NextRequest) :
  (exists msg st,
      eval net (POST req) = Returned (error_response msg st) /\
      In (msg, st) [ ("Invalid request body", 400); ("URL is required", 400);
                     ("Error fetching the URL", 502);
                     ("Access to the URL is forbidden (403).", 403) ]) \/
  (exists u r,
      net DocumentGet u = Responded r /\ 400 <= status r /\
      eval net (POST req) =
        Returned (error_response
                    (String.append "Target responded with " (Js.string_of_nat (status r)))
                    400)) \/
  (exists u r t,
      net DocumentGet u = Responded r /\ status r < 400 /\
      eval net (detectTechStack (document_text (data r)) (lowercase_headers (headers r)) u)
        = Returned t /\
      eval net (POST req) = Returned (mkNext (TechBody (to_json t)) 200)).
Proof.
  unfold POST. rewrite eval_try_catch, eval_bind.
  destruct (body_json req) as [body|]; cbn [lift eval];
    [|left; do 2 eexists; split; [reflexivity | simpl; tauto]].
  rewrite eval_bind.
  destruct (destructure_url body) as [url|]; cbn [lift eval];
    [|left; do 2 eexists; split; [reflexivity | simpl; tauto]].
  destruct url as [[| b | n | u | items | fields]|]; cbn [eval];
    try (left; do 2 eexists; split; [reflexivity | simpl; tauto]).
  destruct (negb (Js.truthy u)); cbn [eval];
    [left; do 2 eexists; split; [reflexivity | simpl; tauto]|].
  rewrite eval_bind, eval_try_catch, eval_bind. unfold get. cbn [eval].
  destruct (net DocumentGet u) as [why|r] eqn:Hnet; cbn [validateStatus eval];
    [left; do 2 eexists; split; [reflexivity | simpl; tauto]|].
  destruct (status r =? 403) eqn:E403; cbn [eval];
    [left; do 2 eexists; split; [reflexivity | simpl; tauto]|].
  destruct (400 <=? status r) eqn:E400; cbn [eval].
  - right. left. exists u, r. apply Nat.leb_le in E400. auto.
  - apply Nat.leb_gt in E400. rewrite eval_bind.
    destruct (eval net (detectTechStack _ _ u)) as [t|] eqn:Et; cbn [eval].
    + right. right. exists u, r, t. auto.
    + left. do 2 eexists. split; [reflexivity | simpl; tauto].
Qed.

(** X1. The route always answers, whatever the request and the network: it
    never throws, and the status of its answer is 200, 400, 403 or 502.
    The answer carries a record exactly when the status is 200, and an
    error message otherwise. *)
Theorem route_always_answers (req : NextRequest) :
  exists r, eval net (POST req) = Returned r /\
            In (next_status r) [200; 400; 403; 502] /\
            (next_status r = 200 <-> exists t, next_body r = TechBody t).
Proof.
  destruct (POST_cases req) as [[msg [st [H Hin]]] | [[u [r [_ [_ H]]]] | [u [r [t [_ [_ [_ H]]]]]]]];
    rewrite H; eexists; (split; [reflexivity|]).
  - simpl in Hin.
    repeat (destruct Hin as [Hin|Hin];
            [injection Hin as <- <-; simpl; split; [tauto|];
             split; [intros C; discriminate C | intros [t C]; discriminate C]|]).
    contradiction.
  - simpl. split; [tauto|].
    split; [intros C; discriminate C | intros [t C]; discriminate C].
  - simpl. split; [tauto|]. split; [eauto | reflexivity].
Qed.

Lemma append_nonempty (a b : string) : a <> "" -> String.append a b <> "".
Proof. destruct a; [intros H; now contradiction H | discriminate]. Qed.

(** X2. No answer of the route carries an empty value: an error message is
    never the empty string, and in a record a string field is never empty,
    a list field never the empty list and the flag, when present, is true.
    A section that detects nothing leaves its field out of the answer. *)
Theorem answers_carry_no_empty_value (req : NextRequest) (r : NextResponse) :
  eval net (POST req) = Returned r ->
  match next_body r with
  | ErrorBody msg => msg <> ""
  | TechBody t => Forall (fun kv => filled (snd kv)) t
  end.
Proof.
  intros Hr.
  destruct (POST_cases req) as [[msg [st [H Hin]]] | [[u [resp [_ [_ H]]]] | [u [resp [t [_ [_ [Ht H]]]]]]]];
    rewrite H in Hr; injection Hr as <-; simpl.
  - simpl in Hin.
    repeat (destruct Hin as [Hin|Hin]; [injection Hin as <- <-; discriminate|]).
    contradiction.
  - discriminate.
  - exact (record_fields_filled _ _ _ _ Ht).
Qed.

(** X3. A target that cannot be reached (network error, time-out, oversize
    body, too many redirects) is answered with HTTP status 502 and the
    message Error fetching the URL, after the one request for the
    document. *)
Theorem unreachable_target_is_bad_gateway
        (req : NextRequest) (body : Json) (u : string) (why : failure) :
  body_json req = Some body ->
  prop "url" body = Some (JStr u) ->
  u <> "" ->
  net DocumentGet u = Failed why ->
  eval net (POST req) = Returned (mkNext (ErrorBody "Error fetching the URL") 502) /\
  (forall answer, eval net (POST req) = Returned answer ->
      next_status answer = 502 /\ next_body answer = ErrorBody "Error fetching the URL") /\
  trace net (POST req) = [(DocumentGet, u)].
Proof.
  intros Hbody Hurl Hu Hnet.
  destruct (POST_unreachable net req Hbody Hurl Hu Hnet) as [Hev Htr].
  split; [exact Hev|]. split; [|exact Htr].
  intros answer Ha. rewrite Hev in Ha. injection Ha as <-. split; reflexivity.
Qed.

(** X4. A target that answers with an error status other than 403 is not
    analysed: the route answers with HTTP status 400 and the message Target
    responded with followed by the status in decimal, and sends nothing but
    the request for the document.  For a status of three digits the decimal
    text is the hundreds, tens and units digit of the status. *)
Theorem error_status_is_reported
        (req : NextRequest) (body : Json) (u : string) (r : response) :
  body_json req = Some body ->
  prop "url" body = Some (JStr u) ->
  u <> "" ->
  net DocumentGet u = Responded r ->
  400 <= status r ->
  status r <> 403 ->
  eval net (POST req) =
    Returned (mkNext (ErrorBody (String.append "Target responded with "
                                               (Js.string_of_nat (status r)))) 400) /\
  (status r < 1000 ->
   eval net (POST req) =
     Returned (mkNext (ErrorBody
                 (String.append "Target responded with "
                    (String (Ascii.ascii_of_nat (48 + status r / 100))
                       (String (Ascii.ascii_of_nat (48 + status r / 10 mod 10))
                          (String (Ascii.ascii_of_nat (48 + status r mod 10)) "")))))
               400)) /\
  (forall answer, eval net (POST req) = Returned answer -> next_status answer = 400) /\
  trace net (POST req) = [(DocumentGet, u)].
Proof.
  intros Hbody Hurl Hu Hnet H400 H403.
  destruct (POST_error_status net req Hbody Hurl Hu Hnet H400 H403) as [Hev Htr].
  split; [exact Hev|]. split; [|split; [|exact Htr]].
  - intros Hlt. rewrite Hev. rewrite string_of_nat_three_digits by lia. reflexivity.
  - intros answer Ha. rewrite Hev in Ha. injection Ha as <-. reflexivity.
Qed.

End Answers.

(* ================================================================== *)
(** ** The requests of an analysis *)
(* ================================================================== *)

Section Requests.

Import Http.

Context {RT : Runtime}.
Variable net : Net.

Lemma trace_bind {A B} (p : Prog A) (f : A -> Prog B) :
  trace net (bind p f) =
  trace net p ++ match eval net p with
                 | Returned a => trace net (f a)
                 | Thrown => []
                 end.
Proof.
  induction p as [a| |c u k IH]; simpl; [reflexivity | reflexivity | now rewrite IH].
Qed.

Lemma trace_try_catch {A} (p h : Prog A) :
  trace net (try_catch p h) =
  trace net p ++ match eval net p with
                 | Returned _ => []
                 | Thrown => trace net h
                 end.
Proof.
  induction p as [a| |c u k IH]; simpl; [reflexivity | reflexivity | now rewrite IH].
Qed.

Lemma script_requests_add (urls : list string) (n m : nat) :
  script_requests urls (n + m) = script_requests urls n ++ script_requests urls m.
Proof. unfold script_requests. now rewrite repeat_app, concat_app. Qed.

Lemma script_requests_none (n : nat) : script_requests [] n = [].
Proof. unfold script_requests. induction n as [|n IH]; simpl; [reflexivity | exact IH]. Qed.

Lemma script_requests_length (urls : list string) (n : nat) :
  List.length (script_requests urls n) = n * List.length urls.
Proof.
  unfold script_requests. induction n as [|n IH]; simpl; [reflexivity|].
  now rewrite length_app, length_map, IH.
Qed.

Lemma script_requests_in (urls : list string) (n : nat) (c : config) (u : string) :
  In (c, u) (script_requests urls n) -> c = ScriptGet /\ In u urls.
Proof.
  unfold script_requests. induction n as [|n IH]; simpl; [contradiction|].
  intros H. apply in_app_or in H. destruct H as [H|H]; [|now apply IH].
  apply in_map_iff in H. destruct H as [x [E Hx]]. injection E as <- <-. now split.
Qed.

Section Scans.

Variable urls : list string.

Lemma scans_ret {A} (a : A) : scans net urls 0 (Ret a).
Proof. split; [reflexivity | intros _; now exists a]. Qed.

Lemma scans_bind (n m : nat) {A B} (p : Prog A) (f : A -> Prog B) :
  scans net urls n p ->
  (forall a, eval net p = Returned a -> scans net urls m (f a)) ->
  scans net urls (n + m) (bind p f).
Proof.
  intros [Hp Hr] Hf. split.
  - rewrite trace_bind, script_requests_add, Hp. f_equal.
    destruct (eval net p) as [a|] eqn:E; [exact (proj1 (Hf a eq_refl))|].
    destruct urls as [|u l]; [now rewrite script_requests_none|].
    destruct Hr as [a Ha]; discriminate.
  - intros Hne. destruct (Hr Hne) as [a Ha]. rewrite eval_bind, Ha.
    exact (proj2 (Hf a Ha) Hne).
Qed.

Lemma scans_then {A B} (n : nat) (p : Prog A) (f : A -> Prog B) :
  scans net urls n p ->
  (forall a, exists b, f a = Ret b) ->
  scans net urls n (bind p f).
Proof.
  intros Hp Hf. rewrite <- (Nat.add_0_r n). apply scans_bind; [exact Hp|].
  intros a _. destruct (Hf a) as [b ->]. apply scans_ret.
Qed.

Lemma scans_mapM {A B} (f : A -> Prog B) (l : list A) (ns : list nat) :
  Forall2 (fun x n => scans net urls n (f x)) l ns ->
  scans net urls (list_sum ns) (mapM f l).
Proof.
  induction 1 as [|x n l ns Hx _ IH]; simpl; [apply scans_ret|].
  apply scans_bind; [exact Hx|]. intros y _. apply scans_then; [exact IH|]. eauto.
Qed.

End Scans.

Lemma trace_scan_script (matcher : string -> bool) (u : string) :
  trace net (scan_script matcher u) = [(ScriptGet, u)].
Proof.
  unfold scan_script, fetchText, get. cbn [bind try_catch trace].
  destruct (net ScriptGet u) as [why|r]; cbn [validateStatus]; [reflexivity|].
  destruct (default_validate (status r)); reflexivity.
Qed.

Lemma trace_scan_list (matcher : string -> bool) (l : list string) :
  trace net (mapM (scan_script matcher) l) = map (pair ScriptGet) l.
Proof.
  induction l as [|u l IH]; [reflexivity|].
  cbn [mapM map]. rewrite trace_bind, trace_scan_script, eval_scan_script.
  rewrite trace_bind, IH.
  destruct (eval net (mapM _ l)); simpl; now rewrite app_nil_r.
Qed.

Lemma worklist_length (d : Dom.Cheerio) (baseUrl : string) :
  List.length (worklist d baseUrl) <= MAX_SCRIPT_REQUESTS.
Proof.
  unfold worklist, pickTopScripts, slice0.
  destruct (URL_new baseUrl) as [b|]; [|apply Nat.le_0_l].
  rewrite length_map. apply firstn_le_length.
Qed.

(** X9. One script scan requests every script of the work-list once, in
    the order of the list and whether or not an earlier script matched; it
    sends nothing else, so it costs at most twelve requests.  It returns
    whenever the base URL parses. *)
Theorem scan_requests_the_worklist
        (d : Dom.Cheerio) (baseUrl : string) (matcher : string -> bool) :
  trace net (containsInScripts d baseUrl matcher)
    = map (pair ScriptGet) (worklist d baseUrl) /\
  calls net (containsInScripts d baseUrl matcher) <= MAX_SCRIPT_REQUESTS /\
  (URL_new baseUrl <> None ->
   exists hit, eval net (containsInScripts d baseUrl matcher) = Returned hit).
Proof.
  assert (Htr : trace net (containsInScripts d baseUrl matcher)
                = map (pair ScriptGet) (worklist d baseUrl)).
  { unfold containsInScripts, worklist.
    destruct (pickTopScripts d baseUrl) as [urls|]; cbn [lift bind]; [|reflexivity].
    rewrite trace_bind, trace_scan_list.
    destruct (eval net (mapM _ urls)); simpl; now rewrite app_nil_r. }
  split; [exact Htr|]. split.
  - unfold calls. rewrite Htr, length_map. apply worklist_length.
  - intros Hurl. rewrite eval_containsInScripts. unfold pickTopScripts.
    destruct (URL_new baseUrl); [eauto | now contradiction Hurl].
Qed.

Section Budget.

Variables (d : Dom.Cheerio) (baseUrl : string).

Lemma scans_containsInScripts (matcher : string -> bool) :
  scans net (worklist d baseUrl) 1 (containsInScripts d baseUrl matcher).
Proof.
  split.
  - unfold script_requests. simpl. rewrite app_nil_r.
    unfold containsInScripts, worklist.
    destruct (pickTopScripts d baseUrl) as [l|]; cbn [lift bind]; [|reflexivity].
    rewrite trace_bind, trace_scan_list.
    destruct (eval net (mapM _ l)); simpl; now rewrite app_nil_r.
  - intros Hne. rewrite eval_containsInScripts. unfold worklist in Hne.
    destruct (pickTopScripts d baseUrl); [eauto | now contradiction Hne].
Qed.

Ltac one_scan :=
  cbv zeta; apply scans_then; [apply scans_containsInScripts | intros; eexists; reflexivity].

Lemma scans_jsDetections :
  Forall2 (fun np n => scans net (worklist d baseUrl) n (snd np)) (jsDetections d baseUrl)
          [1; 1; 1; 1; 1; 1; 1; 1; 1; 1; 1; 1; 1; 1; 1; 0; 0].
Proof.
  unfold jsDetections.
  repeat (apply Forall2_cons; [cbn [snd] |]); [..| apply Forall2_nil].
  - unfold containsReact. one_scan.
  - unfold containsVue. one_scan.
  - unfold containsAngular. one_scan.
  - unfold containsNextJs. one_scan.
  - unfold containsGatsby. one_scan.
  - unfold containsSvelte. one_scan.
  - unfold containsEmber. one_scan.
  - unfold containsNuxtJs. one_scan.
  - unfold containsPolymer. one_scan.
  - unfold containsjQuery. one_scan.
  - unfold containsBackbone. one_scan.
  - unfold containsDojo. one_scan.
  - unfold containsMeteor. one_scan.
  - unfold containsAstro. one_scan.
  - unfold containsRemix. one_scan.
  - apply scans_ret.
  - apply scans_ret.
Qed.

Lemma scans_detect_js (tech : TechStack) : scans net (worklist d baseUrl) 15 (detect_js d baseUrl tech).
Proof.
  unfold detect_js. cbv zeta. apply scans_then; [|intros; eexists; reflexivity].
  exact (scans_mapM (fun np => snd np) scans_jsDetections).
Qed.

Lemma scans_detect_css (tech : TechStack) :
  scans net (worklist d baseUrl) (if wordpress_flag tech then 0 else 3) (detect_css d baseUrl tech).
Proof.
  unfold detect_css. destruct (wordpress_flag tech); cbn [negb]; [apply scans_ret|].
  cbv zeta.
  apply (scans_bind (n:=1) (m:=2)); [unfold containsMaterialUI; one_scan|]. intros mui _.
  apply (scans_bind (n:=1) (m:=1)); [unfold containsSemanticUI; one_scan|]. intros sem _.
  apply (scans_bind (n:=1) (m:=0)); [unfold containsMaterializeCSS; one_scan|]. intros mat _.
  apply scans_ret.
Qed.

Lemma scans_detect_analytics (tech : TechStack) :
  scans net (worklist d baseUrl) 7 (detect_analytics d baseUrl tech).
Proof.
  unfold detect_analytics. cbv zeta.
  apply (scans_bind (n:=1) (m:=6)); [unfold containsGoogleAnalytics; one_scan|]. intros ? _.
  apply (scans_bind (n:=1) (m:=5)); [unfold containsGoogleTagManager; one_scan|]. intros ? _.
  apply (scans_bind (n:=1) (m:=4)); [unfold containsMatomo; one_scan|]. intros ? _.
  apply (scans_bind (n:=1) (m:=3)); [unfold containsPlausible; one_scan|]. intros ? _.
  apply (scans_bind (n:=1) (m:=2)); [unfold containsMixpanel; one_scan|]. intros ? _.
  apply (scans_bind (n:=1) (m:=1)); [unfold containsAmplitude; one_scan|]. intros ? _.
  apply (scans_bind (n:=1) (m:=0)); [unfold containsSegment; one_scan|]. intros ? _.
  apply scans_ret.
Qed.

Lemma scans_detect_build (html : string) (tech : TechStack) :
  scans net (worklist d baseUrl) 3 (detect_build html d baseUrl tech).
Proof.
  unfold detect_build. cbv zeta.
  apply (scans_bind (n:=1) (m:=2)); [apply scans_containsInScripts|]. intros ? _.
  apply (scans_bind (n:=1) (m:=1)); [apply scans_containsInScripts|]. intros ? _.
  apply (scans_bind (n:=1) (m:=0)); [apply scans_containsInScripts|]. intros ? _.
  apply scans_ret.
Qed.

End Budget.

Lemma trace_probe (baseUrl : string) :
  trace net (isWordPressViaAPI baseUrl) =
  match URL_resolve "/wp-json" baseUrl with
  | Some u => [(ProbeGet, href u)]
  | None => []
  end.
Proof.
  unfold isWordPressViaAPI.
  destruct (URL_resolve "/wp-json" baseUrl) as [u|]; cbn [lift bind try_catch trace];
    [|reflexivity].
  unfold get. cbn [bind try_catch trace]. f_equal.
  destruct (net ProbeGet (href u)) as [why|r]; cbn [validateStatus bind try_catch trace];
    [reflexivity|].
  repeat match goal with
         | |- context [if ?c then _ else _] => destruct c; cbn [bind try_catch trace]
         end; reflexivity.
Qed.

Lemma trace_detect_cms (d : Dom.Cheerio) (baseUrl : string) (tech : TechStack) :
  trace net (detect_cms d baseUrl tech) = [] \/
  exists u, URL_resolve "/wp-json" baseUrl = Some u /\
            trace net (detect_cms d baseUrl tech) = [(ProbeGet, href u)].
Proof.
  unfold detect_cms.
  destruct (isShopify d); [now left|].
  destruct (isSquarespace d); [now left|].
  destruct (isWix d); [now left|].
  rewrite trace_bind.
  assert (Hrest : forall wp : bool,
             trace net
               (if wp
                then Ret (tset Key.isWordPress (VBool true) (tset Key.cms (VStr "WordPress") tech))
                else if isDrupal d then Ret (tset Key.cms (VStr "Drupal") tech)
                else if isJoomla d then Ret (tset Key.cms (VStr "Joomla") tech)
                else match Dom.first_attr d [Dom.el "meta" [Dom.eq "name" "generator"]] "content"
                     with
                     | Some g => Ret (if Js.truthy g then tset Key.cms (VStr g) tech else tech)
                     | None => Ret tech
                     end) = []).
  { intros wp. destruct wp; [reflexivity|].
    destruct (isDrupal d); [reflexivity|]. destruct (isJoomla d); [reflexivity|].
    destruct (Dom.first_attr d _ "content"); reflexivity. }
  destruct (isWordPress d).
  - left. reflexivity.
  - rewrite trace_probe.
    destruct (probe_returns net baseUrl) as [api ->].
    rewrite Hrest, app_nil_r.
    destruct (URL_resolve "/wp-json" baseUrl) as [u|]; [right; eauto | now left].
Qed.

Lemma flag_after_js (jsSet : Js.StrSet) (tech : TechStack) :
  wordpress_flag (set_if_nonempty Key.javascriptFrameworks jsSet tech) = wordpress_flag tech.
Proof.
  unfold wordpress_flag. destruct jsSet; simpl; [reflexivity|].
  now rewrite tget_tset_other by discriminate.
Qed.

Lemma scans_after_cms (html : string) (headers : Js.Obj string) (baseUrl : string)
      (tech : TechStack) :
  let d := cheerio_load html in
  scans net (worklist d baseUrl) (scan_count (wordpress_flag tech))
        (tj <- detect_js d baseUrl tech ;;
         let '(tech, jsSet) := tj in
         tech <- detect_css d baseUrl tech ;;
         tech <- detect_analytics d baseUrl tech ;;
         let tech := detect_marketing d tech in
         let tech := detect_monitoring d tech in
         let tech := detect_payments d tech in
         tech <- detect_build html d baseUrl tech ;;
         let tech := detect_compression headers tech in
         let tech := detect_server headers tech in
         let tech := detect_platform headers jsSet tech in
         let tech := detect_edge headers tech in
         Ret (dedupeEdgeVsOrigin tech))%prog.
Proof.
  intros d.
  replace (scan_count (wordpress_flag tech))
    with (15 + ((if wordpress_flag tech then 0 else 3) + (7 + (3 + 0))))
    by (unfold scan_count; destruct (wordpress_flag tech); reflexivity).
  apply scans_bind; [apply scans_detect_js|]. intros [t2 js] E.
  apply eval_detect_js in E. subst t2.
  rewrite <- (flag_after_js js tech).
  apply scans_bind; [apply scans_detect_css|]. intros t3 _.
  apply scans_bind; [apply scans_detect_analytics|]. intros t4 _. cbv zeta.
  apply scans_bind; [apply scans_detect_build|]. intros t5 _.
  apply scans_ret.
Qed.

(** X7. The requests of one analysis: at most one discovery probe, and
    after it nothing but scans of the work-list, each scan one request per
    script: 28 scans, or 25 when the page is flagged as WordPress and the
    three style-sheet scans are skipped.  Headers cost no request.  Every
    request is the probe, sent to /wp-json resolved against the base URL,
    or a script request to an entry of the work-list; the work-list may
    hold the address of the page itself, which is then requested as a
    script.  One analysis sends at most 1 + 28 * 12 = 337 requests. *)
Theorem analysis_request_budget
        (html : string) (headers : Js.Obj string) (baseUrl : string) :
  let d := cheerio_load html in
  let run := detectTechStack html headers baseUrl in
  calls net (detect_cms d baseUrl []) <= 1 /\
  (exists k,
      (k = 25 \/ k = 28) /\
      (forall t, eval net run = Returned t -> k = scan_count (wordpress_flag t)) /\
      calls net run = calls net (detect_cms d baseUrl []) +
                      k * List.length (worklist d baseUrl)) /\
  (forall c u, In (c, u) (trace net run) ->
     (c = ProbeGet /\ exists p, URL_resolve "/wp-json" baseUrl = Some p /\ u = href p) \/
     (c = ScriptGet /\ In u (worklist d baseUrl))) /\
  calls net run <= 1 + 28 * MAX_SCRIPT_REQUESTS.
Proof.
  intros d run.
  destruct (probe_returns net baseUrl) as [api Hapi].
  pose proof (eval_detect_cms net d baseUrl [] Hapi) as Hcms.
  set (t1 := cms_section d api []) in *.
  assert (Htrace : trace net run =
                   trace net (detect_cms d baseUrl []) ++
                   script_requests (worklist d baseUrl) (scan_count (wordpress_flag t1))).
  { unfold run, detectTechStack. cbv zeta. fold d. rewrite trace_bind, Hcms. f_equal.
    exact (proj1 (scans_after_cms html headers baseUrl t1)). }
  assert (Hprobe : calls net (detect_cms d baseUrl []) <= 1).
  { unfold calls. destruct (trace_detect_cms d baseUrl []) as [-> | [u [_ ->]]]; simpl; lia. }
  assert (Hcalls : calls net run = calls net (detect_cms d baseUrl []) +
                                   scan_count (wordpress_flag t1) *
                                   List.length (worklist d baseUrl)).
  { unfold calls. now rewrite Htrace, length_app, script_requests_length. }
  split; [exact Hprobe|]. split; [|split].
  - exists (scan_count (wordpress_flag t1)). split; [|split; [|exact Hcalls]].
    + unfold scan_count. destruct (wordpress_flag t1); tauto.
    + intros t Ht. f_equal. unfold run in Ht. rewrite detectTechStack_split in Ht.
      destruct (eval net (markup_sections html baseUrl)) as [[t5 js]|] eqn:E;
        [|discriminate Ht].
      injection Ht as <-.
      destruct (markup_sections_inv _ _ _ E) as [api' [Hapi' [Hw _]]].
      rewrite Hapi in Hapi'. injection Hapi' as <-. cbv zeta in Hw.
      unfold wordpress_flag.
      rewrite (header_sections_writes headers js t5 (f:=Key.isWordPress)),
              (Hw Key.isWordPress); [reflexivity | |];
        simpl; intros C; repeat (destruct C as [C|C]; [discriminate C|]); exact C.
  - intros c u Hin. rewrite Htrace in Hin. apply in_app_or in Hin.
    destruct Hin as [Hin|Hin].
    + left. destruct (trace_detect_cms d baseUrl []) as [E | [p [Hp E]]];
        rewrite E in Hin; [contradiction|].
      destruct Hin as [Hin|[]]. injection Hin as <- <-. eauto.
    + right. exact (script_requests_in _ _ _ _ Hin).
  - rewrite Hcalls. pose proof (worklist_length d baseUrl) as Hlen.
    assert (Hk : scan_count (wordpress_flag t1) <= 28)
      by (unfold scan_count; destruct (wordpress_flag t1); lia).
    unfold MAX_SCRIPT_REQUESTS in *. nia.
Qed.

End Requests.

(* ================================================================== *)
(** ** Headers, from the route to the record *)
(* ================================================================== *)

Section Headers.

Import Http.

Context {RT : Runtime}.

Lemma lower_char_idem (x : ascii) : Js.lower_char (Js.lower_char x) = Js.lower_char x.
Proof. destruct x as [[] [] [] [] [] [] [] []]; reflexivity. Qed.

Lemma toLowerCase_idem (s : string) : Js.toLowerCase (Js.toLowerCase s) = Js.toLowerCase s.
Proof. induction s as [|c s IH]; simpl; [reflexivity | now rewrite lower_char_idem, IH]. Qed.








(** *** The server label *)




(** *** Hosting and edge *)

Lemma add_in (x y : string) (s : Js.StrSet) : In x (Js.add y s) <-> x = y \/ In x s.
Proof.
  unfold Js.add, Js.has. destruct (existsb (String.eqb y) s) eqn:E.
  - split; [tauto|]. intros [-> | H]; [|exact H].
    apply existsb_exists in E. destruct E as [z [Hz E]].
    apply String.eqb_eq in E. now subst.
  - rewrite in_app_iff. simpl. split; intros H; intuition congruence.
Qed.

Lemma add_if_in (c : bool) (x y : string) (s : Js.StrSet) :
  In x (add_if c y s) <-> (c = true /\ x = y) \/ In x s.
Proof.
  unfold add_if. destruct c; [rewrite add_in|]; intuition congruence.
Qed.

(** X22. The hosting inference answers Vercel exactly when the CDN
    inference lists Vercel Edge: both read the x-vercel-id header and the
    word vercel in the server header, one through a pattern and one through
    a search in the lower-cased text. *)
Theorem vercel_hosting_iff_vercel_edge (headers : Js.Obj string) :
  inferHosting headers = Some "Vercel" <-> In "Vercel Edge" (inferCDN headers).
Proof.
  unfold inferCDN, inferHosting. cbv zeta.
  rewrite !add_if_in. rewrite (@test_ci_includes "vercel" _ plain_vercel).
  set (h := lower_keys headers).
  assert (Hsrv : Js.includes "vercel" (Js.toLowerCase (Js.or_empty (Js.get "server" h)))
                 = opt_includes "vercel" (Js.get "server" h))
    by (destruct (Js.get "server" h); reflexivity).
  rewrite Hsrv.
  destruct (Js.truthy_opt (Js.get "x-vercel-id" h)), (opt_includes "vercel" (Js.get "server" h));
    cbn [orb].
  1-3: split; [intros _; right; left; now split | reflexivity].
  split.
  - repeat match goal with
           | |- context [if ?c then _ else _] => destruct c
           end; intros C; discriminate C.
  - simpl. intros H.
    repeat match type of H with
           | _ \/ _ => destruct H as [H|H]
           end;
      first [contradiction H | destruct H as [H1 H2]; first [discriminate H1 | discriminate H2]].
Qed.

(** *** What the page decides and what the headers decide *)

Lemma agree_tset (fs : list Key.Field) (g : Key.Field) (v : Value) (a b : TechStack) :
  agree_on fs a b -> agree_on fs (tset g v a) (tset g v b).
Proof.
  intros H f Hf. destruct (Key.field_name f =? Key.field_name g)%string eqn:E.
  - apply String.eqb_eq, field_name_inj in E. subst. now rewrite !tget_tset_same.
  - assert (f <> g) by (intros ->; now rewrite String.eqb_refl in E).
    rewrite !tget_tset_other by assumption. now apply H.
Qed.

Lemma agree_set_if_nonempty (fs : list Key.Field) (g : Key.Field) (xs : list string)
      (a b : TechStack) :
  agree_on fs a b -> agree_on fs (set_if_nonempty g xs a) (set_if_nonempty g xs b).
Proof. intros H. destruct xs; simpl; [exact H | now apply agree_tset]. Qed.

Lemma agree_unlisted (fs : list Key.Field) (g : Key.Field) (xs ys : list string)
      (a b : TechStack) :
  ~ In g fs -> agree_on fs a b ->
  agree_on fs (set_if_nonempty g xs a) (set_if_nonempty g ys b).
Proof.
  intros Hg H f Hf. assert (f <> g) by (intros ->; contradiction).
  destruct xs, ys; simpl; rewrite ?tget_tset_other by assumption; now apply H.
Qed.

Lemma dedupe_agree (a b : TechStack) :
  agree_on header_only_fields a b ->
  agree_on header_only_fields (dedupeEdgeVsOrigin a) (dedupeEdgeVsOrigin b).
Proof.
  intros H.
  assert (Hs : tget Key.server a = tget Key.server b) by (apply H; simpl; tauto).
  assert (Hc : cdn_list a = cdn_list b)
    by (unfold cdn_list; rewrite (H Key.cdn); [reflexivity | simpl; tauto]).
  unfold dedupeEdgeVsOrigin, clear_server, ensureCdn. rewrite Hs, Hc.
  destruct (tget Key.server b) as [[srv| | |]|]; try exact H.
  destruct (negb (Js.truthy srv)); [exact H|]. cbv zeta.
  repeat match goal with
         | |- context [if ?c then _ else _] => destruct c
         end;
    repeat apply agree_tset; exact H.
Qed.

Lemma header_sections_agree (headers : Js.Obj string) (js1 js2 : Js.StrSet)
      (a b : TechStack) :
  agree_on header_only_fields a b ->
  agree_on header_only_fields (header_sections headers js1 a) (header_sections headers js2 b).
Proof.
  intros H. unfold header_sections. apply dedupe_agree.
  unfold detect_edge.
  assert (H8 : agree_on header_only_fields
                 (detect_platform headers js1
                    (detect_server headers (detect_compression headers a)))
                 (detect_platform headers js2
                    (detect_server headers (detect_compression headers b)))).
  { unfold detect_platform.
    assert (H7 : agree_on header_only_fields
                   (detect_server headers (detect_compression headers a))
                   (detect_server headers (detect_compression headers b))).
    { unfold detect_server.
      assert (H6 : agree_on header_only_fields (detect_compression headers a)
                            (detect_compression headers b))
        by (apply agree_set_if_nonempty, H).
      destruct (Js.get "server" headers) as [raw|]; [|exact H6].
      destruct (Js.truthy raw); [|exact H6].
      destruct (mapServerHeader (Some raw)); now apply agree_tset. }
    assert (Hjs : ~ In Key.javascriptFrameworks header_only_fields)
      by (simpl; intros C; repeat (destruct C as [C|C]; [discriminate C|]); exact C).
    destruct (Js.get "x-powered-by" headers) as [raw|]; [|now apply agree_unlisted].
    destruct (Js.truthy raw); [|now apply agree_unlisted].
    destruct (negb _); apply agree_unlisted; try assumption. now apply agree_tset. }
  destruct (inferHosting headers) as [h|]; [destruct (Js.truthy h)|];
    try apply agree_tset; now apply agree_set_if_nonempty.
Qed.

(** X14. The CMS, the WordPress flag, the style sheets, analytics,
    marketing, monitoring, payments and build tools of a record are decided
    by the page and the network alone: analysing the same page with other
    response headers leaves these fields as they are. *)
Theorem page_fields_ignore_headers
        (net : Net) (html baseUrl : string) (headers1 headers2 : Js.Obj string)
        (t1 t2 : TechStack) :
  eval net (detectTechStack html headers1 baseUrl) = Returned t1 ->
  eval net (detectTechStack html headers2 baseUrl) = Returned t2 ->
  agree_on page_fields t1 t2.
Proof.
  intros H1 H2. rewrite detectTechStack_split in H1, H2.
  destruct (eval net (markup_sections html baseUrl)) as [[t5 js]|]; [|discriminate H1].
  injection H1 as <-. injection H2 as <-.
  intros f Hf.
  assert (Hn : ~ In f header_fields).
  { unfold header_fields. simpl in Hf.
    repeat (destruct Hf as [<-|Hf];
            [simpl; intros C; repeat (destruct C as [C|C]; [discriminate C|]); exact C|]).
    contradiction. }
  now rewrite !(header_sections_writes _ _ _ Hn).
Qed.

(** X15. Compression, server, web platform, CDN and hosting are decided by
    the response headers alone: two analyses with the same headers agree on
    these fields, whatever the pages, the base URLs and the networks. *)
Theorem header_fields_ignore_page
        (net1 net2 : Net) (html1 html2 baseUrl1 baseUrl2 : string)
        (headers : Js.Obj string) (t1 t2 : TechStack) :
  eval net1 (detectTechStack html1 headers baseUrl1) = Returned t1 ->
  eval net2 (detectTechStack html2 headers baseUrl2) = Returned t2 ->
  agree_on header_only_fields t1 t2.
Proof.
  intros H1 H2. rewrite detectTechStack_split in H1, H2.
  destruct (eval net1 (markup_sections html1 baseUrl1)) as [[a js1]|] eqn:E1;
    [|discriminate H1].
  destruct (eval net2 (markup_sections html2 baseUrl2)) as [[b js2]|] eqn:E2;
    [|discriminate H2].
  injection H1 as <-. injection H2 as <-.
  apply header_sections_agree. intros f Hf.
  now rewrite (markup_leaves_header_fields _ _ _ E1 Hf),
              (markup_leaves_header_fields _ _ _ E2 Hf).
Qed.

End Headers.

(* ================================================================== *)
(** ** Frameworks, the discovery probe and the order of the work-list *)
(* ================================================================== *)

Section Frameworks.

Import Http.

Context {RT : Runtime}.
Variable net : Net.

Ltac not_listed :=
  let C := fresh "C" in
  simpl; intros C; repeat (destruct C as [C|C]; [discriminate C|]); exact C.

Lemma tget_set_if_nonempty_other (f g : Key.Field) (xs : list string) (t : TechStack) :
  f <> g -> tget f (set_if_nonempty g xs t) = tget f t.
Proof. intros H. destruct xs; simpl; [reflexivity | now apply tget_tset_other]. Qed.

Lemma tget_set_if_nonempty_same (f : Key.Field) (xs : list string) (t : TechStack) :
  tget f (set_if_nonempty f xs t) =
  match xs with [] => tget f t | _ => Some (VList xs) end.
Proof. destruct xs; simpl; [reflexivity | apply tget_tset_same]. Qed.

Lemma frameworks_before_headers (html baseUrl : string) (tech : TechStack)
      (jsSet : Js.StrSet) :
  eval net (markup_sections html baseUrl) = Returned (tech, jsSet) ->
  NoDup jsSet /\
  tget Key.javascriptFrameworks tech =
    match jsSet with [] => None | _ => Some (VList jsSet) end.
Proof.
  intros H.
  destruct (markup_sections_shape _ _ _ H)
    as [api [css [an [ma [mo [pa [bu [_ [Hnd ->]]]]]]]]].
  split; [exact Hnd|].
  rewrite !tget_set_if_nonempty_other by discriminate.
  rewrite tget_set_if_nonempty_same, cms_section_fields by discriminate.
  reflexivity.
Qed.

Lemma frameworks_after_headers (headers : Js.Obj string) (jsSet : Js.StrSet)
      (tech : TechStack) :
  tget Key.javascriptFrameworks (header_sections headers jsSet tech) =
  tget Key.javascriptFrameworks (detect_platform headers jsSet
                                   (detect_server headers (detect_compression headers tech))).
Proof.
  unfold header_sections.
  rewrite (dedupe_writes _ (f:=Key.javascriptFrameworks)) by not_listed.
  now rewrite (detect_edge_writes headers _ (f:=Key.javascriptFrameworks)) by not_listed.
Qed.

Lemma frameworks_before_platform (headers : Js.Obj string) (tech : TechStack) :
  tget Key.javascriptFrameworks (detect_server headers (detect_compression headers tech)) =
  tget Key.javascriptFrameworks tech.
Proof.
  rewrite (detect_server_writes headers _ (f:=Key.javascriptFrameworks)) by not_listed.
  now rewrite (detect_compression_writes headers _ (f:=Key.javascriptFrameworks))
    by not_listed.
Qed.

(** X16. The JavaScript frameworks of a record are listed once each, also
    when the X-Powered-By header names a framework that the page had
    already shown. *)
Theorem frameworks_are_listed_once
        (html : string) (headers : Js.Obj string) (baseUrl : string) (t : TechStack)
        (l : list string) :
  eval net (detectTechStack html headers baseUrl) = Returned t ->
  tget Key.javascriptFrameworks t = Some (VList l) ->
  NoDup l.
Proof.
  intros H Hl. rewrite detectTechStack_split in H.
  destruct (eval net (markup_sections html baseUrl)) as [[t5 js]|] eqn:E; [|discriminate H].
  injection H as <-.
  destruct (frameworks_before_headers _ _ E) as [Hnd H5].
  rewrite frameworks_after_headers in Hl. unfold detect_platform in Hl.
  assert (Hout : forall js' tech',
             NoDup js' ->
             tget Key.javascriptFrameworks tech' = tget Key.javascriptFrameworks t5 ->
             (js' = [] -> js = []) ->
             tget Key.javascriptFrameworks (set_if_nonempty Key.javascriptFrameworks js' tech')
               = Some (VList l) -> NoDup l).
  { intros js' tech' Hnd' Ht' Hempty Hget. rewrite tget_set_if_nonempty_same in Hget.
    destruct js' as [|x js'].
    - rewrite Ht', H5, (Hempty eq_refl) in Hget. discriminate Hget.
    - injection Hget as <-. exact Hnd'. }
  destruct (Js.get "x-powered-by" headers) as [raw|].
  - destruct (Js.truthy raw).
    + eapply Hout; [| | |exact Hl].
      * now do 2 apply add_if_nodup.
      * destruct (negb _); rewrite ?tget_tset_other by discriminate;
          apply frameworks_before_platform.
      * intros Hnil. destruct js as [|x js]; [reflexivity|]. exfalso.
        assert (Hin : In x (add_if (Js.includes "nuxt.js" (Js.toLowerCase raw)) "Nuxt.js"
                              (add_if (Js.includes "next.js" (Js.toLowerCase raw)) "Next.js"
                                      (x :: js))))
          by (do 2 apply add_if_keeps; now left).
        rewrite Hnil in Hin. contradiction.
    + eapply Hout; [exact Hnd | apply frameworks_before_platform | trivial | exact Hl].
  - eapply Hout; [exact Hnd | apply frameworks_before_platform | trivial | exact Hl].
Qed.

(** X17. An X-Powered-By header that names next.js or nuxt.js (in any
    letter case) is read as a framework, not as a web platform: the
    framework is listed under the JavaScript frameworks and the web
    platform field stays unset.  Any other non-empty X-Powered-By header
    is the web platform, as sent. *)
Theorem powered_by_a_framework_is_a_framework
        (html : string) (headers : Js.Obj string) (baseUrl : string) (t : TechStack)
        (raw : string) :
  eval net (detectTechStack html headers baseUrl) = Returned t ->
  Js.get "x-powered-by" headers = Some raw ->
  raw <> "" ->
  let xp := Js.toLowerCase raw in
  (Js.includes "next.js" xp = true ->
   exists l, tget Key.javascriptFrameworks t = Some (VList l) /\ In "Next.js" l) /\
  (Js.includes "nuxt.js" xp = true ->
   exists l, tget Key.javascriptFrameworks t = Some (VList l) /\ In "Nuxt.js" l) /\
  tget Key.webServer t =
    (if Js.includes "next.js" xp || Js.includes "nuxt.js" xp then None else Some (VStr raw)).
Proof.
  intros H Hraw Hne xp. rewrite detectTechStack_split in H.
  destruct (eval net (markup_sections html baseUrl)) as [[t5 js]|] eqn:E; [|discriminate H].
  injection H as <-.
  assert (Htr : Js.truthy raw = true) by (destruct raw; [contradiction | reflexivity]).
  set (t7 := detect_server headers (detect_compression headers t5)).
  assert (H7 : tget Key.webServer t7 = None).
  { unfold t7.
    rewrite (detect_server_writes headers _ (f:=Key.webServer)) by not_listed.
    rewrite (detect_compression_writes headers _ (f:=Key.webServer)) by not_listed.
    apply (markup_leaves_header_fields _ _ _ E). simpl. tauto. }
  set (js' := add_if (Js.includes "nuxt.js" xp) "Nuxt.js"
                (add_if (Js.includes "next.js" xp) "Next.js" js)).
  assert (Hjs : forall x, In x js' ->
                  exists l, tget Key.javascriptFrameworks (header_sections headers js t5)
                            = Some (VList l) /\ In x l).
  { intros x Hx. rewrite frameworks_after_headers. unfold detect_platform.
    rewrite Hraw, Htr. fold xp. fold js'. rewrite tget_set_if_nonempty_same.
    destruct js' as [|y js'']; [contradiction|]. eauto. }
  split; [|split].
  - intros Hnext. apply Hjs. unfold js'. apply add_if_keeps. rewrite Hnext. apply add_if_adds.
  - intros Hnuxt. apply Hjs. unfold js'. rewrite Hnuxt. apply add_if_adds.
  - unfold header_sections.
    rewrite (dedupe_writes _ (f:=Key.webServer)) by not_listed.
    rewrite (detect_edge_writes headers _ (f:=Key.webServer)) by not_listed.
    unfold detect_platform. rewrite Hraw, Htr. fold xp. fold t7.
    rewrite tget_set_if_nonempty_other by discriminate.
    rewrite test_cs_includes. cbn [existsb]. rewrite orb_false_r.
    destruct (Js.includes "next.js" xp || Js.includes "nuxt.js" xp); cbn [negb];
      [exact H7 | apply tget_tset_same].
Qed.

(** X11. The discovery probe is conservative and cheap: it sends at most
    one request, never throws, and answers true only when the endpoint
    replied with a 2xx status, a JSON content type and an object that
    carries a namespaces array and non-empty routes, or else a response
    header whose name starts with x-wp-. *)
Theorem probe_is_conservative (baseUrl : string) :
  calls net (isWordPressViaAPI baseUrl) <= 1 /\
  (exists api, eval net (isWordPressViaAPI baseUrl) = Returned api) /\
  (eval net (isWordPressViaAPI baseUrl) = Returned true ->
   exists u r,
     URL_resolve "/wp-json" baseUrl = Some u /\
     net ProbeGet (href u) = Responded r /\
     200 <= status r < 300 /\
     Js.includes "application/json"
                 (Js.toLowerCase (header_string (Js.get "content-type" (headers r)))) = true /\
     is_object (data r) = true /\
     ((exists items routes,
          prop "namespaces" (data r) = Some (JArr items) /\
          prop "routes" (data r) = Some routes /\
          is_object routes = true /\ has_keys routes = true) \/
      exists h, In h (Js.keys (headers r)) /\
                Js.startsWith "x-wp-" (Js.toLowerCase h) = true)).
Proof.
  split; [|split].
  - unfold calls. rewrite trace_probe.
    destruct (URL_resolve "/wp-json" baseUrl); simpl; lia.
  - apply probe_returns.
  - unfold isWordPressViaAPI. rewrite eval_try_catch, eval_bind.
    destruct (URL_resolve "/wp-json" baseUrl) as [u|]; cbn [lift eval]; [|discriminate].
    rewrite eval_bind. unfold get. cbn [eval].
    destruct (net ProbeGet (href u)) as [why|r] eqn:Hnet; cbn [validateStatus eval];
      [discriminate|].
    destruct ((status r <? 200) || (300 <=? status r)) eqn:Hst; cbn [eval]; [discriminate|].
    apply orb_false_elim in Hst. destruct Hst as [H200 H300].
    apply Nat.ltb_ge in H200. apply Nat.leb_gt in H300.
    destruct (Js.includes "application/json" _) eqn:Hct; cbn [negb eval]; [|discriminate].
    destruct (is_object (data r)) eqn:Hobj; cbn [negb eval]; [|discriminate].
    intros H. injection H as H.
    exists u, r. split; [reflexivity|]. split; [exact Hnet|]. split; [now split|].
    do 2 (split; [assumption|]).
    apply orb_true_iff in H. destruct H as [H|H].
    + left. apply andb_true_iff in H. destruct H as [Hns Hrt].
      destruct (prop "namespaces" (data r)) as [[| | | |items|]|]; try discriminate Hns.
      destruct (prop "routes" (data r)) as [routes|]; [|discriminate Hrt].
      apply andb_true_iff in Hrt. destruct Hrt as [Ho Hk].
      exists items, routes. auto.
    + right. apply existsb_exists in H. destruct H as [h [Hin Hh]]. eauto.
Qed.

End Frameworks.

Section Order.

Context {RT : Runtime}.

Lemma insert_at_front (c : candidate) (l : list candidate) :
  Forall (fun x => priority c <= priority x) l -> insert_by_priority c l = c :: l.
Proof.
  destruct 1 as [|x l Hx _]; simpl; [reflexivity|].
  apply Nat.leb_le in Hx. now rewrite Hx.
Qed.

Lemma insert_after (c : candidate) (l r : list candidate) :
  Forall (fun x => priority x < priority c) l ->
  insert_by_priority c (l ++ r) = l ++ insert_by_priority c r.
Proof.
  induction 1 as [|x l Hx _ IH]; simpl; [reflexivity|].
  apply Nat.leb_gt in Hx. now rewrite Hx, IH.
Qed.

Lemma tier_priority (k : nat) (l : list candidate) :
  Forall (fun x => priority x = k) (tier k l).
Proof.
  apply Forall_forall. intros x Hx. apply filter_In in Hx. now apply Nat.eqb_eq.
Qed.

Lemma sort_is_stable (l : list candidate) :
  Forall (fun c => priority c <= 2) l ->
  sort_by_priority l = tier 0 l ++ tier 1 l ++ tier 2 l.
Proof.
  induction 1 as [|c l Hc _ IH]; [reflexivity|].
  cbn [sort_by_priority fold_right]. fold (sort_by_priority l). rewrite IH.
  pose proof (tier_priority 0 l) as H0. pose proof (tier_priority 1 l) as H1.
  pose proof (tier_priority 2 l) as H2.
  unfold tier at 4 5 6. cbn [filter]. fold (tier 0 l) (tier 1 l) (tier 2 l).
  assert (Hp : priority c = 0 \/ priority c = 1 \/ priority c = 2) by lia.
  destruct Hp as [Hp | [Hp | Hp]]; rewrite Hp; cbn [Nat.eqb].
  - apply insert_at_front. rewrite Hp. apply Forall_forall. intros x _. lia.
  - rewrite insert_after
      by (eapply Forall_impl; [|exact H0]; intros x Hx; cbv beta in *; lia).
    f_equal. apply insert_at_front. apply Forall_app. split.
    + eapply Forall_impl; [|exact H1]. intros x Hx. cbv beta in *. lia.
    + eapply Forall_impl; [|exact H2]. intros x Hx. cbv beta in *. lia.
  - rewrite insert_after
      by (eapply Forall_impl; [|exact H0]; intros x Hx; cbv beta in *; lia).
    f_equal.
    rewrite insert_after
      by (eapply Forall_impl; [|exact H1]; intros x Hx; cbv beta in *; lia).
    f_equal. apply insert_at_front.
    eapply Forall_impl; [|exact H2]. intros x Hx. cbv beta in *. lia.
Qed.

Lemma candidates_priority (d : Dom.Cheerio) (baseUrl baseHost : string) :
  Forall (fun c => priority c <= 2) (candidates d baseUrl baseHost).
Proof.
  apply Forall_forall. intros c Hc. unfold candidates in Hc. apply non_null_in in Hc.
  apply in_map_iff in Hc. destruct Hc as [e [He _]].
  rewrite (to_candidate_priority _ _ _ He).
  destruct (isModule c), (sameOrigin c); simpl; lia.
Qed.

Lemma tier_rank (l : list candidate) :
  (forall c, In c l ->
             priority c = (if isModule c then 0 else 1) + (if sameOrigin c then 0 else 1)) ->
  tier 0 l = filter module_of_the_site l /\
  tier 1 l = filter module_or_of_the_site l /\
  tier 2 l = filter foreign_classic l.
Proof.
  intros H. unfold tier.
  repeat split; apply filter_ext_in; intros c Hc; rewrite (H c Hc);
    unfold module_of_the_site, module_or_of_the_site, foreign_classic;
    destruct (isModule c), (sameOrigin c); reflexivity.
Qed.

(** X12. The work-list keeps the order of the page within a rank: it is
    the addresses of the first twelve of the module references of the site,
    then the references that are either module or of the site but not both,
    then the classic references of other hosts, each group in the order of
    the page.  The references are those of the page whose address is not
    blank and resolves; a reference is a module reference when its element
    has type module in any letter case, and of the site when its resolved
    address is on the host of the page. *)
Theorem worklist_keeps_document_order (d : Dom.Cheerio) (baseUrl : string) (b : URL) :
  URL_new baseUrl = Some b ->
  let found := candidates d baseUrl (host b) in
  pickTopScripts d baseUrl =
    Some (map url (firstn MAX_SCRIPT_REQUESTS
                          (filter module_of_the_site found ++
                           filter module_or_of_the_site found ++
                           filter foreign_classic found))) /\
  exists keep : Dom.element -> bool,
    (forall e, keep e = true <-> exists c, reference_of baseUrl (host b) e c) /\
    Forall2 (reference_of baseUrl (host b)) (filter keep (script_nodes d)) found.
Proof.
  intros Hb found. subst found. split; [|apply candidates_described].
  unfold pickTopScripts, slice0. rewrite Hb.
  rewrite (sort_is_stable (candidates_priority d baseUrl (host b))).
  assert (Hprio : forall c, In c (candidates d baseUrl (host b)) ->
            priority c = (if isModule c then 0 else 1) + (if sameOrigin c then 0 else 1)).
  { intros c Hc. unfold candidates in Hc. apply non_null_in in Hc.
    apply in_map_iff in Hc. destruct Hc as [e [He _]].
    exact (to_candidate_priority _ _ _ He). }
  destruct (tier_rank _ Hprio) as [-> [-> ->]]. reflexivity.
Qed.

End Order.

(* ================================================================== *)
(** ** The page and the display *)
(* ================================================================== *)

Section Page.

Import Http.

Context {RT : Runtime}.
Variable net : Net.

Lemma truthy_nonblank (s : string) : s <> "" -> Js.truthy s = true.
Proof. destruct s; [intros H; now contradiction H | reflexivity]. Qed.

(** X24. An input that is blank after trimming is refused on the page:
    the message Please enter a valid URL. is set, the state is otherwise
    left as it was, and no request is sent, neither to the route nor to
    any site. *)
Theorem blank_input_is_refused_on_the_page (url : string) (st : HomeState) :
  Js.trim url = "" ->
  eval net (analyzeTechStack url st) =
    Returned (mkHome (home_techStack st) (home_loading st) "Please enter a valid URL.") /\
  calls net (analyzeTechStack url st) = 0.
Proof.
  intros Hblank. unfold analyzeTechStack, formatUrl, calls. cbv zeta. rewrite Hblank.
  split; reflexivity.
Qed.

(** X25. The page shows what the route answered: for an input that is not
    blank, the analysis on the page ends with the loading flag down and
    with either the record of the answer and no error, or the error message
    of the answer and no record.  The message shown is the one the route
    sent, also for status 403, and the panel is never the spinner nor the
    placeholder. *)
Theorem page_shows_the_answer (url : string) (st : HomeState) (r : NextResponse) :
  formatUrl url <> "" ->
  eval net (POST (page_request (formatUrl url))) = Returned r ->
  exists st',
    eval net (analyzeTechStack url st) = Returned st' /\
    st' = match next_body r with
          | ErrorBody msg => mkHome None false msg
          | TechBody t => mkHome (Some t) false ""
          end /\
    panel st' = shown (next_body r).
Proof.
  intros Hne Hr.
  unfold analyzeTechStack. cbv zeta. rewrite (truthy_nonblank Hne). cbn [negb].
  rewrite eval_bind, eval_try_catch, eval_bind. fold (page_request (formatUrl url)).
  rewrite Hr.
  destruct (POST_cases net (page_request (formatUrl url)))
    as [[msg [code [H Hin]]] | [[u [resp [_ [_ H]]]] | [u [resp [t [_ [_ [_ H]]]]]]]];
    rewrite H in Hr; injection Hr as <-.
  - simpl in Hin.
    repeat (destruct Hin as [Hin|Hin];
            [injection Hin as <- <-; eexists; split; [reflexivity|]; split; reflexivity|]).
    contradiction.
  - eexists. split; [reflexivity|]. split; reflexivity.
  - eexists. split; [reflexivity|]. cbn. split; [reflexivity|].
    unfold panel. reflexivity.
Qed.

End Page.

Section Display.

Lemma FieldRow_shown (label : string) (value : option Value) (row : Row) :
  FieldRow label value = Some row ->
  fst row = label /\ snd row <> [] /\ ~ In "" (snd row) \/
  fst row = label /\ exists l, value = Some (VList l) /\ snd row = l /\ l <> [].
Proof.
  unfold FieldRow. destruct value as [[s|l|b|]|]; try discriminate.
  - destruct s as [|c s]; [discriminate|]. cbn. intros H. injection H as <-. left.
    cbn. split; [reflexivity|]. split; [discriminate|]. intros [C|[]]. discriminate C.
  - destruct l as [|x l]; [discriminate|]. intros H. injection H as <-. right.
    split; [reflexivity|]. exists (x :: l). repeat split. discriminate.
Qed.

Lemma FieldRow_label (label : string) (value : option Value) (row : Row) :
  FieldRow label value = Some row -> fst row = label /\ snd row <> [].
Proof.
  intros H. destruct (FieldRow_shown _ _ H) as [[H1 [H2 _]] | [H1 [l [_ [-> H2]]]]]; auto.
Qed.

(** X28. The display of a record: a row is shown only with at least one
    badge; the WordPress notice is shown exactly when the flag of the
    record is up, and then the rows JavaScript Frameworks and CSS
    Frameworks are left out, whatever the record lists; without the flag,
    the frameworks of the record are shown as they are. *)
Theorem display_hides_frameworks_on_wordpress (techStack : TechStack) :
  let shown_rows := display_rows (TechStackDisplay techStack) in
  display_notice (TechStackDisplay techStack) = wordpress_flag techStack /\
  Forall (fun row => snd row <> []) shown_rows /\
  (wordpress_flag techStack = true ->
   forall row, In row shown_rows ->
               fst row <> "JavaScript Frameworks" /\ fst row <> "CSS Frameworks") /\
  (wordpress_flag techStack = false ->
   forall l, l <> [] ->
             (tget Key.javascriptFrameworks techStack = Some (VList l) ->
              In ("JavaScript Frameworks", l) shown_rows) /\
             (tget Key.cssFrameworks techStack = Some (VList l) ->
              In ("CSS Frameworks", l) shown_rows)).
Proof.
  cbv zeta. unfold TechStackDisplay. cbv zeta. cbn [display_rows display_notice].
  split; [reflexivity|]. split; [|split].
  - apply Forall_forall. intros row Hrow. apply non_null_in in Hrow.
    cbn [In] in Hrow. revert Hrow.
    destruct (wordpress_flag techStack); intros Hrow;
      repeat (destruct Hrow as [Hrow|Hrow];
              [ first [ discriminate Hrow | exact (proj2 (FieldRow_label _ _ Hrow)) ] |]);
      contradiction.
  - intros Hwp row Hrow. rewrite Hwp in Hrow. apply non_null_in in Hrow.
    cbn [In] in Hrow.
    repeat (destruct Hrow as [Hrow|Hrow];
            [ first [ discriminate Hrow
                    | apply FieldRow_label in Hrow;
                      destruct Hrow as [-> _]; split; discriminate ] |]).
    contradiction.
  - intros Hwp l Hl. rewrite Hwp. split; intros Hget; rewrite Hget.
    + destruct l as [|x l]; [now contradiction Hl|].
      destruct (FieldRow "CMS" (tget Key.cms techStack)); cbn; tauto.
    + destruct l as [|x l]; [now contradiction Hl|].
      destruct (FieldRow "CMS" (tget Key.cms techStack));
        destruct (FieldRow "JavaScript Frameworks" (tget Key.javascriptFrameworks techStack));
        cbn; tauto.
Qed.

End Display.

(* ================================================================== *)
(** ** The requests of the route *)
(* ================================================================== *)

Section RouteRequests.

Import Http.

Context {RT : Runtime}.
Variable net : Net.

Lemma lower_keys_names (headers : Js.Obj string) :
  lower_keys (lower_names headers) = lower_keys headers.
Proof.
  unfold lower_keys, lower_names. generalize (@nil (string * string)).
  induction headers as [|[k v] headers IH]; intros acc; [reflexivity|].
  cbn [map fold_left fst snd]. now rewrite toLowerCase_idem, IH.
Qed.

(** X23. The CDN and hosting inference reads header names up to letter
    case: two header objects that agree once their names are put in lower
    case get the same CDN list and the same hosting. *)
Theorem edge_inference_ignores_header_case (headers1 headers2 : Js.Obj string) :
  lower_names headers1 = lower_names headers2 ->
  inferCDN headers1 = inferCDN headers2 /\ inferHosting headers1 = inferHosting headers2.
Proof.
  intros H.
  assert (Hk : lower_keys headers1 = lower_keys headers2)
    by (rewrite <- (lower_keys_names headers1), H; apply lower_keys_names).
  unfold inferCDN, inferHosting. now rewrite Hk.
Qed.

(** X10. The discovery probe is a fallback: when the markup already shows
    Shopify, Squarespace, Wix or WordPress, the CMS section sends no
    request; otherwise its requests are those of the probe. *)
Theorem probe_only_when_markup_is_silent (d : Dom.Cheerio) (baseUrl : string)
        (tech : TechStack) :
  trace net (detect_cms d baseUrl tech) =
    if isShopify d || isSquarespace d || isWix d || isWordPress d
    then []
    else trace net (isWordPressViaAPI baseUrl).
Proof.
  unfold detect_cms.
  destruct (isShopify d); [reflexivity|].
  destruct (isSquarespace d); [reflexivity|].
  destruct (isWix d); [reflexivity|].
  destruct (isWordPress d); [reflexivity|]. cbn [orb].
  rewrite trace_bind.
  destruct (probe_returns net baseUrl) as [api ->].
  destruct api; [apply app_nil_r|].
  destruct (isDrupal d); [apply app_nil_r|]. destruct (isJoomla d); [apply app_nil_r|].
  destruct (Dom.first_attr d _ "content"); apply app_nil_r.
Qed.

Lemma analysis_requests (html : string) (headers : Js.Obj string) (baseUrl : string) :
  Forall (fun cu => fst cu <> DocumentGet) (trace net (detectTechStack html headers baseUrl)) /\
  calls net (detectTechStack html headers baseUrl) <= 1 + 28 * MAX_SCRIPT_REQUESTS.
Proof.
  destruct (probe_returns net baseUrl) as [api Hapi].
  pose proof (eval_detect_cms net (cheerio_load html) baseUrl [] Hapi) as Hcms.
  set (d := cheerio_load html) in *.
  set (t1 := cms_section d api []) in *.
  assert (Htrace : trace net (detectTechStack html headers baseUrl) =
                   trace net (detect_cms d baseUrl []) ++
                   script_requests (worklist d baseUrl) (scan_count (wordpress_flag t1))).
  { unfold detectTechStack. cbv zeta. fold d. rewrite trace_bind, Hcms. f_equal.
    exact (proj1 (scans_after_cms net html headers baseUrl t1)). }
  split.
  - rewrite Htrace. apply Forall_app. split.
    + destruct (trace_detect_cms net d baseUrl []) as [-> | [u [_ ->]]];
        repeat constructor; discriminate.
    + apply Forall_forall. intros [c u] Hin.
      apply script_requests_in in Hin. destruct Hin as [-> _]. discriminate.
  - unfold calls. rewrite Htrace, length_app, script_requests_length.
    pose proof (worklist_length d baseUrl) as Hlen.
    assert (Hk : scan_count (wordpress_flag t1) <= 28)
      by (unfold scan_count; destruct (wordpress_flag t1); lia).
    assert (Hp : List.length (trace net (detect_cms d baseUrl [])) <= 1)
      by (destruct (trace_detect_cms net d baseUrl []) as [-> | [u [_ ->]]]; simpl; lia).
    unfold MAX_SCRIPT_REQUESTS in *. nia.
Qed.

(** X5. The requests of one call of the route that carries a usable URL:
    the document of that URL, requested first, and after it the requests
    of the analysis, when the document arrived with a status below 400, and
    nothing otherwise.  The later requests are the discovery probe and
    script requests, made with their own request options, at most
    1 + 28 * 12 of them.  A script request may go to the address of the
    document itself, when the page refers to it as a script. *)
Theorem route_request_budget (req : NextRequest) (body : Json) (u : string) :
  body_json req = Some body ->
  prop "url" body = Some (JStr u) ->
  u <> "" ->
  exists rest,
    trace net (POST req) = (DocumentGet, u) :: rest /\
    rest = match net DocumentGet u with
           | Failed _ => []
           | Responded r =>
               if 400 <=? status r then []
               else trace net (detectTechStack (document_text (data r))
                                               (lowercase_headers (headers r)) u)
           end /\
    Forall (fun cu => fst cu = ProbeGet \/ fst cu = ScriptGet) rest /\
    List.length rest <= 1 + 28 * MAX_SCRIPT_REQUESTS.
Proof.
  intros Hbody Hurl Hu.
  destruct (prop_is_object _ _ Hurl) as [fields ->].
  assert (Htr : Js.truthy u = true) by (destruct u; [contradiction | reflexivity]).
  unfold POST. rewrite Hbody. cbn [lift bind destructure_url]. rewrite Hurl, Htr.
  cbn [negb]. unfold get. cbn [bind try_catch trace].
  destruct (net DocumentGet u) as [why|r]; cbn [validateStatus bind try_catch trace].
  - exists []. repeat split; [constructor | simpl; lia].
  - destruct (status r =? 403) eqn:E403; cbn [try_catch trace].
    { apply Nat.eqb_eq in E403.
      assert (E : (400 <=? status r) = true) by (apply Nat.leb_le; lia).
      rewrite E. exists []. repeat split; [constructor | simpl; lia]. }
    destruct (400 <=? status r); cbn [try_catch trace];
      [exists []; repeat split; [constructor | simpl; lia]|].
    rewrite trace_try_catch, trace_bind.
    set (run := detectTechStack (document_text (data r)) (lowercase_headers (headers r)) u).
    destruct (analysis_requests (document_text (data r)) (lowercase_headers (headers r)) u)
      as [Hdoc Hlen].
    fold run in Hdoc, Hlen.
    assert (Hrest : (trace net run ++
                     match eval net run with
                     | Returned a => trace net (Ret (mkNext (TechBody (to_json a)) 200))
                     | Thrown => []
                     end) ++
                    match eval net (bind run (fun tech => Ret (mkNext (TechBody (to_json tech)) 200)))
                    with
                    | Returned _ => []
                    | Thrown => trace net (Ret (error_response "Invalid request body" 400))
                    end = trace net run).
    { destruct (eval net run); destruct (eval net (bind run _)); cbn [trace];
        now rewrite !app_nil_r. }
    rewrite Hrest. exists (trace net run).
    split; [reflexivity|]. split; [reflexivity|]. split; [|exact Hlen].
    eapply Forall_impl; [|exact Hdoc]. intros [c v]. cbn [fst].
    destruct c; intros H; [now elim H | now left | now right].
Qed.

End RouteRequests.

(* ================================================================== *)
(** ** Detections under more script evidence *)
(* ================================================================== *)

Section Degradation.

Import Http.

Context {RT : Runtime}.
Variables net1 net2 : Net.
Variable d : Dom.Cheerio.
Variable baseUrl : string.

Hypothesis more : more_scripts net1 net2 d baseUrl.

Lemma matches_rise (matcher : string -> bool) (u : string) :
  In u (worklist d baseUrl) ->
  implies (script_matches net1 matcher u) (script_matches net2 matcher u).
Proof.
  intros Hin. unfold implies, script_matches.
  destruct (script_body net1 u) as [t|] eqn:E; [|discriminate].
  now rewrite (@more _ _ Hin E).
Qed.

Lemma rises_scan (matcher : string -> bool) :
  rises net1 net2 (containsInScripts d baseUrl matcher).
Proof.
  intros x1 x2. rewrite !eval_containsInScripts.
  pose proof (matches_rise matcher) as Hm. unfold worklist in Hm.
  destruct (pickTopScripts d baseUrl) as [urls|]; [|discriminate].
  intros H1 H2. injection H1 as <-. injection H2 as <-.
  unfold implies. rewrite !existsb_exists. intros [u [Hu Hx]].
  exists u. split; [exact Hu | now apply Hm].
Qed.

Lemma rises_then (p : Prog bool) (g : bool -> bool) :
  rises net1 net2 p ->
  (forall x1 x2, implies x1 x2 -> implies (g x1) (g x2)) ->
  rises net1 net2 (bind p (fun x => Ret (g x))).
Proof.
  intros Hp Hg y1 y2. rewrite !eval_bind.
  destruct (eval net1 p) as [x1|] eqn:E1; [|discriminate].
  destruct (eval net2 p) as [x2|] eqn:E2; [|discriminate].
  cbn [eval]. intros H1 H2. injection H1 as <-. injection H2 as <-.
  apply Hg. exact (Hp _ _ E1 E2).
Qed.

Lemma rises_ret (b : bool) : rises net1 net2 (Ret b).
Proof. intros x1 x2 H1 H2. injection H1 as <-. injection H2 as <-. now intros H. Qed.

Ltac locals :=
  repeat match goal with
         | |- context [Dom.any ?a ?s] => generalize (Dom.any a s); intro
         | |- context [Dom.inline_script ?a ?p] => generalize (Dom.inline_script a p); intro
         | |- context [String.eqb ?a ?c] => generalize (String.eqb a c); intro
         | |- context [Js.b2n ?a] => tryif is_var a then fail else (generalize a; intro)
         end.

Ltac mono :=
  let x1 := fresh "x" in
  let x2 := fresh "x" in
  let Hx := fresh "Hx" in
  intros x1 x2 Hx; unfold implies in *; locals;
  repeat match goal with b : bool |- _ => destruct b end;
  cbn; intros;
  first [reflexivity | assumption | discriminate | exact (Hx eq_refl)].

Ltac rise := cbv zeta; apply rises_then; [apply rises_scan | mono].

Lemma rises_detections :
  Forall (fun np => rises net1 net2 (snd np)) (jsDetections d baseUrl).
Proof.
  unfold jsDetections. repeat (apply Forall_cons; [cbn [snd] |]); [..| apply Forall_nil].
  - unfold containsReact. rise.
  - unfold containsVue. rise.
  - unfold containsAngular. rise.
  - unfold containsNextJs. rise.
  - unfold containsGatsby. rise.
  - unfold containsSvelte. rise.
  - unfold containsEmber. rise.
  - unfold containsNuxtJs. rise.
  - unfold containsPolymer. rise.
  - unfold containsjQuery. rise.
  - unfold containsBackbone. rise.
  - unfold containsDojo. rise.
  - unfold containsMeteor. rise.
  - unfold containsAstro. rise.
  - unfold containsRemix. rise.
  - apply rises_ret.
  - apply rises_ret.
Qed.

Lemma rises_mapM {A} (f : A -> Prog bool) (l : list A) (h1 h2 : list bool) :
  Forall (fun x => rises net1 net2 (f x)) l ->
  eval net1 (mapM f l) = Returned h1 ->
  eval net2 (mapM f l) = Returned h2 ->
  Forall2 implies h1 h2.
Proof.
  intros Hl. revert h1 h2. induction Hl as [|x l Hx _ IH]; intros h1 h2; cbn [mapM].
  - intros H1 H2. injection H1 as <-. injection H2 as <-. constructor.
  - rewrite !eval_bind.
    destruct (eval net1 (f x)) as [y1|] eqn:E1; [|discriminate].
    destruct (eval net2 (f x)) as [y2|] eqn:E2; [|discriminate].
    rewrite !eval_bind.
    destruct (eval net1 (mapM f l)) as [r1|]; [|discriminate].
    destruct (eval net2 (mapM f l)) as [r2|]; [|discriminate].
    cbn [eval]. intros H1 H2. injection H1 as <-. injection H2 as <-.
    constructor; [exact (Hx _ _ E1 E2) | now apply IH].
Qed.

Lemma collect_hits_in (names : list string) (hits : list bool) (x : string) :
  In x (collect_hits names hits) <-> In (x, true) (combine names hits).
Proof.
  unfold collect_hits.
  assert (H : forall l acc,
             In x (fold_left (fun (s : Js.StrSet) (nh : string * bool) =>
                                if snd nh then Js.add (fst nh) s else s) l acc)
             <-> In x acc \/ In (x, true) l).
  { induction l as [|[n h] l IH]; intros acc; cbn [fold_left In]; [tauto|].
    rewrite IH. cbn [fst snd]. destruct h.
    - rewrite add_in. split.
      + intros [[-> | H] | H]; auto.
      + intros [H | [H | H]]; auto. injection H as ->. auto.
    - split.
      + intros [H | H]; auto.
      + intros [H | [H | H]]; auto. discriminate H. }
  rewrite H. cbn [In]. tauto.
Qed.

Lemma combine_rises (names : list string) (h1 h2 : list bool) (x : string) :
  Forall2 implies h1 h2 -> In (x, true) (combine names h1) -> In (x, true) (combine names h2).
Proof.
  intros H. revert names. induction H as [|a b h1 h2 Hab _ IH]; intros names.
  - destruct names; contradiction.
  - destruct names as [|n names]; [contradiction|]. cbn [combine In].
    intros [E|Hin]; [|right; now apply IH].
    injection E as -> ->. left. now rewrite (Hab eq_refl).
Qed.

Lemma detect_js_grows (tech1 tech2 r1 r2 : TechStack) (js1 js2 : Js.StrSet) :
  eval net1 (detect_js d baseUrl tech1) = Returned (r1, js1) ->
  eval net2 (detect_js d baseUrl tech2) = Returned (r2, js2) ->
  incl js1 js2.
Proof.
  unfold detect_js. cbv zeta. rewrite !eval_bind.
  destruct (eval net1 (mapM _ _)) as [h1|] eqn:E1; [|discriminate].
  destruct (eval net2 (mapM _ _)) as [h2|] eqn:E2; [|discriminate].
  cbn [eval]. intros H1 H2. injection H1 as _ <-. injection H2 as _ <-.
  pose proof (rises_mapM (fun np => snd np) rises_detections E1 E2) as Hh.
  intros x. rewrite !collect_hits_in. now apply combine_rises.
Qed.

Lemma incl_push_if (c1 c2 : bool) (x : string) (l1 l2 : list string) :
  implies c1 c2 -> incl l1 l2 -> incl (push_if c1 x l1) (push_if c2 x l2).
Proof.
  unfold push_if, implies. intros Hc Hl y.
  destruct c1; [rewrite (Hc eq_refl)|destruct c2]; rewrite ?in_app_iff; cbn [In];
    intros H; intuition auto.
Qed.

Lemma incl_add_if (c1 c2 : bool) (x : string) (s1 s2 : Js.StrSet) :
  implies c1 c2 -> incl s1 s2 -> incl (add_if c1 x s1) (add_if c2 x s2).
Proof.
  unfold implies. intros Hc Hs y. rewrite !add_if_in. intros [[E ->]|H].
  - left. split; [now apply Hc | reflexivity].
  - right. now apply Hs.
Qed.

Lemma implies_refl (b : bool) : implies b b.
Proof. now intros H. Qed.

Ltac step_on net H :=
  rewrite eval_bind in H;
  match type of H with
  | context [match eval net ?p with _ => _ end] =>
      let a := fresh "a" in
      let E := fresh "E" in
      destruct (eval net p) as [a|] eqn:E; [cbv beta zeta in H | discriminate H]
  end.

Lemma rises_scanning :
  Forall (rises net1 net2)
         [ containsMaterialUI d baseUrl; containsSemanticUI d baseUrl;
           containsMaterializeCSS d baseUrl; containsGoogleAnalytics d baseUrl;
           containsGoogleTagManager d baseUrl; containsMatomo d baseUrl;
           containsPlausible d baseUrl; containsMixpanel d baseUrl;
           containsAmplitude d baseUrl; containsSegment d baseUrl ].
Proof.
  repeat (apply Forall_cons; [|]); [..| apply Forall_nil].
  - unfold containsMaterialUI. rise.
  - unfold containsSemanticUI. rise.
  - unfold containsMaterializeCSS. rise.
  - unfold containsGoogleAnalytics. rise.
  - unfold containsGoogleTagManager. rise.
  - unfold containsMatomo. rise.
  - unfold containsPlausible. rise.
  - unfold containsMixpanel. rise.
  - unfold containsAmplitude. rise.
  - unfold containsSegment. rise.
Qed.

Ltac risen :=
  lazymatch goal with
  | |- rises _ _ (containsInScripts _ _ _) => apply rises_scan
  | _ => apply (proj1 (Forall_forall _ _) rises_scanning); simpl; tauto
  end.

Ltac risen_all :=
  repeat match goal with
         | E1 : eval net1 ?p = Returned ?x, E2 : eval net2 ?p = Returned ?y |- _ =>
             let Hr := fresh "Hr" in
             assert (Hr : rises net1 net2 p) by risen;
             pose proof (Hr x y E1 E2); clear Hr E1 E2
         end.

Lemma detect_css_grows (tech1 tech2 r1 r2 : TechStack) :
  wordpress_flag tech1 = wordpress_flag tech2 ->
  eval net1 (detect_css d baseUrl tech1) = Returned r1 ->
  eval net2 (detect_css d baseUrl tech2) = Returned r2 ->
  exists l1 l2,
    r1 = set_if_nonempty Key.cssFrameworks l1 tech1 /\
    r2 = set_if_nonempty Key.cssFrameworks l2 tech2 /\ incl l1 l2.
Proof.
  unfold detect_css. intros Hflag H1 H2. rewrite <- Hflag in H2.
  destruct (negb (wordpress_flag tech1)).
  - step_on net1 H1. step_on net1 H1. step_on net1 H1.
    step_on net2 H2. step_on net2 H2. step_on net2 H2.
    cbn [eval] in H1, H2. injection H1 as <-. injection H2 as <-.
    do 2 eexists. split; [reflexivity|]. split; [reflexivity|].
    risen_all.
    repeat (apply incl_push_if; [first [assumption | apply implies_refl]|]).
    apply incl_refl.
  - cbn [eval] in H1, H2. injection H1 as <-. injection H2 as <-.
    exists [], []. repeat split. apply incl_refl.
Qed.

Lemma detect_analytics_grows (tech1 tech2 r1 r2 : TechStack) :
  eval net1 (detect_analytics d baseUrl tech1) = Returned r1 ->
  eval net2 (detect_analytics d baseUrl tech2) = Returned r2 ->
  exists l1 l2,
    r1 = set_if_nonempty Key.analytics l1 tech1 /\
    r2 = set_if_nonempty Key.analytics l2 tech2 /\ incl l1 l2.
Proof.
  unfold detect_analytics. cbv zeta. intros H1 H2.
  do 7 step_on net1 H1. do 7 step_on net2 H2.
  cbn [eval] in H1, H2. injection H1 as <-. injection H2 as <-.
  do 2 eexists. split; [reflexivity|]. split; [reflexivity|].
  risen_all.
  repeat (apply incl_push_if; [assumption|]). apply incl_refl.
Qed.

Lemma detect_build_grows (html : string) (tech1 tech2 r1 r2 : TechStack) :
  eval net1 (detect_build html d baseUrl tech1) = Returned r1 ->
  eval net2 (detect_build html d baseUrl tech2) = Returned r2 ->
  exists l1 l2,
    r1 = set_if_nonempty Key.buildTools l1 tech1 /\
    r2 = set_if_nonempty Key.buildTools l2 tech2 /\ incl l1 l2.
Proof.
  unfold detect_build. cbv zeta. intros H1 H2.
  do 3 step_on net1 H1. do 3 step_on net2 H2.
  cbn [eval] in H1, H2. injection H1 as <-. injection H2 as <-.
  do 2 eexists. split; [reflexivity|]. split; [reflexivity|].
  risen_all.
  repeat (apply incl_add_if; [first [assumption | apply implies_refl]|]).
  apply incl_refl.
Qed.

End Degradation.

Section Graceful.

Import Http.

Context {RT : Runtime}.

Ltac step_on net H :=
  rewrite eval_bind in H;
  match type of H with
  | context [match eval net ?p with _ => _ end] =>
      let a := fresh "a" in
      let E := fresh "E" in
      destruct (eval net p) as [a|] eqn:E; [cbv beta zeta in H | discriminate H]
  end.

Lemma markup_sections_grow (net1 net2 : Net) (html baseUrl : string)
      (a b : TechStack) (js1 js2 : Js.StrSet) :
  more_scripts net1 net2 (cheerio_load html) baseUrl ->
  same_probe net1 net2 baseUrl ->
  eval net1 (markup_sections html baseUrl) = Returned (a, js1) ->
  eval net2 (markup_sections html baseUrl) = Returned (b, js2) ->
  exists api css1 css2 an1 an2 ma mo pa bu1 bu2,
    a = page_record (cms_section (cheerio_load html) api []) js1 css1 an1 ma mo pa bu1 /\
    b = page_record (cms_section (cheerio_load html) api []) js2 css2 an2 ma mo pa bu2 /\
    incl js1 js2 /\ incl css1 css2 /\ incl an1 an2 /\ incl bu1 bu2.
Proof.
  intros Hmore Hprobe H1 H2. unfold markup_sections in H1, H2. cbv zeta in H1, H2.
  destruct (probe_returns net1 baseUrl) as [api Hapi1].
  assert (Hapi2 : eval net2 (isWordPressViaAPI baseUrl) = Returned api)
    by (rewrite <- (alike_probe Hprobe); exact Hapi1).
  rewrite eval_bind, (eval_detect_cms _ _ _ _ Hapi1) in H1.
  rewrite eval_bind, (eval_detect_cms _ _ _ _ Hapi2) in H2.
  set (d := cheerio_load html) in *.
  set (t1 := cms_section d api []) in *.
  step_on net1 H1. destruct a0 as [ta ja]. step_on net2 H2. destruct a0 as [tb jb].
  pose proof (@detect_js_grows _ _ _ _ _ Hmore _ _ _ _ _ _ E E0) as Hjs.
  apply eval_detect_js in E, E0. subst ta tb.
  step_on net1 H1. step_on net2 H2.
  assert (Hflag : wordpress_flag (set_if_nonempty Key.javascriptFrameworks ja t1) =
                  wordpress_flag (set_if_nonempty Key.javascriptFrameworks jb t1))
    by now rewrite !flag_after_js.
  destruct (@detect_css_grows _ _ _ _ _ Hmore _ _ _ _ Hflag E E0) as [css1 [css2 [-> [-> Hcss]]]].
  step_on net1 H1. step_on net2 H2.
  destruct (@detect_analytics_grows _ _ _ _ _ Hmore _ _ _ _ E1 E2) as [an1 [an2 [-> [-> Han]]]].
  step_on net1 H1. step_on net2 H2.
  destruct (@detect_build_grows _ _ _ _ _ Hmore _ _ _ _ _ E3 E4) as [bu1 [bu2 [-> [-> Hbu]]]].
  cbn [eval] in H1, H2. injection H1 as <- <-. injection H2 as <- <-.
  exists api, css1, css2, an1, an2. do 3 eexists. exists bu1, bu2.
  split; [reflexivity|]. split; [reflexivity|]. auto.
Qed.

Lemma platform_frameworks (headers : Js.Obj string) :
  exists c1 c2 : bool,
  forall (js : Js.StrSet) (t : TechStack),
    tget Key.javascriptFrameworks (detect_platform headers js t) =
    match add_if c2 "Nuxt.js" (add_if c1 "Next.js" js) with
    | [] => tget Key.javascriptFrameworks t
    | _ => Some (VList (add_if c2 "Nuxt.js" (add_if c1 "Next.js" js)))
    end.
Proof.
  unfold detect_platform.
  destruct (Js.get "x-powered-by" headers) as [raw|].
  - destruct (Js.truthy raw).
    + exists (Js.includes "next.js" (Js.toLowerCase raw)),
             (Js.includes "nuxt.js" (Js.toLowerCase raw)).
      intros js t. rewrite tget_set_if_nonempty_same.
      destruct (negb _); rewrite ?tget_tset_other by discriminate; reflexivity.
    + exists false, false. intros js t. apply tget_set_if_nonempty_same.
  - exists false, false. intros js t. apply tget_set_if_nonempty_same.
Qed.

Lemma incl_cons_nil {A} (x : A) (l : list A) : ~ incl (x :: l) [].
Proof. intros H. exact (H x (or_introl eq_refl)). Qed.

Lemma risen_list (f : Key.Field) (base : TechStack) (l1 l2 : list string) (v : Value) :
  tget f base = None ->
  incl l1 l2 ->
  match l1 with [] => tget f base | _ => Some (VList l1) end = Some v ->
  match v with
  | VList l => exists l', match l2 with [] => tget f base | _ => Some (VList l2) end
                          = Some (VList l') /\ incl l l'
  | _ => match l2 with [] => tget f base | _ => Some (VList l2) end = Some v
  end.
Proof.
  intros Hbase Hincl H. destruct l1 as [|x l1]; [rewrite Hbase in H; discriminate H|].
  injection H as <-. destruct l2 as [|y l2]; [now apply incl_cons_nil in Hincl|]. eauto.
Qed.

Lemma same_value (o : option Value) (v : Value) :
  o = Some v ->
  match v with
  | VList l => exists l', o = Some (VList l') /\ incl l l'
  | _ => o = Some v
  end.
Proof. intros ->. destruct v; try reflexivity. eexists. split; [reflexivity | apply incl_refl]. Qed.

(** X13. More script evidence never retracts a detection.  When a second
    network delivers every script of the page that a first one delivers,
    with the same text, and answers the discovery probe alike, the record
    of the second analysis holds every value of the first: the same CMS,
    flag, server, platform and hosting, and in every list at least the same
    entries.  A script that fails to load can only lose detections. *)
Theorem more_scripts_more_detections
        (net1 net2 : Net) (html : string) (headers : Js.Obj string) (baseUrl : string)
        (t1 t2 : TechStack) :
  more_scripts net1 net2 (cheerio_load html) baseUrl ->
  same_probe net1 net2 baseUrl ->
  eval net1 (detectTechStack html headers baseUrl) = Returned t1 ->
  eval net2 (detectTechStack html headers baseUrl) = Returned t2 ->
  within t1 t2.
Proof.
  intros Hmore Hprobe H1 H2. rewrite detectTechStack_split in H1, H2.
  destruct (eval net1 (markup_sections html baseUrl)) as [[a js1]|] eqn:E1;
    [|discriminate H1].
  destruct (eval net2 (markup_sections html baseUrl)) as [[b js2]|] eqn:E2;
    [|discriminate H2].
  injection H1 as <-. injection H2 as <-.
  assert (Hagree : agree_on header_only_fields (header_sections headers js1 a)
                            (header_sections headers js2 b)).
  { apply header_sections_agree. intros f Hf.
    now rewrite (markup_leaves_header_fields _ _ _ E1 Hf),
                (markup_leaves_header_fields _ _ _ E2 Hf). }
  destruct (frameworks_before_headers _ _ _ E1) as [_ Hjs1].
  destruct (frameworks_before_headers _ _ _ E2) as [_ Hjs2].
  destruct (@markup_sections_grow _ _ _ _ _ _ _ _ Hmore Hprobe E1 E2)
    as [api [css1 [css2 [an1 [an2 [ma [mo [pa [bu1 [bu2 [Ha [Hb [Hjs [Hcss [Han Hbu]]]]]]]]]]]]]]].
  set (base := cms_section (cheerio_load html) api []) in *.
  assert (Hbase : forall f, f <> Key.cms -> f <> Key.isWordPress -> tget f base = None)
    by (intros f; apply cms_section_fields).
  intros f v Hget.
  assert (Hheader : In f header_only_fields ->
                    match v with
                    | VList l => exists l', tget f (header_sections headers js2 b)
                                            = Some (VList l') /\ incl l l'
                    | _ => tget f (header_sections headers js2 b) = Some v
                    end).
  { intros Hf. apply same_value. now rewrite <- (Hagree f Hf). }
  assert (Hpage : ~ In f header_fields ->
                  tget f a = Some v /\
                  tget f (header_sections headers js2 b) = tget f b).
  { intros Hf. split; [|apply header_sections_writes, Hf].
    now rewrite <- (header_sections_writes headers js1 a Hf). }
  destruct f.
  all: try (apply Hheader; simpl; tauto).
  all: try (destruct Hpage as [Hget' ->];
            [ simpl; intros C; repeat (destruct C as [C|C]; [discriminate C|]); exact C |];
            rewrite Ha in Hget'; rewrite Hb; unfold page_record in Hget' |- *;
            rewrite ?tget_set_if_nonempty_other in Hget' by discriminate;
            rewrite ?tget_set_if_nonempty_other by discriminate;
            first [ now apply same_value
                  | rewrite tget_set_if_nonempty_same in Hget';
                    rewrite tget_set_if_nonempty_same;
                    rewrite ?tget_set_if_nonempty_other in Hget' by discriminate;
                    rewrite ?tget_set_if_nonempty_other by discriminate;
                    refine (@risen_list _ _ _ _ _ _ _ Hget');
                    [ apply Hbase; discriminate | first [assumption | apply incl_refl] ] ]).
  (* the JavaScript frameworks: the page and the X-Powered-By header *)
  rewrite frameworks_after_headers in Hget |- *.
  destruct (platform_frameworks headers) as [c1 [c2 Hp]]. rewrite Hp in Hget |- *.
  rewrite frameworks_before_platform in Hget |- *. rewrite Hjs1 in Hget. rewrite Hjs2.
  assert (Hin : incl (add_if c2 "Nuxt.js" (add_if c1 "Next.js" js1))
                     (add_if c2 "Nuxt.js" (add_if c1 "Next.js" js2)))
    by (do 2 (apply incl_add_if; [apply implies_refl|]); exact Hjs).
  destruct (add_if c2 "Nuxt.js" (add_if c1 "Next.js" js1)) as [|x l1] eqn:Ep1.
  - destruct js1 as [|y js1]; [discriminate Hget|]. exfalso.
    assert (Hy : In y (add_if c2 "Nuxt.js" (add_if c1 "Next.js" (y :: js1))))
      by (do 2 apply add_if_keeps; now left).
    rewrite Ep1 in Hy. contradiction.
  - injection Hget as <-.
    destruct (add_if c2 "Nuxt.js" (add_if c1 "Next.js" js2)) as [|y l2];
      [now apply incl_cons_nil in Hin|]. eauto.
Qed.

End Graceful.

(* ================================================================== *)
(** ** What is fetched, and what is analysed *)
(* ================================================================== *)

Section Reach.

Import Http.

Context {RT : Runtime}.

Lemma firstn_in {A} (n : nat) (l : list A) (x : A) : In x (firstn n l) -> In x l.
Proof.
  revert l. induction n as [|n IH]; intros [|y l]; simpl; try tauto.
  intros [H|H]; [now left | right; now apply IH].
Qed.

Lemma script_node_tag (d : Dom.Cheerio) (e : Dom.element) :
  In e (script_nodes d) ->
  exists ancestors,
    In (e, ancestors) (Dom.all_elements d) /\
    (Dom.tag e = "script" \/ Dom.tag e = "link").
Proof.
  unfold script_nodes, Dom.query. intros H. apply in_map_iff in H.
  destruct H as [[e' anc] [He H]]. cbn [fst] in He. subst e'.
  apply filter_In in H. destruct H as [Hin Hm]. exists anc. split; [exact Hin|].
  cbn [existsb fst snd] in Hm. rewrite orb_false_r in Hm.
  apply orb_true_iff in Hm. unfold Dom.matches_cx, Dom.matches, Dom.el in Hm.
  cbn [Dom.subject Dom.sel_tag] in Hm.
  destruct Hm as [Hm|Hm]; repeat (apply andb_true_iff in Hm; destruct Hm as [Hm _]);
    apply String.eqb_eq in Hm; [left | right]; now symmetry.
Qed.

(** X26. The analyzer fetches no script the page does not reference:
    every URL of the work-list is the resolved address of a script element
    or of a link element of the page, read from its src attribute (href for
    a link), which is not blank. *)
Theorem scripts_fetched_are_referenced (d : Dom.Cheerio) (baseUrl u : string) :
  In u (worklist d baseUrl) ->
  exists e ancestors name v r,
    In (e, ancestors) (Dom.all_elements d) /\
    ((Dom.tag e = "script" /\ name = "src") \/ (Dom.tag e = "link" /\ name = "href")) /\
    Dom.attr name e = Some v /\
    Js.trim v <> "" /\
    URL_resolve (Js.trim v) baseUrl = Some r /\
    u = href r.
Proof.
  unfold worklist, pickTopScripts, slice0.
  destruct (URL_new baseUrl) as [b|]; [|contradiction].
  intros Hu. apply in_map_iff in Hu. destruct Hu as [c [<- Hc]].
  apply firstn_in in Hc.
  apply (Permutation_in _ (sort_perm _)) in Hc.
  unfold candidates in Hc. apply non_null_in in Hc. apply in_map_iff in Hc.
  destruct Hc as [e [He Hnode]].
  destruct (script_node_tag _ _ Hnode) as [anc [Hin Htag]].
  unfold to_candidate in He. cbv zeta in He.
  set (name := if String.eqb (Dom.tag e) "link" then "href" else "src") in *.
  destruct (Dom.attr name e) as [v|] eqn:Hattr; cbn [Js.or_empty] in He;
    [|discriminate He].
  destruct (Js.truthy (Js.trim v)) eqn:Htr; cbn [negb] in He; [|discriminate He].
  destruct (URL_resolve (Js.trim v) baseUrl) as [r|] eqn:Hres; [|discriminate He].
  destruct (URL_new (href r)); [|discriminate He].
  injection He as <-. cbn [url].
  exists e, anc, name, v, r. split; [exact Hin|]. split.
  - unfold name. destruct Htag as [Ht|Ht]; rewrite Ht; [left | right]; now split.
  - repeat split; try assumption.
    intros E. rewrite E in Htr. discriminate Htr.
Qed.

Variable net : Net.


End Reach.

(* ================================================================== *)
(** ** The analysis returns *)
(* ================================================================== *)

Section Robust.

Import Http.

Context {RT : Runtime}.
Variable net : Net.

Lemma settles_ret {A} (a : A) : settles net (Ret a).
Proof. now exists a. Qed.

Lemma settles_bind {A B} (p : Prog A) (f : A -> Prog B) :
  settles net p -> (forall a, settles net (f a)) -> settles net (bind p f).
Proof.
  intros [a Ha] Hf. unfold settles. rewrite eval_bind, Ha. apply Hf.
Qed.

Lemma settles_mapM {A B} (f : A -> Prog B) (l : list A) :
  Forall (fun x => settles net (f x)) l -> settles net (mapM f l).
Proof.
  induction 1 as [|x l Hx _ IH]; cbn [mapM]; [apply settles_ret|].
  apply settles_bind; [exact Hx|]. intros y.
  apply settles_bind; [exact IH|]. intros ys. apply settles_ret.
Qed.

Section Parsed.

Variables (d : Dom.Cheerio) (baseUrl : string).
Hypothesis parsed : URL_new baseUrl <> None.

Lemma settles_scan (matcher : string -> bool) :
  settles net (containsInScripts d baseUrl matcher).
Proof.
  unfold settles. rewrite eval_containsInScripts. unfold pickTopScripts.
  destruct (URL_new baseUrl); [eauto | now contradiction parsed].
Qed.

Ltac settle :=
  repeat match goal with
         | |- settles _ (Ret _) => apply settles_ret
         | |- settles _ (containsInScripts _ _ _) => apply settles_scan
         | |- settles _ (bind _ _) => apply settles_bind; [|intros]
         | |- settles _ (if ?c then _ else _) => destruct c
         | |- settles _ (let _ := _ in _) => cbv zeta
         end.

Lemma settles_detections :
  Forall (fun np => settles net (snd np)) (jsDetections d baseUrl).
Proof.
  unfold jsDetections, containsReact, containsVue, containsAngular, containsNextJs,
         containsGatsby, containsSvelte, containsEmber, containsNuxtJs, containsPolymer,
         containsjQuery, containsBackbone, containsDojo, containsMeteor, containsAstro,
         containsRemix.
  repeat (apply Forall_cons; [cbn [snd]; settle |]). apply Forall_nil.
Qed.

Lemma settles_detect_js (tech : TechStack) : settles net (detect_js d baseUrl tech).
Proof.
  unfold detect_js. cbv zeta. apply settles_bind; [|intros; apply settles_ret].
  exact (settles_mapM (fun np => snd np) settles_detections).
Qed.

Lemma settles_detect_css (tech : TechStack) : settles net (detect_css d baseUrl tech).
Proof.
  unfold detect_css, containsMaterialUI, containsSemanticUI, containsMaterializeCSS. settle.
Qed.

Lemma settles_detect_analytics (tech : TechStack) :
  settles net (detect_analytics d baseUrl tech).
Proof.
  unfold detect_analytics, containsGoogleAnalytics, containsGoogleTagManager,
         containsMatomo, containsPlausible, containsMixpanel, containsAmplitude,
         containsSegment.
  settle.
Qed.

Lemma settles_detect_build (html : string) (tech : TechStack) :
  settles net (detect_build html d baseUrl tech).
Proof. unfold detect_build. settle. Qed.

End Parsed.

(** X8. No failure of the network and no page makes the analysis throw:
    whatever the probe and the scripts answer, the analysis returns a
    record whenever the base URL parses, and it throws exactly when the
    base URL does not parse. *)
Theorem analysis_fails_only_on_a_bad_base_url
        (html : string) (headers : Js.Obj string) (baseUrl : string) :
  (URL_new baseUrl <> None ->
   exists t, eval net (detectTechStack html headers baseUrl) = Returned t) /\
  (URL_new baseUrl = None ->
   eval net (detectTechStack html headers baseUrl) = Thrown).
Proof.
  destruct (probe_returns net baseUrl) as [api Hapi].
  pose proof (eval_detect_cms net (cheerio_load html) baseUrl [] Hapi) as Hcms.
  split.
  - intros Hurl. unfold detectTechStack. cbv zeta.
    apply settles_bind; [eexists; exact Hcms | intros t1].
    apply settles_bind; [now apply settles_detect_js | intros [t2 js]].
    apply settles_bind; [now apply settles_detect_css | intros t3].
    apply settles_bind; [now apply settles_detect_analytics | intros t4].
    apply settles_bind; [now apply settles_detect_build | intros t5].
    apply settles_ret.
  - intros Hurl. unfold detectTechStack. cbv zeta. rewrite eval_bind, Hcms, eval_bind.
    unfold detect_js, jsDetections. cbv zeta. cbn [mapM snd].
    rewrite !eval_bind. unfold containsReact. cbv zeta.
    rewrite eval_bind, eval_containsInScripts. unfold pickTopScripts. rewrite Hurl.
    reflexivity.
Qed.

End Robust.

(* ================================================================== *)
(** ** Frozen evidence gives one record *)
(* ================================================================== *)

Section Determinism.

Import Http.

Context {RT : Runtime}.

(** C9, as amended. The aggregator is a function of its frozen evidence,
    the discovery probe included: two runs on the same page, headers and
    base URL, served the same body (or the same failure) for every script
    of the work-list and the same answer to the discovery probe, settle to
    the same outcome, and so return records that are equal field for field,
    in the same order of fields and of list entries.  The order in which
    the concurrent framework detectors are awaited has no part in it: when
    the base URL parses, each detector of the table has one verdict, the
    same in both runs, whatever part of the table is awaited, in whatever
    order and however often; the framework section lists the names of the
    table, in the order of the table, whose verdict is true. *)
Theorem same_evidence_same_record (net1 net2 : Net)
        (html : string) (headers : Js.Obj string) (baseUrl : string) :
  same_scripts net1 net2 (cheerio_load html) baseUrl ->
  same_probe net1 net2 baseUrl ->
  eval net1 (detectTechStack html headers baseUrl) =
  eval net2 (detectTechStack html headers baseUrl) /\
  (URL_new baseUrl <> None ->
   exists verdict : string * Prog bool -> bool,
     (forall batch,
         incl batch (jsDetections (cheerio_load html) baseUrl) ->
         eval net1 (mapM (fun np => snd np) batch) = Returned (map verdict batch) /\
         eval net2 (mapM (fun np => snd np) batch) = Returned (map verdict batch)) /\
     (forall tech,
         let table := jsDetections (cheerio_load html) baseUrl in
         let hits := collect_hits (map fst table) (map verdict table) in
         eval net1 (detect_js (cheerio_load html) baseUrl tech) =
           Returned (set_if_nonempty Key.javascriptFrameworks hits tech, hits) /\
         eval net2 (detect_js (cheerio_load html) baseUrl tech) =
           Returned (set_if_nonempty Key.javascriptFrameworks hits tech, hits))).
Proof.
  intros Hs Hp. split.
  - rewrite !detectTechStack_split.
    rewrite (alike_markup Hs Hp html eq_refl). reflexivity.
  - intros Hurl.
    set (d := cheerio_load html) in *.
    set (verdict := fun np : string * Prog bool =>
                      match eval net1 (snd np) with
                      | Returned b => b
                      | Thrown => false
                      end).
    pose proof (@settles_detections _ net1 d baseUrl Hurl) as Hset.
    rewrite Forall_forall in Hset.
    assert (H1 : forall np, In np (jsDetections d baseUrl) ->
                            eval net1 (snd np) = Returned (verdict np)).
    { intros np Hin. destruct (Hset np Hin) as [b Hb]. unfold verdict.
      rewrite Hb. reflexivity. }
    assert (H2 : forall np, In np (jsDetections d baseUrl) ->
                            eval net2 (snd np) = Returned (verdict np)).
    { intros np Hin. rewrite <- (H1 np Hin). symmetry.
      exact (@alike_detections _ net1 net2 d baseUrl Hs np Hin). }
    assert (Hall : forall net,
               (forall np, In np (jsDetections d baseUrl) ->
                           eval net (snd np) = Returned (verdict np)) ->
               forall batch, incl batch (jsDetections d baseUrl) ->
                 eval net (mapM (fun np => snd np) batch) = Returned (map verdict batch)).
    { intros net H batch Hin.
      apply (eval_mapM net (fun np : string * Prog bool => snd np) verdict).
      intros np Hnp. apply H. apply Hin. exact Hnp. }
    exists verdict. split.
    + intros batch Hin. split; [exact (Hall net1 H1 batch Hin) | exact (Hall net2 H2 batch Hin)].
    + intros tech table hits. subst hits table. unfold detect_js. cbv zeta.
      rewrite !eval_bind.
      rewrite (Hall net1 H1 _ (incl_refl _)), (Hall net2 H2 _ (incl_refl _)).
      split; reflexivity.
Qed.

End Determinism.

(* ================================================================== *)
(** ** The statements above, on the sample visit *)
(* ================================================================== *)

Module AtVisit.

Import Http Sample Visit.

#[local] Existing Instance Sample.runtime.

Lemma answers_carry_no_empty_value_witness :
  eval behind_cloudflare (POST forbidden_request) = Returned wordpress_answer /\
  match next_body wordpress_answer with
  | ErrorBody msg => msg <> ""
  | TechBody t => Forall (fun kv => filled (snd kv)) t
  end.
Proof.
  assert (H : eval behind_cloudflare (POST forbidden_request) = Returned wordpress_answer)
    by (vm_compute; reflexivity).
  split; [exact H|].
  exact (@answers_carry_no_empty_value Sample.runtime behind_cloudflare forbidden_request
           wordpress_answer H).
Defined.

Lemma unreachable_target_is_bad_gateway_witness :
  body_json forbidden_request = Some (JObj [("url", JStr site)]) /\
  prop "url" (JObj [("url", JStr site)]) = Some (JStr site) /\
  site <> "" /\
  stalled DocumentGet site = Failed TimedOut /\
  eval stalled (POST forbidden_request) =
    Returned (mkNext (ErrorBody "Error fetching the URL") 502) /\
  (forall answer, eval stalled (POST forbidden_request) = Returned answer ->
      next_status answer = 502 /\ next_body answer = ErrorBody "Error fetching the URL") /\
  trace stalled (POST forbidden_request) = [(DocumentGet, site)].
Proof.
  assert (H1 : body_json forbidden_request = Some (JObj [("url", JStr site)]))
    by reflexivity.
  assert (H2 : prop "url" (JObj [("url", JStr site)]) = Some (JStr site)) by reflexivity.
  assert (H3 : site <> "") by discriminate.
  assert (H4 : stalled DocumentGet site = Failed TimedOut) by reflexivity.
  repeat (split; [assumption|]).
  exact (@unreachable_target_is_bad_gateway Sample.runtime stalled forbidden_request
           (JObj [("url", JStr site)]) site TimedOut H1 H2 H3 H4).
Defined.

Lemma error_status_is_reported_witness :
  body_json forbidden_request = Some (JObj [("url", JStr site)]) /\
  prop "url" (JObj [("url", JStr site)]) = Some (JStr site) /\
  site <> "" /\
  answers 404 DocumentGet site = Responded (mkResp 404 [] (JStr "")) /\
  400 <= status (mkResp 404 [] (JStr "")) /\
  status (mkResp 404 [] (JStr "")) <> 403 /\
  status (mkResp 404 [] (JStr "")) < 1000 /\
  eval (answers 404) (POST forbidden_request) =
    Returned (mkNext (ErrorBody "Target responded with 404") 400) /\
  trace (answers 404) (POST forbidden_request) = [(DocumentGet, site)].
Proof.
  assert (H1 : body_json forbidden_request = Some (JObj [("url", JStr site)]))
    by reflexivity.
  assert (H2 : prop "url" (JObj [("url", JStr site)]) = Some (JStr site)) by reflexivity.
  assert (H3 : site <> "") by discriminate.
  assert (H4 : answers 404 DocumentGet site = Responded (mkResp 404 [] (JStr "")))
    by reflexivity.
  assert (H5 : 400 <= status (mkResp 404 [] (JStr ""))) by (simpl; lia).
  assert (H6 : status (mkResp 404 [] (JStr "")) <> 403) by (simpl; lia).
  assert (H7 : status (mkResp 404 [] (JStr "")) < 1000) by (simpl; lia).
  repeat (split; [assumption|]).
  destruct (@error_status_is_reported Sample.runtime (answers 404) forbidden_request
              (JObj [("url", JStr site)]) site (mkResp 404 [] (JStr "")) H1 H2 H3 H4 H5 H6)
    as [_ [Hdigits [_ Htrace]]].
  split; [exact (Hdigits H7) | exact Htrace].
Defined.

Lemma server_never_names_an_edge_witness :
  eval offline (detectTechStack "" [("server", "cloudflare")] site) =
    Returned cloudflare_record /\
  (forall s, tget Key.server cloudflare_record = Some (VStr s) ->
             Forall (fun n => Js.includes n (Js.toLowerCase s) = false) edge_names) /\
  (tget Key.server cloudflare_record = Some VUndefined ->
   exists l, tget Key.cdn cloudflare_record = Some (VList l) /\ l <> []).
Proof.
  assert (H : eval offline (detectTechStack "" [("server", "cloudflare")] site) =
              Returned cloudflare_record) by (vm_compute; reflexivity).
  split; [exact H|].
  exact (@server_never_names_an_edge Sample.runtime offline "" [("server", "cloudflare")]
           site cloudflare_record H).
Defined.

Lemma cdn_has_no_duplicates_witness :
  eval offline (detectTechStack "" [("server", "cloudflare")] site) =
    Returned cloudflare_record /\
  tget Key.cdn cloudflare_record = Some (VList ["Cloudflare"]) /\
  NoDup (map Js.toLowerCase ["Cloudflare"]).
Proof.
  assert (H : eval offline (detectTechStack "" [("server", "cloudflare")] site) =
              Returned cloudflare_record) by (vm_compute; reflexivity).
  assert (Hl : tget Key.cdn cloudflare_record = Some (VList ["Cloudflare"])) by reflexivity.
  repeat (split; [assumption|]).
  exact (@cdn_has_no_duplicates Sample.runtime offline "" [("server", "cloudflare")]
           site cloudflare_record ["Cloudflare"] H Hl).
Defined.

Lemma page_fields_ignore_headers_witness :
  eval offline (detectTechStack wordpress_jquery_html [] site) =
    Returned wordpress_jquery_record /\
  eval offline (detectTechStack wordpress_jquery_html nginx_brotli site) =
    Returned wordpress_on_nginx /\
  agree_on page_fields wordpress_jquery_record wordpress_on_nginx.
Proof.
  assert (H1 : eval offline (detectTechStack wordpress_jquery_html [] site) =
               Returned wordpress_jquery_record) by (vm_compute; reflexivity).
  assert (H2 : eval offline (detectTechStack wordpress_jquery_html nginx_brotli site) =
               Returned wordpress_on_nginx) by (vm_compute; reflexivity).
  repeat (split; [assumption|]).
  exact (@page_fields_ignore_headers Sample.runtime offline wordpress_jquery_html site
           [] nginx_brotli wordpress_jquery_record wordpress_on_nginx H1 H2).
Defined.

Lemma header_fields_ignore_page_witness :
  eval offline (detectTechStack wordpress_jquery_html nginx_brotli site) =
    Returned wordpress_on_nginx /\
  eval scripts_stall (detectTechStack wordpress_shopify_html nginx_brotli site) =
    Returned shop_on_nginx /\
  agree_on header_only_fields wordpress_on_nginx shop_on_nginx.
Proof.
  assert (H1 : eval offline (detectTechStack wordpress_jquery_html nginx_brotli site) =
               Returned wordpress_on_nginx) by (vm_compute; reflexivity).
  assert (H2 : eval scripts_stall (detectTechStack wordpress_shopify_html nginx_brotli site) =
               Returned shop_on_nginx) by (vm_compute; reflexivity).
  repeat (split; [assumption|]).
  exact (@header_fields_ignore_page Sample.runtime offline scripts_stall
           wordpress_jquery_html wordpress_shopify_html site site nginx_brotli
           wordpress_on_nginx shop_on_nginx H1 H2).
Defined.

Lemma frameworks_are_listed_once_witness :
  eval offline (detectTechStack wordpress_jquery_html powered_by_next site) =
    Returned powered_by_next_record /\
  tget Key.javascriptFrameworks powered_by_next_record = Some (VList ["jQuery"; "Next.js"]) /\
  NoDup ["jQuery"; "Next.js"].
Proof.
  assert (H : eval offline (detectTechStack wordpress_jquery_html powered_by_next site) =
              Returned powered_by_next_record) by (vm_compute; reflexivity).
  assert (Hl : tget Key.javascriptFrameworks powered_by_next_record =
               Some (VList ["jQuery"; "Next.js"])) by reflexivity.
  repeat (split; [assumption|]).
  exact (@frameworks_are_listed_once Sample.runtime offline wordpress_jquery_html
           powered_by_next site powered_by_next_record ["jQuery"; "Next.js"] H Hl).
Defined.

Lemma powered_by_a_framework_is_a_framework_witness :
  eval offline (detectTechStack wordpress_jquery_html powered_by_next site) =
    Returned powered_by_next_record /\
  Js.get "x-powered-by" powered_by_next = Some "Next.js" /\
  "Next.js" <> "" /\
  let xp := Js.toLowerCase "Next.js" in
  (Js.includes "next.js" xp = true ->
   exists l, tget Key.javascriptFrameworks powered_by_next_record = Some (VList l) /\
             In "Next.js" l) /\
  (Js.includes "nuxt.js" xp = true ->
   exists l, tget Key.javascriptFrameworks powered_by_next_record = Some (VList l) /\
             In "Nuxt.js" l) /\
  tget Key.webServer powered_by_next_record =
    (if Js.includes "next.js" xp || Js.includes "nuxt.js" xp
     then None else Some (VStr "Next.js")).
Proof.
  assert (H : eval offline (detectTechStack wordpress_jquery_html powered_by_next site) =
              Returned powered_by_next_record) by (vm_compute; reflexivity).
  assert (Hraw : Js.get "x-powered-by" powered_by_next = Some "Next.js") by reflexivity.
  assert (Hne : "Next.js" <> "") by discriminate.
  repeat (split; [assumption|]).
  exact (@powered_by_a_framework_is_a_framework Sample.runtime offline wordpress_jquery_html
           powered_by_next site powered_by_next_record "Next.js" H Hraw Hne).
Defined.

Lemma worklist_keeps_document_order_witness :
  URL_new site = Some site_url /\
  (let found := candidates many_scripts site (host site_url) in
   map summary (filter module_of_the_site found) =
     [ ("https://example.com/js/d.mjs", true, true);
       ("https://example.com/js/f.mjs", true, true) ] /\
   map summary (filter module_or_of_the_site found) =
     [ ("https://example.com/js/b.js", false, true);
       ("https://cdn.example.net/c.mjs", true, false);
       ("https://example.com/js/e.js", false, true);
       ("https://example.com/js/p.js", false, true);
       ("https://example.com/js/g1.js", false, true);
       ("https://example.com/js/g2.js", false, true);
       ("https://example.com/js/g3.js", false, true);
       ("https://example.com/js/g4.js", false, true);
       ("https://example.com/js/g5.js", false, true);
       ("https://example.com/js/g6.js", false, true) ] /\
   map summary (filter foreign_classic found) =
     [ ("https://cdn.example.net/a.js", false, false);
       ("https://cdn.example.net/z.js", false, false) ]) /\
  pickTopScripts many_scripts site =
    Some [ "https://example.com/js/d.mjs"; "https://example.com/js/f.mjs";
           "https://example.com/js/b.js"; "https://cdn.example.net/c.mjs";
           "https://example.com/js/e.js"; "https://example.com/js/p.js";
           "https://example.com/js/g1.js"; "https://example.com/js/g2.js";
           "https://example.com/js/g3.js"; "https://example.com/js/g4.js";
           "https://example.com/js/g5.js"; "https://example.com/js/g6.js" ] /\
  let found := candidates many_scripts site (host site_url) in
  pickTopScripts many_scripts site =
    Some (map url (firstn MAX_SCRIPT_REQUESTS
                          (filter module_of_the_site found ++
                           filter module_or_of_the_site found ++
                           filter foreign_classic found))) /\
  exists keep : Dom.element -> bool,
    (forall e, keep e = true <-> exists c, reference_of site (host site_url) e c) /\
    Forall2 (reference_of site (host site_url)) (filter keep (script_nodes many_scripts))
            found.
Proof.
  assert (Hb : URL_new site = Some site_url) by reflexivity.
  split; [exact Hb|].
  split; [vm_compute; repeat split; reflexivity|].
  split; [vm_compute; reflexivity|].
  exact (@worklist_keeps_document_order Sample.runtime many_scripts site site_url Hb).
Defined.

Lemma blank_input_is_refused_on_the_page_witness :
  Js.trim "   " = "" /\
  eval behind_cloudflare (analyzeTechStack "   " fresh) =
    Returned (mkHome (home_techStack fresh) (home_loading fresh)
                     "Please enter a valid URL.") /\
  calls behind_cloudflare (analyzeTechStack "   " fresh) = 0.
Proof.
  assert (H : Js.trim "   " = "") by reflexivity.
  split; [exact H|].
  exact (@blank_input_is_refused_on_the_page Sample.runtime behind_cloudflare "   " fresh H).
Defined.

Lemma page_shows_the_answer_witness :
  formatUrl "  example.com/ " <> "" /\
  eval behind_cloudflare (POST (page_request (formatUrl "  example.com/ "))) =
    Returned wordpress_answer /\
  exists st',
    eval behind_cloudflare (analyzeTechStack "  example.com/ " fresh) = Returned st' /\
    st' = match next_body wordpress_answer with
          | ErrorBody msg => mkHome None false msg
          | TechBody t => mkHome (Some t) false ""
          end /\
    panel st' = shown (next_body wordpress_answer).
Proof.
  assert (Hne : formatUrl "  example.com/ " <> "") by (vm_compute; discriminate).
  assert (Hr : eval behind_cloudflare (POST (page_request (formatUrl "  example.com/ "))) =
               Returned wordpress_answer) by (vm_compute; reflexivity).
  repeat (split; [assumption|]).
  exact (@page_shows_the_answer Sample.runtime behind_cloudflare "  example.com/ " fresh
           wordpress_answer Hne Hr).
Defined.

Lemma edge_inference_ignores_header_case_witness :
  lower_names [("Server", "cloudflare")] = lower_names [("SERVER", "cloudflare")] /\
  inferCDN [("Server", "cloudflare")] = inferCDN [("SERVER", "cloudflare")] /\
  inferHosting [("Server", "cloudflare")] = inferHosting [("SERVER", "cloudflare")].
Proof.
  assert (H : lower_names [("Server", "cloudflare")] = lower_names [("SERVER", "cloudflare")])
    by reflexivity.
  split; [exact H|].
  exact (@edge_inference_ignores_header_case
           [("Server", "cloudflare")] [("SERVER", "cloudflare")] H).
Defined.

Lemma more_scripts_more_detections_witness :
  more_scripts offline with_scripts (cheerio_load wordpress_jquery_html) site /\
  same_probe offline with_scripts site /\
  eval offline (detectTechStack wordpress_jquery_html [] site) =
    Returned wordpress_jquery_record /\
  eval with_scripts (detectTechStack wordpress_jquery_html [] site) =
    Returned wordpress_react_record /\
  within wordpress_jquery_record wordpress_react_record.
Proof.
  assert (Hmore : more_scripts offline with_scripts (cheerio_load wordpress_jquery_html) site)
    by (intros u text _ H; discriminate H).
  assert (Hprobe : same_probe offline with_scripts site) by (intros u _; reflexivity).
  assert (H1 : eval offline (detectTechStack wordpress_jquery_html [] site) =
               Returned wordpress_jquery_record) by (vm_compute; reflexivity).
  assert (H2 : eval with_scripts (detectTechStack wordpress_jquery_html [] site) =
               Returned wordpress_react_record) by (vm_compute; reflexivity).
  repeat (split; [assumption|]).
  exact (@more_scripts_more_detections Sample.runtime offline with_scripts
           wordpress_jquery_html [] site wordpress_jquery_record wordpress_react_record
           Hmore Hprobe H1 H2).
Defined.

Lemma scripts_fetched_are_referenced_witness :
  In "https://cdn.example.net/lib.js" (worklist repeated_script site) /\
  exists e ancestors name v r,
    In (e, ancestors) (Dom.all_elements repeated_script) /\
    ((Dom.tag e = "script" /\ name = "src") \/ (Dom.tag e = "link" /\ name = "href")) /\
    Dom.attr name e = Some v /\
    Js.trim v <> "" /\
    URL_resolve (Js.trim v) site = Some r /\
    "https://cdn.example.net/lib.js" = href r.
Proof.
  assert (H : In "https://cdn.example.net/lib.js" (worklist repeated_script site))
    by (vm_compute; tauto).
  split; [exact H|].
  exact (@scripts_fetched_are_referenced Sample.runtime repeated_script site
           "https://cdn.example.net/lib.js" H).
Defined.


Lemma same_evidence_same_record_witness :
  delivers ScriptGet "https://cdn.example.net/lib.js" <>
    delivers_too ScriptGet "https://cdn.example.net/lib.js" /\
  delivers ScriptGet "https://example.com/static/app.js" <>
    delivers_too ScriptGet "https://example.com/static/app.js" /\
  script_body delivers "https://example.com/static/app.js" =
    Some "React.createElement(App, null);" /\
  eval delivers (detectTechStack repeated_script_html [] site) =
    Returned react_on_wordpress /\
  eval delivers_too (detectTechStack repeated_script_html [] site) =
    Returned react_on_wordpress /\
  URL_new site <> None /\
  same_scripts delivers delivers_too (cheerio_load repeated_script_html) site /\
  same_probe delivers delivers_too site /\
  eval delivers (detectTechStack repeated_script_html [] site) =
  eval delivers_too (detectTechStack repeated_script_html [] site) /\
  exists verdict : string * Prog bool -> bool,
    (forall batch,
        incl batch (jsDetections (cheerio_load repeated_script_html) site) ->
        eval delivers (mapM (fun np => snd np) batch) = Returned (map verdict batch) /\
        eval delivers_too (mapM (fun np => snd np) batch) = Returned (map verdict batch)) /\
    (forall tech,
        let table := jsDetections (cheerio_load repeated_script_html) site in
        let hits := collect_hits (map fst table) (map verdict table) in
        eval delivers (detect_js (cheerio_load repeated_script_html) site tech) =
          Returned (set_if_nonempty Key.javascriptFrameworks hits tech, hits) /\
        eval delivers_too (detect_js (cheerio_load repeated_script_html) site tech) =
          Returned (set_if_nonempty Key.javascriptFrameworks hits tech, hits)).
Proof.
  assert (H0 : URL_new site <> None) by discriminate.
  assert (H1 : same_scripts delivers delivers_too (cheerio_load repeated_script_html) site).
  { intros u Hu. vm_compute in Hu.
    repeat (destruct Hu as [<-|Hu]; [vm_compute; reflexivity|]). contradiction. }
  assert (H2 : same_probe delivers delivers_too site).
  { intros u Hu. vm_compute in Hu. injection Hu as <-. vm_compute. reflexivity. }
  split; [vm_compute; discriminate|].
  split; [vm_compute; discriminate|].
  do 3 (split; [vm_compute; reflexivity|]).
  repeat (split; [assumption|]).
  destruct (@same_evidence_same_record Sample.runtime delivers delivers_too
              repeated_script_html [] site H1 H2) as [Hsame Horder].
  split; [exact Hsame | exact (Horder H0)].
Defined.

Lemma route_request_budget_witness :
  body_json forbidden_request = Some (JObj [("url", JStr site)]) /\
  prop "url" (JObj [("url", JStr site)]) = Some (JStr site) /\
  site <> "" /\
  In (ScriptGet, site) (trace (serves self_reference_html []) (POST forbidden_request)) /\
  List.length (trace (serves self_reference_html []) (POST forbidden_request)) = 30 /\
  trace (answers 404) (POST forbidden_request) = [(DocumentGet, site)] /\
  exists rest,
    trace (serves self_reference_html []) (POST forbidden_request) =
      (DocumentGet, site) :: rest /\
    rest = match serves self_reference_html [] DocumentGet site with
           | Failed _ => []
           | Responded r =>
               if 400 <=? status r then []
               else trace (serves self_reference_html [])
                          (detectTechStack (document_text (data r))
                                           (lowercase_headers (headers r)) site)
           end /\
    Forall (fun cu => fst cu = ProbeGet \/ fst cu = ScriptGet) rest /\
    List.length rest <= 1 + 28 * MAX_SCRIPT_REQUESTS.
Proof.
  assert (H1 : body_json forbidden_request = Some (JObj [("url", JStr site)]))
    by reflexivity.
  assert (H2 : prop "url" (JObj [("url", JStr site)]) = Some (JStr site)) by reflexivity.
  assert (H3 : site <> "") by discriminate.
  repeat (split; [assumption|]).
  split; [vm_compute; tauto|].
  split; [vm_compute; reflexivity|].
  split; [vm_compute; reflexivity|].
  exact (@route_request_budget Sample.runtime (serves self_reference_html [])
           forbidden_request (JObj [("url", JStr site)]) site H1 H2 H3).
Defined.

Lemma analysis_request_budget_witness :
  worklist (cheerio_load self_reference_html) site = [site] /\
  In (ScriptGet, site) (trace offline (detectTechStack self_reference_html [] site)) /\
  calls offline (detectTechStack self_reference_html [] site) = 29 /\
  calls offline (detectTechStack wordpress_bootstrap_html [] site) = 25 /\
  calls offline (detectTechStack many_scripts_html [] site) = 337 /\
  let d := cheerio_load self_reference_html in
  let run := detectTechStack self_reference_html [] site in
  calls offline (detect_cms d site []) <= 1 /\
  (exists k,
      (k = 25 \/ k = 28) /\
      (forall t, eval offline run = Returned t -> k = scan_count (wordpress_flag t)) /\
      calls offline run = calls offline (detect_cms d site []) +
                          k * List.length (worklist d site)) /\
  (forall c u, In (c, u) (trace offline run) ->
     (c = ProbeGet /\ exists p, URL_resolve "/wp-json" site = Some p /\ u = href p) \/
     (c = ScriptGet /\ In u (worklist d site))) /\
  calls offline run <= 1 + 28 * MAX_SCRIPT_REQUESTS.
Proof.
  split; [vm_compute; reflexivity|].
  split; [vm_compute; tauto|].
  do 3 (split; [vm_compute; reflexivity|]).
  exact (@analysis_request_budget Sample.runtime offline self_reference_html [] site).
Defined.

End AtVisit.
